(** * hcl-lang: schema-aware decoder for HCL documents

    A shallow embedding of the decoder package (hover, completion
    candidates for attribute values, semantic tokens) and of the schema
    package's expression constraints, with the properties the
    specification states about them. *)

From Stdlib Require Import ZArith Lia List Ascii String Bool DecimalString.
From Stdlib Require Import Sorting.Permutation Sorting.Sorted.
From stdpp Require Import base gmap strings.

Import ListNotations.
Set Warnings "-register-all".
Local Open Scope string_scope.
Local Open Scope list_scope.
Local Open Scope Z_scope.

(** ** Outcomes of Go calls

    A Go function of the decoder returns a value, returns a non-nil
    [error], or panics at run time (index out of range, nil pointer
    dereference, a cty accessor used on the wrong kind of value). *)

Module Go.

Inductive outcome (E A : Type) : Type :=
| Ret (a : A)
| Fail (e : E)
| Panic.

Arguments Ret {E A} a.
Arguments Fail {E A} e.
Arguments Panic {E A}.

Definition bind {E A B} (m : outcome E A) (k : A -> outcome E B) : outcome E B :=
  match m with
  | Ret a => k a
  | Fail e => Fail e
  | Panic => Panic
  end.

End Go.

Import Go.

Notation "'let!' x ':=' m 'in' k" := (Go.bind m (fun x => k))
  (at level 10, x pattern, m at level 100, k at level 200).

(** ** Source positions (package hcl) *)

Record Pos : Type := mkPos { Line : Z; Column : Z; Byte : Z }.

Record Range : Type := mkRange { Filename : string; Start : Pos; End : Pos }.

(** [hcl.Range.ContainsPos]: the start is inclusive, the end exclusive,
    compared on byte offsets. *)
Definition ContainsPos (r : Range) (p : Pos) : bool :=
  (Byte (Start r) <=? Byte p) && (Byte p <? Byte (End r)).

(** ** Types and values of go-cty

    A [cty.Type] is a primitive, the dynamic pseudo-type, or a list, set,
    map, tuple or object type. The attribute map of an object type is
    listed by ascending attribute name, every name once: the order in
    which [sortedObjectAttrNames] walks it. *)

Inductive ctyType : Type :=
| TString
| TNumber
| TBool
| DynamicPseudoType
| TList (elem : ctyType)
| TSet (elem : ctyType)
| TMap (elem : ctyType)
| TTuple (elems : list ctyType)
| TObject (attrs : list (string * ctyType)).

Definition IsPrimitiveType (t : ctyType) : bool :=
  match t with TString | TNumber | TBool => true | _ => false end.
Definition IsListType (t : ctyType) : bool :=
  match t with TList _ => true | _ => false end.
Definition IsSetType (t : ctyType) : bool :=
  match t with TSet _ => true | _ => false end.
Definition IsMapType (t : ctyType) : bool :=
  match t with TMap _ => true | _ => false end.
Definition IsTupleType (t : ctyType) : bool :=
  match t with TTuple _ => true | _ => false end.
Definition IsObjectType (t : ctyType) : bool :=
  match t with TObject _ => true | _ => false end.

(** [cty.Type.Equals]: the same kind of type with equal members. *)
Fixpoint Equals (a b : ctyType) {struct a} : bool :=
  match a, b with
  | TString, TString | TNumber, TNumber | TBool, TBool => true
  | DynamicPseudoType, DynamicPseudoType => true
  | TList x, TList y | TSet x, TSet y | TMap x, TMap y => Equals x y
  | TTuple xs, TTuple ys =>
      (fix all2 (l : list ctyType) (r : list ctyType) {struct l} : bool :=
         match l, r with
         | [], [] => true
         | x :: l', y :: r' => Equals x y && all2 l' r'
         | _, _ => false
         end) xs ys
  | TObject xs, TObject ys =>
      (fix all2 (l : list (string * ctyType)) (r : list (string * ctyType))
           {struct l} : bool :=
         match l, r with
         | [], [] => true
         | (n, x) :: l', (m, y) :: r' =>
             String.eqb n m && Equals x y && all2 l' r'
         | _, _ => false
         end) xs ys
  | _, _ => false
  end.

(** Go's [==] on two [cty.Type] values whose one side is a primitive type
    constant ([cty.Bool], [cty.String], ...). *)
Definition isType (k t : ctyType) : bool := Equals k t.

(** [cty.Type.FriendlyName] as go-cty renders it. *)
Fixpoint FriendlyName (t : ctyType) : string :=
  match t with
  | TString => "string"
  | TNumber => "number"
  | TBool => "bool"
  | DynamicPseudoType => "dynamic"
  | TList e => "list of " +:+ FriendlyName e
  | TSet e => "set of " +:+ FriendlyName e
  | TMap e => "map of " +:+ FriendlyName e
  | TTuple _ => "tuple"
  | TObject _ => "object"
  end.

(** A [cty.Value]: unknown or null of a type, a primitive, or a
    collection or structure of a type with its member values. Numbers are
    kept as rationals. *)
Inductive Value : Type :=
| UnknownVal (t : ctyType)
| NullVal (t : ctyType)
| StringVal (s : string)
| BoolVal (b : bool)
| NumberVal (num : Z) (den : positive)
| CompoundVal (t : ctyType) (members : list Value).

Definition ctyTrue : Value := BoolVal true.
Definition ctyFalse : Value := BoolVal false.
(** [cty.DynamicVal], the unknown value of unknown type. *)
Definition DynamicVal : Value := UnknownVal DynamicPseudoType.

Definition ValueType (v : Value) : ctyType :=
  match v with
  | UnknownVal t | NullVal t | CompoundVal t _ => t
  | StringVal _ => TString
  | BoolVal _ => TBool
  | NumberVal _ _ => TNumber
  end.

Fixpoint IsWhollyKnown (v : Value) : bool :=
  match v with
  | UnknownVal _ => false
  | CompoundVal _ ms =>
      (fix all (l : list Value) : bool :=
         match l with
         | [] => true
         | m :: l' => IsWhollyKnown m && all l'
         end) ms
  | _ => true
  end.

(** ** The syntax tree (package hclsyntax)

    An expression is one of the node kinds the decoder tells apart; every
    other kind (traversals, function calls, operators, ...) is
    [OtherExpr]. The key of an object item is kept as the value its key
    expression evaluates to without an evaluation context, with the
    key's range. *)

Record ObjectConsKey : Type := mkKey { KeyValue : Value; KeyRange : Range }.

Inductive Expression : Type :=
| LiteralValueExpr (Val : Value) (SrcRange : Range)
| TemplateExpr (Parts : list Expression) (SrcRange : Range)
| TemplateWrapExpr (Wrapped : Expression) (SrcRange : Range)
| TupleConsExpr (Exprs : list Expression) (SrcRange : Range)
| ObjectConsExpr (Items : list (ObjectConsKey * Expression)) (SrcRange : Range)
| OtherExpr (kind : string) (SrcRange : Range).

Definition ExprRange (e : Expression) : Range :=
  match e with
  | LiteralValueExpr _ r | TemplateExpr _ r | TemplateWrapExpr _ r
  | TupleConsExpr _ r | ObjectConsExpr _ r | OtherExpr _ r => r
  end.

(** The Go type name of the node, as [%T] prints it. *)
Definition ExprTypeName (e : Expression) : string :=
  match e with
  | LiteralValueExpr _ _ => "*hclsyntax.LiteralValueExpr"
  | TemplateExpr _ _ => "*hclsyntax.TemplateExpr"
  | TemplateWrapExpr _ _ => "*hclsyntax.TemplateWrapExpr"
  | TupleConsExpr _ _ => "*hclsyntax.TupleConsExpr"
  | ObjectConsExpr _ _ => "*hclsyntax.ObjectConsExpr"
  | OtherExpr k _ => k
  end.

Record Attribute : Type := mkAttribute {
  AttrName : string;
  AttrExpr : Expression;
  AttrSrcRange : Range;
  NameRange : Range
}.

(** A body holds its attributes, a Go map ranged over in no fixed order
    (here: in the order of the list), and its blocks in source order. The
    body of a block is a pointer, [None] when nil. *)
Inductive Body : Type :=
| mkBody (Attributes : list (string * Attribute)) (Blocks : list Block)
         (BodySrcRange : Range)
with Block : Type :=
| mkBlock (BlockType : string) (Labels : list string) (BlockBody : option Body)
          (TypeRange : Range) (LabelRanges : list Range)
          (OpenBraceRange CloseBraceRange : Range).

Definition Attributes (b : Body) := let 'mkBody a _ _ := b in a.
Definition Blocks (b : Body) := let 'mkBody _ bl _ := b in bl.
Definition BodyRange (b : Body) := let 'mkBody _ _ r := b in r.

Definition BlockType (b : Block) := let 'mkBlock t _ _ _ _ _ _ := b in t.
Definition Labels (b : Block) := let 'mkBlock _ l _ _ _ _ _ := b in l.
Definition BlockBody (b : Block) := let 'mkBlock _ _ bd _ _ _ _ := b in bd.
Definition TypeRange (b : Block) := let 'mkBlock _ _ _ r _ _ _ := b in r.
Definition LabelRanges (b : Block) := let 'mkBlock _ _ _ _ l _ _ := b in l.
Definition OpenBraceRange (b : Block) := let 'mkBlock _ _ _ _ _ r _ := b in r.
Definition CloseBraceRange (b : Block) := let 'mkBlock _ _ _ _ _ _ r := b in r.

Definition RangeBetween (a b : Range) : Range :=
  mkRange (Filename a) (Start a) (End b).

(** [hclsyntax.Block.Range]: from the type keyword to the closing brace. *)
Definition BlockRange (b : Block) : Range :=
  RangeBetween (TypeRange b) (CloseBraceRange b).

(** ** Schema (package schema) *)

(** [ExprConstraint] is an interface; [LiteralTypeExpr] is its one
    implementation, [NilExprConstraint] the interface value holding none. *)
Inductive ExprConstraint : Type :=
| LiteralTypeExpr (Type_ : ctyType)
| NilExprConstraint.

Definition ExprConstraints := list ExprConstraint.

Definition LiteralValueTypes (ec : ExprConstraints) : list ctyType :=
  flat_map (fun c => match c with
                     | LiteralTypeExpr t => [t]
                     | NilExprConstraint => []
                     end) ec.

Definition LiteralTypeOnly (t : ctyType) : ExprConstraints :=
  [LiteralTypeExpr t].

Inductive MarkupKind : Type := NilKind | PlainTextKind | MarkdownKind.

Record MarkupContent : Type := mkMarkup { Kind : MarkupKind; MarkupValue : string }.

Definition Markdown (v : string) : MarkupContent := mkMarkup MarkdownKind v.
Definition PlainText (v : string) : MarkupContent := mkMarkup PlainTextKind v.
(** The zero [lang.MarkupContent]. *)
Definition NoMarkup : MarkupContent := mkMarkup NilKind "".

Record LabelSchema : Type := mkLabelSchema {
  LabelName : string;
  LabelDescription : MarkupContent;
  IsDepKey : bool
}.

Record AttributeSchema : Type := mkAttributeSchema {
  Expr : ExprConstraints;
  AttrIsDeprecated : bool;
  AttrDescription : MarkupContent
}.

Record LabelDependent : Type := mkLabelDependent { Index : Z; LabelValue : string }.

(** The canonical form of a set of dependency keys: its (index, value)
    pairs in ascending order. *)
Definition SchemaKey := list (Z * string).

Inductive BodySchema : Type :=
| mkBodySchema (SchemaAttributes : gmap string AttributeSchema)
               (SchemaBlocks : gmap string BlockSchema)
               (AnyAttribute : option AttributeSchema)
               (Detail : string) (BodyDescription : MarkupContent)
               (DocsLink : option string)
with BlockSchema : Type :=
| mkBlockSchema (SchemaLabels : list LabelSchema)
                (SchemaBody : option BodySchema)
                (DependentBody : gmap SchemaKey BodySchema)
                (BlockIsDeprecated : bool)
                (BlockDescription : MarkupContent).

Definition SchemaAttributes (s : BodySchema) := let 'mkBodySchema a _ _ _ _ _ := s in a.
Definition SchemaBlocks (s : BodySchema) := let 'mkBodySchema _ b _ _ _ _ := s in b.
Definition AnyAttribute (s : BodySchema) := let 'mkBodySchema _ _ a _ _ _ := s in a.
Definition Detail (s : BodySchema) := let 'mkBodySchema _ _ _ d _ _ := s in d.
Definition BodyDescription (s : BodySchema) := let 'mkBodySchema _ _ _ _ d _ := s in d.
Definition DocsLink (s : BodySchema) := let 'mkBodySchema _ _ _ _ _ l := s in l.

Definition SchemaLabels (s : BlockSchema) := let 'mkBlockSchema l _ _ _ _ := s in l.
Definition SchemaBody (s : BlockSchema) := let 'mkBlockSchema _ b _ _ _ := s in b.
Definition DependentBody (s : BlockSchema) := let 'mkBlockSchema _ _ d _ _ := s in d.
Definition BlockIsDeprecated (s : BlockSchema) := let 'mkBlockSchema _ _ _ d _ := s in d.
Definition BlockDescription (s : BlockSchema) := let 'mkBlockSchema _ _ _ _ d := s in d.

(** *** Dependency keys *)

Record DependencyKeys : Type := mkDependencyKeys { DepLabels : list LabelDependent }.

Fixpoint insertKey (k : Z * string) (l : SchemaKey) : SchemaKey :=
  match l with
  | [] => [k]
  | h :: t => if fst k <=? fst h then k :: l else h :: insertKey k t
  end.

(** Modelled from the spec: [schema.NewSchemaKey] is not among the source
    files. "Canonicalized into a SchemaKey (order-independent
    serialization)": the pairs are put in ascending order of label
    index. *)
Definition NewSchemaKey (dk : DependencyKeys) : SchemaKey :=
  fold_right insertKey [] (map (fun d => (Index d, LabelValue d)) (DepLabels dk)).

(** Modelled from the spec: [dependencyKeysFromBlock] is not among the
    source files. "For every label schema flagged IsDepKey, read the
    corresponding label value from the block instance by position"; "if
    the instance has fewer labels than referenced dependency-key indices
    ... resolution yields found = false", here [None]. The data model of
    the spec flags labels only, so the attribute part of the keys is
    empty. *)
Fixpoint depLabelsFrom (i : Z) (schemas : list LabelSchema) (labels : list string)
  : option (list LabelDependent) :=
  match schemas with
  | [] => Some []
  | ls :: schemas' =>
      if IsDepKey ls then
        match labels with
        | [] => None
        | v :: labels' =>
            match depLabelsFrom (i + 1) schemas' labels' with
            | Some r => Some (mkLabelDependent i v :: r)
            | None => None
            end
        end
      else depLabelsFrom (i + 1) schemas' (tl labels)
  end.

Definition dependencyKeysFromBlock (block : Block) (bSchema : BlockSchema)
  : option DependencyKeys :=
  match depLabelsFrom 0 (SchemaLabels bSchema) (Labels block) with
  | Some ls => Some (mkDependencyKeys ls)
  | None => None
  end.

(** Modelled from the spec: [BlockSchema.DependentBodySchema] is not among
    the source files. The canonical key is looked up "in the block
    schema's dependent-body-schema mapping"; a dependent body schema is
    found only when every key of the entry matches. *)
Definition DependentBodySchema (bSchema : BlockSchema) (dk : option DependencyKeys)
  : option BodySchema :=
  match dk with
  | Some keys => DependentBody bSchema !! NewSchemaKey keys
  | None => None
  end.

(** ** Semantic tokens (package lang) *)

Inductive SemanticTokenType : Type :=
| TokenAttrName | TokenBlockType | TokenBlockLabel
| TokenBool | TokenString | TokenNumber | TokenObjectKey | TokenMapKey.

Inductive SemanticTokenModifier : Type :=
| TokenModifierDependent | TokenModifierDeprecated.

Record SemanticToken : Type := mkToken {
  TokType : SemanticTokenType;
  Modifiers : list SemanticTokenModifier;
  TokRange : Range
}.

(** ** Errors of the decoder *)

Inductive Error : Type :=
| NoSchemaError
| FileNotFoundError (filename : string)
| UnknownFileFormatError (filename : string)
| PositionalError (filename : string) (pos : Pos) (msg : string)
| PlainError (msg : string).

Definition result (A : Type) := Go.outcome Error A.

(** ** Expression constraint engine (hover.go, semantic_tokens.go) *)

Definition listTypeLiteralConstraint (constraints : ExprConstraints) : option ctyType :=
  (fix loop (cs : list ExprConstraint) : option ctyType :=
     match cs with
     | [] => None
     | LiteralTypeExpr t :: cs' => if IsListType t then Some t else loop cs'
     | NilExprConstraint :: cs' => loop cs'
     end) constraints.

Definition setTypeLiteralConstraint (constraints : ExprConstraints) : option ctyType :=
  (fix loop (cs : list ExprConstraint) : option ctyType :=
     match cs with
     | [] => None
     | LiteralTypeExpr t :: cs' => if IsSetType t then Some t else loop cs'
     | NilExprConstraint :: cs' => loop cs'
     end) constraints.

Definition tupleTypeLiteralConstraint (constraints : ExprConstraints) : option ctyType :=
  (fix loop (cs : list ExprConstraint) : option ctyType :=
     match cs with
     | [] => None
     | LiteralTypeExpr t :: cs' => if IsTupleType t then Some t else loop cs'
     | NilExprConstraint :: cs' => loop cs'
     end) constraints.

Definition objectTypeLiteralConstraint (constraints : ExprConstraints) : option ctyType :=
  (fix loop (cs : list ExprConstraint) : option ctyType :=
     match cs with
     | [] => None
     | LiteralTypeExpr t :: cs' => if IsObjectType t then Some t else loop cs'
     | NilExprConstraint :: cs' => loop cs'
     end) constraints.

Definition mapTypeLiteralConstraint (constraints : ExprConstraints) : option ctyType :=
  (fix loop (cs : list ExprConstraint) : option ctyType :=
     match cs with
     | [] => None
     | LiteralTypeExpr t :: cs' => if IsMapType t then Some t else loop cs'
     | NilExprConstraint :: cs' => loop cs'
     end) constraints.

Definition literalExprForType (exprType : ctyType) (constraints : ExprConstraints)
  : option ctyType :=
  (fix loop (cs : list ExprConstraint) : option ctyType :=
     match cs with
     | [] => None
     | LiteralTypeExpr t :: cs' => if Equals t exprType then Some t else loop cs'
     | NilExprConstraint :: cs' => loop cs'
     end) constraints.

(** *** Tokens of expressions *)

Definition tokensForLiteralValueExpr (rng : Range) (valType : ctyType)
  : list SemanticToken :=
  match valType with
  | TBool => [mkToken TokenBool [] rng]
  | TString => [mkToken TokenString [] rng]
  | TNumber => [mkToken TokenNumber [] rng]
  | _ => []
  end.

(** [cty.Value.AsString] panics unless the value is a known, non-null
    string. *)
Definition AsString (v : Value) : result string :=
  match v with StringVal s => Ret s | _ => Panic end.

Definition lookupAttrType (attrTypes : list (string * ctyType)) (name : string)
  : option ctyType :=
  match find (fun p => String.eqb (fst p) name) attrTypes with
  | Some p => Some (snd p)
  | None => None
  end.

Section TypedTokens.

(** The element type variable of [tokensForTupleConsExpr] starts as the
    zero [cty.Type], which is none of the kinds; a typed expression is
    therefore tokenized against [option ctyType], [None] being that
    zero type. *)
Variable tokenForTypedExpression : Expression -> option ctyType -> result (list SemanticToken).

Fixpoint objectItemTokens (attrTypes : list (string * ctyType))
  (items : list (ObjectConsKey * Expression)) : result (list SemanticToken) :=
  match items with
  | [] => Ret []
  | (key, valueExpr) :: items' =>
      if IsWhollyKnown (KeyValue key) && Equals (ValueType (KeyValue key)) TString then
        let! name := AsString (KeyValue key) in
        match lookupAttrType attrTypes name with
        | None => objectItemTokens attrTypes items'
        | Some valType =>
            let! vt := tokenForTypedExpression valueExpr (Some valType) in
            let! rest := objectItemTokens attrTypes items' in
            Ret (mkToken TokenObjectKey [] (KeyRange key) :: vt ++ rest)
        end
      else objectItemTokens attrTypes items'
  end.

Fixpoint mapItemTokens (elemType : ctyType)
  (items : list (ObjectConsKey * Expression)) : result (list SemanticToken) :=
  match items with
  | [] => Ret []
  | (key, valueExpr) :: items' =>
      let! vt := tokenForTypedExpression valueExpr (Some elemType) in
      let! rest := mapItemTokens elemType items' in
      Ret (mkToken TokenMapKey [] (KeyRange key) :: vt ++ rest)
  end.

Definition tokensForObjectConsExpr_body (items : list (ObjectConsKey * Expression))
  (exprType : option ctyType) : result (list SemanticToken) :=
  match exprType with
  | Some (TObject attrTypes) => objectItemTokens attrTypes items
  | Some (TMap elemType) => mapItemTokens elemType items
  | _ => Ret []
  end.

(** The element type of item [i]: the list or set element type, or the
    tuple's member [i], whose absence makes [TupleElementType] panic. *)
Definition tupleElemType (exprType : option ctyType) (i : nat)
  : result (option ctyType) :=
  match exprType with
  | Some (TList e) | Some (TSet e) => Ret (Some e)
  | Some (TTuple elems) =>
      match nth_error elems i with
      | Some e => Ret (Some e)
      | None => Panic
      end
  | _ => Ret None
  end.

Fixpoint tupleItemTokens (exprType : option ctyType) (i : nat)
  (exprs : list Expression) : result (list SemanticToken) :=
  match exprs with
  | [] => Ret []
  | e :: exprs' =>
      let! elemType := tupleElemType exprType i in
      let! et := tokenForTypedExpression e elemType in
      let! rest := tupleItemTokens exprType (S i) exprs' in
      Ret (et ++ rest)
  end.

End TypedTokens.

Fixpoint tokenForTypedExpression (expr : Expression) (valType : option ctyType)
  {struct expr} : result (list SemanticToken) :=
  match expr with
  | LiteralValueExpr _ rng =>
      match valType with
      | Some t => if IsPrimitiveType t then Ret (tokensForLiteralValueExpr rng t)
                  else Ret []
      | None => Ret []
      end
  | ObjectConsExpr items _ =>
      tokensForObjectConsExpr_body tokenForTypedExpression items valType
  | TupleConsExpr exprs _ =>
      tupleItemTokens tokenForTypedExpression valType 0 exprs
  | _ => Ret []
  end.

Definition tokensForObjectConsExpr (items : list (ObjectConsKey * Expression))
  (exprType : option ctyType) : result (list SemanticToken) :=
  tokensForObjectConsExpr_body tokenForTypedExpression items exprType.

Definition tokensForTupleConsExpr (exprs : list Expression)
  (exprType : option ctyType) : result (list SemanticToken) :=
  tupleItemTokens tokenForTypedExpression exprType 0 exprs.

Fixpoint tokensForConstrainedExpression (expr : Expression)
  (constraints : ExprConstraints) {struct expr} : result (list SemanticToken) :=
  match expr with
  | TemplateExpr parts _ =>
      match parts with
      | [part] => tokensForConstrainedExpression part constraints
      | _ => Ret []
      end
  | TemplateWrapExpr wrapped _ =>
      tokensForConstrainedExpression wrapped constraints
  | TupleConsExpr exprs _ =>
      match listTypeLiteralConstraint constraints with
      | Some t => tokensForTupleConsExpr exprs (Some t)
      | None =>
          match setTypeLiteralConstraint constraints with
          | Some t => tokensForTupleConsExpr exprs (Some t)
          | None =>
              match tupleTypeLiteralConstraint constraints with
              | Some t => tokensForTupleConsExpr exprs (Some t)
              | None => Ret []
              end
          end
      end
  | ObjectConsExpr items _ =>
      match objectTypeLiteralConstraint constraints with
      | Some t => tokensForObjectConsExpr items (Some t)
      | None =>
          match mapTypeLiteralConstraint constraints with
          | Some t => tokensForObjectConsExpr items (Some t)
          | None => Ret []
          end
      end
  | LiteralValueExpr val _ =>
      let valType := ValueType val in
      match literalExprForType valType constraints with
      | None => Ret []
      | Some _ => tokenForTypedExpression expr (Some valType)
      end
  | OtherExpr _ _ => Ret []
  end.

(** ** Semantic tokens of a body (semantic_tokens.go) *)

Definition passModifiers (isDependent isDeprecated : bool)
  : list SemanticTokenModifier :=
  (if isDependent then [TokenModifierDependent] else [])
  ++ (if isDeprecated then [TokenModifierDeprecated] else []).

(** The schema of attribute [name]: its own entry, else [AnyAttribute]. *)
Definition attrSchemaFor (bodySchema : BodySchema) (name : string)
  : option AttributeSchema :=
  match SchemaAttributes bodySchema !! name with
  | Some s => Some s
  | None => AnyAttribute bodySchema
  end.

Fixpoint attributeTokens (bodySchema : BodySchema) (isDependent : bool)
  (attrs : list (string * Attribute)) : result (list SemanticToken) :=
  match attrs with
  | [] => Ret []
  | (name, attr) :: attrs' =>
      match attrSchemaFor bodySchema name with
      | None => attributeTokens bodySchema isDependent attrs'
      | Some attrSchema =>
          let! exprTokens :=
            tokensForConstrainedExpression (AttrExpr attr) (Expr attrSchema) in
          let! rest := attributeTokens bodySchema isDependent attrs' in
          Ret (mkToken TokenAttrName
                       (passModifiers isDependent (AttrIsDeprecated attrSchema))
                       (NameRange attr)
               :: exprTokens ++ rest)
      end
  end.

Fixpoint labelTokens (blockSchema : BlockSchema) (i : nat) (labelRanges : list Range)
  : list SemanticToken :=
  match labelRanges with
  | [] => []
  | labelRange :: ranges' =>
      match nth_error (SchemaLabels blockSchema) i with
      | None => labelTokens blockSchema (S i) ranges'
      | Some labelSchema =>
          mkToken TokenBlockLabel
                  (if IsDepKey labelSchema then [TokenModifierDependent] else [])
                  labelRange
          :: labelTokens blockSchema (S i) ranges'
      end
  end.

Definition blockHeadTokens (block : Block) (blockSchema : BlockSchema)
  (isDependent : bool) : list SemanticToken :=
  mkToken TokenBlockType
          (passModifiers isDependent (BlockIsDeprecated blockSchema))
          (TypeRange block)
  :: labelTokens blockSchema 0 (LabelRanges block).

Fixpoint tokensForBody (body : Body) (bodySchema : option BodySchema)
  (isDependent : bool) {struct body} : result (list SemanticToken) :=
  match bodySchema with
  | None => Ret []
  | Some schema =>
      let! attrTokens := attributeTokens schema isDependent (Attributes body) in
      let! blockTokens :=
        (fix blocksLoop (blocks : list Block) : result (list SemanticToken) :=
           match blocks with
           | [] => Ret []
           | block :: blocks' =>
               match SchemaBlocks schema !! BlockType block with
               | None => blocksLoop blocks'
               | Some blockSchema =>
                   let! own :=
                     match BlockBody block with
                     | Some b => tokensForBody b (SchemaBody blockSchema) false
                     | None => Ret []
                     end in
                   let! dep :=
                     match DependentBodySchema blockSchema
                             (dependencyKeysFromBlock block blockSchema) with
                     | Some depSchema =>
                         match BlockBody block with
                         | Some b => tokensForBody b (Some depSchema) true
                         | None => Panic
                         end
                     | None => Ret []
                     end in
                   let! rest := blocksLoop blocks' in
                   Ret (blockHeadTokens block blockSchema isDependent
                        ++ own ++ dep ++ rest)
               end
           end) (Blocks body) in
      Ret (attrTokens ++ blockTokens)
  end.

(** [sort.Slice] of the Go library, as an insertion sort by [less]. *)
Fixpoint insertBy {A : Type} (less : A -> A -> bool) (x : A) (l : list A) : list A :=
  match l with
  | [] => [x]
  | h :: t => if less x h then x :: l else h :: insertBy less x t
  end.

Definition sortSlice {A : Type} (less : A -> A -> bool) (l : list A) : list A :=
  fold_right (insertBy less) [] l.

Definition StartByte (t : SemanticToken) : Z := Byte (Start (TokRange t)).

(** ** The decoder and its files *)

Inductive FileBody : Type :=
| SyntaxBody (b : Body)
| ForeignBody.

Record Decoder : Type := mkDecoder {
  files : gmap string FileBody;
  rootSchema : option BodySchema
}.

(** Modelled from the spec: [Decoder.fileByName] is not among the source
    files. "file-not-found (query references an unregistered document
    name)". *)
Definition fileByName (d : Decoder) (filename : string) : result FileBody :=
  match files d !! filename with
  | Some f => Ret f
  | None => Fail (FileNotFoundError filename)
  end.

(** Modelled from the spec: [Decoder.bodyForFileAndPos] is not among the
    source files. "unknown-file-format (document body is of a shape the
    resolver cannot interpret, e.g., an empty/degenerate body)". *)
Definition bodyForFileAndPos (filename : string) (f : FileBody) (pos : Pos)
  : result Body :=
  match f with
  | SyntaxBody b => Ret b
  | ForeignBody => Fail (UnknownFileFormatError filename)
  end.

Definition InitialPos : Pos := mkPos 1 1 0.

Definition SemanticTokensInFile (d : Decoder) (filename : string)
  : result (list SemanticToken) :=
  let! f := fileByName d filename in
  let! body := bodyForFileAndPos filename f InitialPos in
  match rootSchema d with
  | None => Ret []
  | Some schema =>
      let! tokens := tokensForBody body (Some schema) false in
      Ret (sortSlice (fun a b => StartByte a <? StartByte b) tokens)
  end.

(** ** Hover (hover.go) *)

Record HoverData : Type := mkHoverData { Content : MarkupContent; HoverRange : Range }.

(** [%d] of a Go int. *)
Definition formatInt (n : Z) : string := NilZero.string_of_int (Z.to_int n).

Definition isSpace (c : ascii) : bool :=
  let n := nat_of_ascii c in
  ((9 <=? n) && (n <=? 13))%nat || (n =? 32)%nat.

Fixpoint trimLeft (s : string) : string :=
  match s with
  | String c s' => if isSpace c then trimLeft s' else s
  | EmptyString => EmptyString
  end.

Fixpoint trimRight (s : string) : string :=
  match s with
  | EmptyString => EmptyString
  | String c s' =>
      match trimRight s' with
      | EmptyString => if isSpace c then EmptyString else String c EmptyString
      | r => String c r
      end
  end.

(** [strings.TrimSpace] on ASCII white space. *)
Definition TrimSpace (s : string) : string := trimRight (trimLeft s).

(** [cty.Value.True] panics unless the value is a known, non-null bool. *)
Definition True_ (v : Value) : result bool :=
  match v with BoolVal b => Ret b | _ => Panic end.

Definition formatBool (b : bool) : string := if b then "true" else "false".

(** The names of an object type's attributes in ascending order. *)
Definition sortedObjectAttrNames (t : ctyType) : list string :=
  match t with
  | TObject attrs => map fst attrs
  | _ => []
  end.

(** Modelled from the spec: [mergeBlockBodySchemas] is not among the source
    files. "Merge the block's own body schema with any dependent body
    schema whose key matches; dependent-schema attribute/block entries
    take precedence on name collision, falling back to the block's own
    body-schema entries for names the dependent schema does not
    declare." *)
Definition mergeBlockBodySchemas (block : Block) (bSchema : BlockSchema)
  : result BodySchema :=
  let own := match SchemaBody bSchema with
             | Some s => s
             | None => mkBodySchema ∅ ∅ None "" NoMarkup None
             end in
  match DependentBodySchema bSchema (dependencyKeysFromBlock block bSchema) with
  | Some dep =>
      Ret (mkBodySchema (SchemaAttributes dep ∪ SchemaAttributes own)
                        (SchemaBlocks dep ∪ SchemaBlocks own)
                        (AnyAttribute own) (Detail own) (BodyDescription own)
                        (DocsLink own))
  | None => Ret own
  end.

Section Hover.

(** What the hover code takes from outside the source files: [%q] of the
    Go library, the text of a number, the detail lines built by
    [detailForAttribute] and [detailForBlock], the resolver of
    documentation links (host name and full address, when it
    succeeds) and [isPosOutsideBody]. *)
Variable quote : string -> string.
Variable bigFloatString : Z -> positive -> string.
Variable detailForAttribute : AttributeSchema -> string.
Variable detailForBlock : BlockSchema -> string.
Variable docsURL : string -> string -> option (string * string).
Variable isPosOutsideBody : Block -> Pos -> bool.

Definition hoverContentForValueAndType (val : Value) (t : ctyType)
  : result MarkupContent :=
  if IsPrimitiveType t then
    let! value :=
      match t with
      | TString => let! s := AsString val in Ret ("`" +:+ s +:+ "`")
      | TBool => let! b := True_ val in Ret ("`" +:+ formatBool b +:+ "`")
      | TNumber =>
          match val with
          | NumberVal n d => Ret ("`" +:+ bigFloatString n d +:+ "`")
          | _ => Panic
          end
      | _ => Ret ""
      end in
    Ret (mkMarkup MarkdownKind (value +:+ " _" +:+ FriendlyName t +:+ "_"))
  else if IsObjectType t then
    match t with
    | TObject [] => Ret (mkMarkup MarkdownKind (FriendlyName t))
    | TObject attrs =>
        let lines :=
          fold_left (fun acc p => acc +:+ "  " +:+ fst p +:+ " = "
                                      +:+ FriendlyName (snd p) +:+ String "010" "")
                    attrs ("```" +:+ String "010" "{" +:+ String "010" "") in
        Ret (mkMarkup MarkdownKind
               (lines +:+ "}" +:+ String "010" "```" +:+ String "010" "_object_"))
    | _ => Ret NoMarkup
    end
  else if IsMapType t || IsListType t || IsSetType t || IsTupleType t then
    Ret (mkMarkup MarkdownKind ("_" +:+ FriendlyName t +:+ "_"))
  else Fail (PlainError ("unsupported type: " +:+ quote (FriendlyName t))).

Definition unsupportedExpression (expr : Expression) : Error :=
  PlainError ("unsupported expression (" +:+ ExprTypeName expr +:+ ")").

Fixpoint hoverContentForExpr (expr : Expression) (constraints : ExprConstraints)
  {struct expr} : result MarkupContent :=
  match expr with
  | TemplateExpr parts _ =>
      match parts with
      | [part] => hoverContentForExpr part constraints
      | _ => Fail (unsupportedExpression expr)
      end
  | TemplateWrapExpr wrapped _ => hoverContentForExpr wrapped constraints
  | TupleConsExpr _ _ =>
      match listTypeLiteralConstraint constraints with
      | Some t => hoverContentForValueAndType (NullVal t) t
      | None =>
          match setTypeLiteralConstraint constraints with
          | Some t => hoverContentForValueAndType (NullVal t) t
          | None =>
              match tupleTypeLiteralConstraint constraints with
              | Some t => hoverContentForValueAndType (NullVal t) t
              | None => Fail (unsupportedExpression expr)
              end
          end
      end
  | ObjectConsExpr _ _ =>
      match objectTypeLiteralConstraint constraints with
      | Some t => hoverContentForValueAndType (NullVal t) t
      | None =>
          match mapTypeLiteralConstraint constraints with
          | Some t => hoverContentForValueAndType (NullVal t) t
          | None => Fail (unsupportedExpression expr)
          end
      end
  | LiteralValueExpr val _ =>
      match literalExprForType (ValueType val) constraints with
      | None =>
          Fail (PlainError ("no schema for literal type "
                            +:+ quote (FriendlyName (ValueType val))))
      | Some t => hoverContentForValueAndType val t
      end
  | OtherExpr _ _ => Fail (unsupportedExpression expr)
  end.

Definition hoverContentForAttribute (name : string) (schema : AttributeSchema)
  : MarkupContent :=
  let value := "**" +:+ name +:+ "** _" +:+ detailForAttribute schema +:+ "_" in
  mkMarkup MarkdownKind
    (if String.eqb (MarkupValue (AttrDescription schema)) "" then value
     else value +:+ String "010" (String "010" "")
                +:+ MarkupValue (AttrDescription schema)).

Definition hoverContentForBlock (bType : string) (schema : BlockSchema)
  : MarkupContent :=
  let value := "**" +:+ bType +:+ "** _" +:+ detailForBlock schema +:+ "_" in
  mkMarkup MarkdownKind
    (if String.eqb (MarkupValue (BlockDescription schema)) "" then value
     else value +:+ String "010" (String "010" "")
                +:+ MarkupValue (BlockDescription schema)).

Definition nl2 : string := String "010" (String "010" "").

(** [block.Labels[i]] and [bSchema.Labels[i]] panic out of range. *)
Definition hoverContentForLabel (i : nat) (block : Block) (bSchema : BlockSchema)
  : result MarkupContent :=
  match nth_error (Labels block) i, nth_error (SchemaLabels bSchema) i with
  | Some value, Some labelSchema =>
      let plain :=
        let content := quote value in
        let content :=
          if String.eqb (LabelName labelSchema) "" then content
          else content +:+ " (" +:+ LabelName labelSchema +:+ ")" in
        let content := TrimSpace content in
        if String.eqb (MarkupValue (LabelDescription labelSchema)) "" then content
        else content +:+ nl2 +:+ MarkupValue (LabelDescription labelSchema) in
      let dependent :=
        if IsDepKey labelSchema then
          DependentBodySchema bSchema (dependencyKeysFromBlock block bSchema)
        else None in
      match dependent with
      | Some bs =>
          let content := "`" +:+ value +:+ "`" in
          let content :=
            if negb (String.eqb (Detail bs) "") then content +:+ " " +:+ Detail bs
            else if negb (String.eqb (LabelName labelSchema) "")
                 then content +:+ " " +:+ LabelName labelSchema
                 else content in
          let content :=
            if negb (String.eqb (MarkupValue (BodyDescription bs)) "")
            then content +:+ nl2 +:+ MarkupValue (BodyDescription bs)
            else if negb (String.eqb (MarkupValue (LabelDescription labelSchema)) "")
                 then content +:+ nl2 +:+ MarkupValue (LabelDescription labelSchema)
                 else content in
          let content :=
            match DocsLink bs with
            | Some url =>
                match docsURL url "documentHover" with
                | Some (host, full) =>
                    content +:+ nl2 +:+ "[`" +:+ value +:+ "` on " +:+ host
                            +:+ "](" +:+ full +:+ ")"
                | None => content
                end
            | None => content
            end in
          Ret (Markdown content)
      | None => Ret (Markdown plain)
      end
  | _, _ => Panic
  end.

(** The attribute loop of [hoverAtPos]: [Some] when an attribute ends the
    query, [None] when the loop runs out. *)
Fixpoint hoverAttributes (filename : string) (bodySchema : BodySchema) (pos : Pos)
  (attrs : list (string * Attribute)) : option (result (option HoverData)) :=
  match attrs with
  | [] => None
  | (name, attr) :: attrs' =>
      if ContainsPos (AttrSrcRange attr) pos then
        match attrSchemaFor bodySchema (AttrName attr) with
        | None =>
            Some (Fail (PositionalError filename pos
                          ("unknown attribute " +:+ quote (AttrName attr))))
        | Some aSchema =>
            if ContainsPos (NameRange attr) pos then
              Some (Ret (Some (mkHoverData (hoverContentForAttribute name aSchema)
                                           (AttrSrcRange attr))))
            else if ContainsPos (ExprRange (AttrExpr attr)) pos then
              Some match hoverContentForExpr (AttrExpr attr) (Expr aSchema) with
                   | Ret content =>
                       Ret (Some (mkHoverData content (ExprRange (AttrExpr attr))))
                   | Fail (PlainError msg) =>
                       Fail (PositionalError filename pos msg)
                   | Fail e => Fail e
                   | Panic => Panic
                   end
            else hoverAttributes filename bodySchema pos attrs'
        end
      else hoverAttributes filename bodySchema pos attrs'
  end.

(** The label loop of [hoverAtPos] over [block.LabelRanges]. *)
Fixpoint hoverLabels (filename : string) (block : Block) (bSchema : BlockSchema)
  (pos : Pos) (i : nat) (labelRanges : list Range)
  : option (result (option HoverData)) :=
  match labelRanges with
  | [] => None
  | labelRange :: ranges' =>
      if ContainsPos labelRange pos then
        if (length (SchemaLabels bSchema) <? i + 1)%nat then
          Some match nth_error (Labels block) i with
               | Some label =>
                   Fail (PositionalError filename pos
                           ("unexpected label (" +:+ formatInt (Z.of_nat i)
                            +:+ ") " +:+ quote label))
               | None => Panic
               end
        else
          Some (let! content := hoverContentForLabel i block bSchema in
                Ret (Some (mkHoverData content labelRange)))
      else hoverLabels filename block bSchema pos (S i) ranges'
  end.

Fixpoint hoverAtPos (body : Body) (bodySchema : option BodySchema) (pos : Pos)
  {struct body} : result (option HoverData) :=
  match bodySchema with
  | None => Ret None
  | Some schema =>
      let filename := Filename (BodyRange body) in
      match hoverAttributes filename schema pos (Attributes body) with
      | Some r => r
      | None =>
          (fix blocksLoop (blocks : list Block) : result (option HoverData) :=
             match blocks with
             | [] =>
                 Fail (PositionalError filename pos
                   "position outside of any attribute name, value or block")
             | block :: blocks' =>
                 if ContainsPos (BlockRange block) pos then
                   match SchemaBlocks schema !! BlockType block with
                   | None =>
                       Fail (PositionalError filename pos
                               ("unknown block type " +:+ quote (BlockType block)))
                   | Some bSchema =>
                       if ContainsPos (TypeRange block) pos then
                         Ret (Some (mkHoverData
                                      (hoverContentForBlock (BlockType block) bSchema)
                                      (TypeRange block)))
                       else
                         match hoverLabels filename block bSchema pos 0
                                           (LabelRanges block) with
                         | Some r => r
                         | None =>
                             if isPosOutsideBody block pos then
                               Fail (PositionalError filename pos
                                       ("position outside of "
                                        +:+ quote (BlockType block) +:+ " body"))
                             else
                               match BlockBody block with
                               | Some b =>
                                   if ContainsPos (BodyRange b) pos then
                                     let! mergedSchema :=
                                       mergeBlockBodySchemas block bSchema in
                                     hoverAtPos b (Some mergedSchema) pos
                                   else blocksLoop blocks'
                               | None => blocksLoop blocks'
                               end
                         end
                   end
                 else blocksLoop blocks'
             end) (Blocks body)
      end
  end.

Definition HoverAtPos (d : Decoder) (filename : string) (pos : Pos)
  : result (option HoverData) :=
  let! f := fileByName d filename in
  let! rootBody := bodyForFileAndPos filename f pos in
  match rootSchema d with
  | None => Fail NoSchemaError
  | Some schema => hoverAtPos rootBody (Some schema) pos
  end.

End Hover.

(** ** Completion candidates of attribute values (expression_candidates.go) *)

Record TextEdit : Type := mkTextEdit {
  NewText : string;
  Snippet : string;
  EditRange : Range
}.

Inductive CandidateKind : Type := NilCandidateKind | LiteralValueCandidateKind.

Record Candidate : Type := mkCandidate {
  Label : string;
  CandDetail : string;
  CandDescription : MarkupContent;
  CandKind : CandidateKind;
  Edit : TextEdit
}.

Record Candidates : Type := mkCandidates {
  CandList : list Candidate;
  IsComplete : bool
}.

Definition NewCandidates : Candidates := mkCandidates [] false.

(** Modelled from the spec: [lang.ZeroCandidates] is not among the source
    files; it stands for "no candidate": an empty list, complete. *)
Definition ZeroCandidates : Candidates := mkCandidates [] true.

Definition constraintsAtPos (expr : Expression) (constraints : ExprConstraints)
  : ExprConstraints * Range :=
  match expr with
  | LiteralValueExpr val rng =>
      if negb (IsWhollyKnown val) then
        (constraints, mkRange (Filename rng) (Start rng) (Start rng))
      else ([], ExprRange expr)
  | _ => ([], ExprRange expr)
  end.

(** Arithmetic on a Go [uint] of 64 bits. *)
Definition uintAdd (a b : Z) : Z := (a + b) mod 2 ^ 64.

(** The bytes the source file has between the second type and the closing
    brace of the label of an object type with more than two attributes. *)
Definition moreMark : string :=
  String "195" (String "162" (String "226" (String "130" (String "172"
    (String "194" (String "166" ""))))))%string.

Definition LF : string := String "010" "".

Fixpoint snippetForAttrType (placeholder : Z) (attrType : ctyType) {struct attrType}
  : string :=
  match attrType with
  | TString => String "034" ("${" +:+ formatInt placeholder +:+ ":value}" +:+ String "034" "")
  | TBool => "${" +:+ formatInt placeholder +:+ ":false}"
  | TNumber => "${" +:+ formatInt placeholder +:+ ":1}"
  | DynamicPseudoType => "${" +:+ formatInt placeholder +:+ "}"
  | TMap elType =>
      "{" +:+ LF +:+ "  " +:+ String "034" "${1:key}" +:+ String "034" " = "
          +:+ snippetForAttrType (uintAdd placeholder 1) elType +:+ LF +:+ "}"
  | TList elType | TSet elType =>
      "[ " +:+ snippetForAttrType placeholder elType +:+ " ]"
  | TObject attrs =>
      let objSnippet :=
        (fix members (placeholder : Z) (l : list (string * ctyType)) : string :=
           match l with
           | [] => ""
           | (name, valType) :: l' =>
               "  " +:+ name +:+ " = " +:+ snippetForAttrType placeholder valType
                    +:+ LF +:+ members (uintAdd placeholder 1) l'
           end) placeholder attrs in
      "{" +:+ LF +:+ objSnippet +:+ "}"
  | TTuple elTypes =>
      match elTypes with
      | [elType] => "[ " +:+ snippetForAttrType placeholder elType +:+ " ]"
      | _ =>
          let tupleSnippet :=
            (fix members (placeholder : Z) (l : list ctyType) : string :=
               match l with
               | [] => ""
               | elType :: l' =>
                   snippetForAttrType (uintAdd placeholder 1) elType
                   +:+ members (uintAdd placeholder 1) l'
               end) placeholder elTypes in
          "[" +:+ LF +:+ tupleSnippet +:+ "]"
      end
  end.


Fixpoint labelForType (attrType : ctyType) {struct attrType} : string :=
  match attrType with
  | TMap elType =>
      "{ " +:+ String "034" "key" +:+ String "034" " = " +:+ labelForType elType +:+ " }"
  | TList elType | TSet elType => "[ " +:+ labelForType elType +:+ " ]"
  | TTuple elTypes =>
      match elTypes with
      | [] => "[ ]"
      | [e0] => "[ " +:+ labelForType e0 +:+ " ]"
      | [e0; e1] => "[ " +:+ labelForType e0 +:+ " , " +:+ labelForType e1 +:+ " ]"
      | e0 :: e1 :: _ =>
          "[ " +:+ labelForType e0 +:+ " , " +:+ labelForType e1 +:+ ", ... ]"
      end
  | TObject attrs =>
      match attrs with
      | [] => "{ }"
      | [(n0, t0)] => "{ " +:+ n0 +:+ " = " +:+ labelForType t0 +:+ " }"
      | [(n0, t0); (n1, t1)] =>
          "{ " +:+ n0 +:+ " = " +:+ labelForType t0 +:+ ", "
               +:+ n1 +:+ " = " +:+ labelForType t1 +:+ " }"
      | (n0, t0) :: (n1, t1) :: _ =>
          "{ " +:+ n0 +:+ " = " +:+ labelForType t0 +:+ ", "
               +:+ n1 +:+ " = " +:+ labelForType t1 +:+ " " +:+ moreMark +:+ " }"
      end
  | _ => FriendlyName attrType
  end.

Fixpoint newTextForType (attrType : ctyType) {struct attrType} : string :=
  match attrType with
  | TString => String "034" (String "034" "")
  | TBool => "false"
  | TNumber => "1"
  | DynamicPseudoType => ""
  | TMap elType =>
      "{" +:+ LF +:+ "  " +:+ String "034" "key" +:+ String "034" " = "
          +:+ newTextForType elType +:+ LF +:+ "}"
  | TList elType | TSet elType => "[ " +:+ newTextForType elType +:+ " ]"
  | TObject attrs =>
      let objSnippet :=
        (fix members (l : list (string * ctyType)) : string :=
           match l with
           | [] => ""
           | (name, valType) :: l' =>
               "  " +:+ name +:+ " = " +:+ newTextForType valType +:+ LF
                    +:+ members l'
           end) attrs in
      "{" +:+ LF +:+ objSnippet +:+ "}"
  | TTuple elTypes =>
      match elTypes with
      | [elType] => "[ " +:+ newTextForType elType +:+ " ]"
      | _ =>
          let tupleSnippet :=
            (fix members (l : list ctyType) : string :=
               match l with
               | [] => ""
               | elType :: l' => newTextForType elType +:+ members l'
               end) elTypes in
          "[" +:+ LF +:+ tupleSnippet +:+ "]"
      end
  end.

Definition MaxInt64 : Z := 2 ^ 63 - 1.
Definition MinInt64 : Z := - 2 ^ 63.

(** [big.Float.Int64]: the integer part, saturating at the bounds. *)
Definition bigFloatInt64 (n : Z) (d : positive) : Z :=
  Z.max MinInt64 (Z.min MaxInt64 (Z.quot n (Zpos d))).

Section Candidates.

(** [%q] of the Go library and [%f] of the number as a float64. *)
Variable quote : string -> string.
Variable formatFloat64 : Z -> positive -> string.

Fixpoint valuesToCandidates (vals : list Value) (editRng : Range)
  : result (list Candidate) :=
  match vals with
  | [] => Ret []
  | val :: vals' =>
      let! here :=
        match ValueType val with
        | TBool =>
            let! b := True_ val in
            Ret [mkCandidate (formatBool b)
                   (FriendlyName (ValueType val))
                   (PlainText (FriendlyName (ValueType val)))
                   LiteralValueCandidateKind
                   (mkTextEdit (formatBool b)
                               ("${" +:+ formatInt 1 +:+ ":" +:+ formatBool b +:+ "}")
                               editRng)]
        | TString =>
            let! s := AsString val in
            Ret [mkCandidate s
                   (FriendlyName (ValueType val))
                   (PlainText (FriendlyName (ValueType val)))
                   LiteralValueCandidateKind
                   (mkTextEdit (quote s)
                               ("${" +:+ formatInt 1 +:+ ":" +:+ quote s +:+ "}")
                               editRng)]
        | TNumber =>
            match val with
            | NumberVal n d =>
                let numberAsStr :=
                  if (n mod Zpos d =? 0) then formatInt (bigFloatInt64 n d)
                  else formatFloat64 n d in
                Ret [mkCandidate numberAsStr
                       (FriendlyName (ValueType val))
                       (PlainText (FriendlyName (ValueType val)))
                       LiteralValueCandidateKind
                       (mkTextEdit numberAsStr
                                   ("${" +:+ formatInt 1 +:+ ":" +:+ numberAsStr +:+ "}")
                                   editRng)]
            | _ => Panic
            end
        | _ => Ret []
        end in
      let! rest := valuesToCandidates vals' editRng in
      Ret (here ++ rest)
  end.

Definition typeToCandidates (ofType : ctyType) (editRng : Range)
  : result (list Candidate) :=
  if isType TBool ofType then
    valuesToCandidates [ctyFalse; ctyTrue] editRng
  else if IsPrimitiveType ofType then
    Ret []
  else
    Ret [mkCandidate (labelForType ofType)
           (FriendlyName ofType)
           NoMarkup
           LiteralValueCandidateKind
           (mkTextEdit (newTextForType ofType)
                       (snippetForAttrType 1 ofType)
                       editRng)].

Definition constraintToCandidates (constraint : ExprConstraint) (editRng : Range)
  : result (list Candidate) :=
  match constraint with
  | LiteralTypeExpr t => typeToCandidates t editRng
  | NilExprConstraint => Ret []
  end.

Definition expressionCandidatesAtPos (constraints : ExprConstraints)
  (editRng : Range) : result Candidates :=
  let! list :=
    (fix loop (cs : list ExprConstraint) (acc : list Candidate)
       : result (list Candidate) :=
       match cs with
       | [] => Ret acc
       | c :: cs' =>
           let! more := constraintToCandidates c editRng in
           loop cs' (acc ++ more)
       end) constraints (CandList NewCandidates) in
  Ret (mkCandidates list true).

Definition attrValueCandidatesAtPos (attr : Attribute) (schema : AttributeSchema)
  (pos : Pos) : result Candidates :=
  let '(constraints, rng) := constraintsAtPos (AttrExpr attr) (Expr schema) in
  if (0 <? length constraints)%nat then
    expressionCandidatesAtPos constraints rng
  else Ret ZeroCandidates.

End Candidates.

(** ** Sample renderings and documents

    Renderings of [%q], of numbers and of the details, used where a
    property is evaluated on a concrete document. *)

(** The text between double quotes; no digits for a float. *)
Definition sampleQuote (s : string) : string := String "034" (s +:+ String "034" "").
Definition sampleFloat (n : Z) (d : positive) : string := "".

Definition samplePos : Pos := mkPos 1 5 4.
Definition sampleRange : Range := mkRange "test.tf" (mkPos 1 5 4) (mkPos 1 9 8).

(** [attr = ] with nothing typed yet, and [attr = true]. *)
Definition emptyAttr : Attribute :=
  mkAttribute "attr" (LiteralValueExpr DynamicVal sampleRange)
    (mkRange "test.tf" (mkPos 1 1 0) (mkPos 1 9 8))
    (mkRange "test.tf" (mkPos 1 1 0) (mkPos 1 5 4)).
Definition filledAttr : Attribute :=
  mkAttribute "attr" (LiteralValueExpr ctyTrue sampleRange)
    (mkRange "test.tf" (mkPos 1 1 0) (mkPos 1 9 8))
    (mkRange "test.tf" (mkPos 1 1 0) (mkPos 1 5 4)).

Definition schemaOf (t : ctyType) : AttributeSchema :=
  mkAttributeSchema (LiteralTypeOnly t) false NoMarkup.

Definition sampleBigFloat (n : Z) (d : positive) : string := formatInt (Z.quot n (Zpos d)).
Definition sampleAttrDetail (s : AttributeSchema) : string := "".
Definition sampleBlockDetail (s : BlockSchema) : string := "".
Definition sampleDocsURL (url utm : string) : option (string * string) := None.
Definition sampleOutsideBody (b : Block) (p : Pos) : bool := false.

Definition rangeAt (a b : Z) : Range :=
  mkRange "test.tf" (mkPos 1 (a + 1) a) (mkPos 1 (b + 1) b).

Definition posAt (a : Z) : Pos := mkPos 1 (a + 1) a.

(** [resource "aws_instance" "x" "y" {}] on one line. *)
Definition threeLabelBlock : Block :=
  mkBlock "resource" ["aws_instance"; "x"; "y"]
    (Some (mkBody [] [] (rangeAt 33 33)))
    (rangeAt 0 8) [rangeAt 9 23; rangeAt 24 27; rangeAt 28 31]
    (rangeAt 32 33) (rangeAt 33 34).

Definition threeLabelBody : Body := mkBody [] [threeLabelBlock] (rangeAt 0 34).

(** A [resource] block schema with the labels [type], a dependency key,
    and [name]. *)
Definition twoLabelBlockSchema : BlockSchema :=
  mkBlockSchema [mkLabelSchema "type" NoMarkup true; mkLabelSchema "name" NoMarkup false]
    None ∅ false NoMarkup.

Definition twoLabelSchema : BodySchema :=
  mkBodySchema ∅ {[ "resource" := twoLabelBlockSchema ]} None "" NoMarkup None.

Definition emptyBody : Body := mkBody [] [] (rangeAt 0 0).

(** A decoder with one loaded file and no schema installed. *)
Definition decoderWithoutSchema : Decoder :=
  mkDecoder {[ "test.tf" := SyntaxBody emptyBody ]} None.

(** [resource "aws_instance" "beta" {], [instance_type = "t2.micro"], [}]
    on three lines, as in the test of dependent schemas. *)
Definition awsAttr : Attribute :=
  mkAttribute "instance_type"
    (TemplateExpr [LiteralValueExpr (StringVal "t2.micro") (rangeAt 52 60)]
                  (rangeAt 51 61))
    (rangeAt 35 61) (rangeAt 35 48).

Definition awsBody : Body := mkBody [("instance_type", awsAttr)] [] (rangeAt 32 62).

Definition awsBlock : Block :=
  mkBlock "resource" ["aws_instance"; "beta"] (Some awsBody)
    (rangeAt 0 8) [rangeAt 9 23; rangeAt 24 30] (rangeAt 31 32) (rangeAt 62 63).

Definition awsDoc : Body := mkBody [] [awsBlock] (rangeAt 0 64).

Definition instanceSchema : BodySchema :=
  mkBodySchema {[ "instance_type" := schemaOf TString ]} ∅ None "" NoMarkup None.

Definition awsKey : SchemaKey :=
  NewSchemaKey (mkDependencyKeys [mkLabelDependent 0 "aws_instance"]).

(** The [resource] schema of the test: no body schema of its own, a
    dependent body schema for [aws_instance]. *)
Definition awsBlockSchema : BlockSchema :=
  mkBlockSchema [mkLabelSchema "type" NoMarkup true; mkLabelSchema "name" NoMarkup false]
    None {[ awsKey := instanceSchema ]} false NoMarkup.

Definition awsSchema : BodySchema :=
  mkBodySchema ∅ {[ "resource" := awsBlockSchema ]} None "" NoMarkup None.

(** The same, with [instance_type] also declared by the body schema of the
    block itself. *)
Definition overlapBlockSchema : BlockSchema :=
  mkBlockSchema [mkLabelSchema "type" NoMarkup true; mkLabelSchema "name" NoMarkup false]
    (Some instanceSchema) {[ awsKey := instanceSchema ]} false NoMarkup.

Definition overlapSchema : BodySchema :=
  mkBodySchema ∅ {[ "resource" := overlapBlockSchema ]} None "" NoMarkup None.

Definition awsDecoder (schema : BodySchema) : Decoder :=
  mkDecoder {[ "test.tf" := SyntaxBody awsDoc ]} (Some schema).

(** ** Reading an expression back

    The reader of expressions is HCL's own (package hclsyntax), outside
    this repository. It is modelled here for the literal syntax that
    [newTextForType] writes: quoted strings without escapes or
    interpolation, decimal integers, identifiers, tuples in brackets with
    comma separated items, and objects in braces whose items are
    [key = value], separated by a comma or a line feed. A line feed is
    skipped inside brackets and separates items inside braces. Every
    other syntax, [for] expressions among it, is refused. Source ranges
    are not tracked: every node carries [noRange]. *)

Module Reader.

Inductive token : Type :=
| TokOBrack | TokCBrack | TokOBrace | TokCBrace
| TokComma | TokEqual | TokNewline
| TokIdent (name : string)
| TokNumberLit (n : Z)
| TokQuoted (text : string)
| TokInvalid.

Inductive lexState : Type :=
| Idle
| InIdent (acc : string)
| InNumber (acc : Z)
| InQuoted (acc : string).

Definition isLetter (c : ascii) : bool :=
  let n := nat_of_ascii c in
  (((65 <=? n) && (n <=? 90)) || ((97 <=? n) && (n <=? 122)))%nat.

Definition isDigit (c : ascii) : bool :=
  let n := nat_of_ascii c in ((48 <=? n) && (n <=? 57))%nat.

Definition digitValue (c : ascii) : Z := Z.of_nat (nat_of_ascii c) - 48.

(** A character that continues an identifier: a letter, a digit, [_]
    or [-]. *)
Definition isIdentChar (c : ascii) : bool :=
  isLetter c || isDigit c || Ascii.eqb c "_" || Ascii.eqb c "-".

Definition snoc (s : string) (c : ascii) : string := s +:+ String c "".

(** One character read with nothing pending. *)
Definition stepIdle (c : ascii) : list token * lexState :=
  if Ascii.eqb c " " || Ascii.eqb c "009" then ([], Idle)
  else if Ascii.eqb c "010" then ([TokNewline], Idle)
  else if Ascii.eqb c "[" then ([TokOBrack], Idle)
  else if Ascii.eqb c "]" then ([TokCBrack], Idle)
  else if Ascii.eqb c "{" then ([TokOBrace], Idle)
  else if Ascii.eqb c "}" then ([TokCBrace], Idle)
  else if Ascii.eqb c "," then ([TokComma], Idle)
  else if Ascii.eqb c "=" then ([TokEqual], Idle)
  else if Ascii.eqb c "034" then ([], InQuoted "")
  else if isLetter c then ([], InIdent (String c ""))
  else if isDigit c then ([], InNumber (digitValue c))
  else ([TokInvalid], Idle).

Definition step (st : lexState) (c : ascii) : list token * lexState :=
  match st with
  | Idle => stepIdle c
  | InIdent acc =>
      if isIdentChar c then ([], InIdent (snoc acc c))
      else let '(toks, st') := stepIdle c in (TokIdent acc :: toks, st')
  | InNumber n =>
      if isDigit c then ([], InNumber (10 * n + digitValue c))
      else if isLetter c || Ascii.eqb c "." || Ascii.eqb c "_" then ([TokInvalid], Idle)
      else let '(toks, st') := stepIdle c in (TokNumberLit n :: toks, st')
  | InQuoted acc =>
      if Ascii.eqb c "034" then ([TokQuoted acc], Idle)
      else if Ascii.eqb c "010" || Ascii.eqb c "092" || Ascii.eqb c "$"
              || Ascii.eqb c "%"
           then ([TokInvalid], Idle)
           else ([], InQuoted (snoc acc c))
  end.

Definition prepend (l : list token) (r : list token * lexState)
  : list token * lexState :=
  (l ++ fst r, snd r).

Fixpoint lexRun (st : lexState) (s : string) : list token * lexState :=
  match s with
  | EmptyString => ([], st)
  | String c s' => let '(toks, st') := step st c in prepend toks (lexRun st' s')
  end.

Definition flush (st : lexState) : list token :=
  match st with
  | Idle => []
  | InIdent acc => [TokIdent acc]
  | InNumber n => [TokNumberLit n]
  | InQuoted _ => [TokInvalid]
  end.

Definition lex (s : string) : list token :=
  let '(toks, st) := lexRun Idle s in toks ++ flush st.

Definition noRange : Range := mkRange "" (mkPos 0 0 0) (mkPos 0 0 0).

Definition quotedExpr (text : string) : Expression :=
  TemplateExpr [LiteralValueExpr (StringVal text) noRange] noRange.

Definition identExpr (name : string) : Expression :=
  if String.eqb name "true" then LiteralValueExpr ctyTrue noRange
  else if String.eqb name "false" then LiteralValueExpr ctyFalse noRange
  else if String.eqb name "null" then LiteralValueExpr (NullVal DynamicPseudoType) noRange
  else OtherExpr "*hclsyntax.ScopeTraversalExpr" noRange.

Definition numberExpr (n : Z) : Expression :=
  LiteralValueExpr (NumberVal n 1) noRange.

Definition keyOf (name : string) : ObjectConsKey := mkKey (StringVal name) noRange.

Inductive tupleState : Type := ItemDue | CommaDue.

Inductive objectState : Type :=
| KeyDue
| EqualDue (key : ObjectConsKey)
| ValueDue (key : ObjectConsKey)
| SeparatorDue.

(** What is open while reading: the expression as a whole, a tuple with
    the items read so far, or an object with its items. *)
Inductive frame : Type :=
| FTop (done : option Expression)
| FTuple (items : list Expression) (st : tupleState)
| FObject (items : list (ObjectConsKey * Expression)) (st : objectState).

(** A finished expression goes to the frame that waits for it. *)
Definition deliver (e : Expression) (f : frame) : option frame :=
  match f with
  | FTop None => Some (FTop (Some e))
  | FTuple items ItemDue => Some (FTuple (items ++ [e]) CommaDue)
  | FObject items (ValueDue key) => Some (FObject (items ++ [(key, e)]) SeparatorDue)
  | _ => None
  end.

Definition scalar (tok : token) : option Expression :=
  match tok with
  | TokIdent name => Some (identExpr name)
  | TokNumberLit n => Some (numberExpr n)
  | TokQuoted text => Some (quotedExpr text)
  | _ => None
  end.

Definition keyName (tok : token) : option string :=
  match tok with
  | TokIdent name | TokQuoted name => Some name
  | _ => None
  end.

(** After an opening bracket or brace, line feeds aside, the keyword
    [for] starts a [for] expression, which is not of the literal syntax. *)
Fixpoint startsFor (toks : list token) : bool :=
  match toks with
  | TokNewline :: toks' => startsFor toks'
  | TokIdent name :: _ => String.eqb name "for"
  | _ => false
  end.

Fixpoint run (stack : list frame) (toks : list token) {struct toks}
  : option Expression :=
  match toks with
  | [] => match stack with
          | [FTop (Some e)] => Some e
          | _ => None
          end
  | tok :: toks' =>
      match stack with
      | [] => None
      | f :: below =>
          match tok with
          | TokInvalid => None
          | TokNewline =>
              match f with
              | FObject items SeparatorDue => run (FObject items KeyDue :: below) toks'
              | FObject items KeyDue => run stack toks'
              | FObject _ _ => None
              | FTuple _ _ => run stack toks'
              | FTop _ => run stack toks'
              end
          | TokComma =>
              match f with
              | FTuple items CommaDue => run (FTuple items ItemDue :: below) toks'
              | FObject items SeparatorDue => run (FObject items KeyDue :: below) toks'
              | _ => None
              end
          | TokEqual =>
              match f with
              | FObject items (EqualDue key) =>
                  run (FObject items (ValueDue key) :: below) toks'
              | _ => None
              end
          | TokOBrack =>
              if startsFor toks' then None
              else run (FTuple [] ItemDue :: stack) toks'
          | TokOBrace =>
              if startsFor toks' then None
              else run (FObject [] KeyDue :: stack) toks'
          | TokCBrack =>
              match f, below with
              | FTuple items _, g :: below' =>
                  match deliver (TupleConsExpr items noRange) g with
                  | Some g' => run (g' :: below') toks'
                  | None => None
                  end
              | _, _ => None
              end
          | TokCBrace =>
              match f, below with
              | FObject items KeyDue, g :: below'
              | FObject items SeparatorDue, g :: below' =>
                  match deliver (ObjectConsExpr items noRange) g with
                  | Some g' => run (g' :: below') toks'
                  | None => None
                  end
              | _, _ => None
              end
          | TokIdent _ | TokNumberLit _ | TokQuoted _ =>
              match f with
              | FObject items KeyDue =>
                  match keyName tok with
                  | Some name => run (FObject items (EqualDue (keyOf name)) :: below) toks'
                  | None => None
                  end
              | _ =>
                  match scalar tok with
                  | Some e =>
                      match deliver e f with
                      | Some f' => run (f' :: below) toks'
                      | None => None
                      end
                  | None => None
                  end
              end
          end
      end
  end.

Definition ParseExpression (text : string) : option Expression :=
  run [FTop None] (lex text).

(** *** The skeletons that read back *)

Fixpoint allChars (p : ascii -> bool) (s : string) : bool :=
  match s with
  | EmptyString => true
  | String c s' => p c && allChars p s'
  end.

(** An identifier: a letter, then letters, digits, [_] and [-]; the
    keyword [for] aside. *)
Definition isIdent (s : string) : bool :=
  negb (String.eqb s "for")
  && match s with
     | EmptyString => false
     | String c s' => isLetter c && allChars isIdentChar s'
     end.

Definition isDynamic (t : ctyType) : bool :=
  match t with DynamicPseudoType => true | _ => false end.

(** The types whose text leaves no value empty and sets no two members
    side by side: the dynamic pseudo-type is at most the element of a
    list or set or the only member of a tuple, no tuple has two members
    or more, and the attribute names of objects are identifiers other
    than [for]. *)
Fixpoint valued (t : ctyType) {struct t} : bool :=
  match t with
  | TString | TNumber | TBool => true
  | DynamicPseudoType => false
  | TList e | TSet e => isDynamic e || valued e
  | TMap e => valued e
  | TTuple [] => true
  | TTuple [e] => isDynamic e || valued e
  | TTuple _ => false
  | TObject attrs =>
      (fix all (l : list (string * ctyType)) : bool :=
         match l with
         | [] => true
         | (name, valType) :: l' => isIdent name && valued valType && all l'
         end) attrs
  end.

(** The expression the text of a type stands for: none for the dynamic
    pseudo-type, whose text is empty, one for every other type. *)
Fixpoint skeleton (t : ctyType) {struct t} : list Expression :=
  match t with
  | TString => [quotedExpr ""]
  | TNumber => [numberExpr 1]
  | TBool => [LiteralValueExpr ctyFalse noRange]
  | DynamicPseudoType => []
  | TList e | TSet e => [TupleConsExpr (skeleton e) noRange]
  | TTuple elems =>
      [TupleConsExpr
         ((fix members (l : list ctyType) : list Expression :=
             match l with
             | [] => []
             | e :: l' => skeleton e ++ members l'
             end) elems) noRange]
  | TMap e =>
      [ObjectConsExpr (map (fun v => (keyOf "key", v)) (skeleton e)) noRange]
  | TObject attrs =>
      [ObjectConsExpr
         ((fix members (l : list (string * ctyType))
             : list (ObjectConsKey * Expression) :=
             match l with
             | [] => []
             | (name, valType) :: l' =>
                 map (fun v => (keyOf name, v)) (skeleton valType) ++ members l'
             end) attrs) noRange]
  end.

(** The state of the reader of characters at the end of the text of a
    type, and the tokens of the text once what is pending is flushed. *)
Definition endState (t : ctyType) : lexState :=
  match t with
  | TNumber => InNumber 1
  | TBool => InIdent "false"
  | _ => Idle
  end.

Fixpoint tokensOf (t : ctyType) {struct t} : list token :=
  match t with
  | TString => [TokQuoted ""]
  | TNumber => [TokNumberLit 1]
  | TBool => [TokIdent "false"]
  | DynamicPseudoType => []
  | TList e | TSet e => TokOBrack :: tokensOf e ++ [TokCBrack]
  | TTuple [e] => TokOBrack :: tokensOf e ++ [TokCBrack]
  | TTuple elems =>
      TokOBrack :: TokNewline
      :: (fix members (l : list ctyType) : list token :=
            match l with
            | [] => []
            | e :: l' => tokensOf e ++ members l'
            end) elems
      ++ [TokCBrack]
  | TMap e =>
      TokOBrace :: TokNewline :: TokQuoted "key" :: TokEqual
      :: tokensOf e ++ [TokNewline; TokCBrace]
  | TObject attrs =>
      TokOBrace :: TokNewline
      :: (fix members (l : list (string * ctyType)) : list token :=
            match l with
            | [] => []
            | (name, valType) :: l' =>
                TokIdent name :: TokEqual :: tokensOf valType
                ++ TokNewline :: members l'
            end) attrs
      ++ [TokCBrace]
  end.

(** *** What reading a text back is stated with *)

(** The tokens of the text that are out before its last character is
    settled. *)
Definition pre (t : ctyType) : list token :=
  match t with
  | TNumber | TBool => []
  | _ => tokensOf t
  end.

(** The types whose text the reader takes: those of [valued], and the
    dynamic pseudo-type with its empty text. *)
Definition readable (t : ctyType) : bool := isDynamic t || valued t.

(** The members of the text of an object type, and their tokens. *)
Fixpoint objectMembersText (l : list (string * ctyType)) : string :=
  match l with
  | [] => ""
  | (name, valType) :: l' =>
      "  " +:+ name +:+ " = " +:+ newTextForType valType +:+ LF
           +:+ objectMembersText l'
  end.

Fixpoint objectMemberTokens (l : list (string * ctyType)) : list token :=
  match l with
  | [] => []
  | (name, valType) :: l' =>
      TokIdent name :: TokEqual :: tokensOf valType
      ++ TokNewline :: objectMemberTokens l'
  end.

(** A frame in which a value is due. *)
Definition valueDue (f : frame) : Prop :=
  match f with
  | FTop None | FTuple _ ItemDue | FObject _ (ValueDue _) => True
  | _ => False
  end.

(** The frame once it has received the expression of a text, if any. *)
Definition receive (es : list Expression) (f : frame) : frame :=
  match es with
  | [e] => match deliver e f with Some f' => f' | None => f end
  | _ => f
  end.

Fixpoint objectMembers (l : list (string * ctyType))
  : list (ObjectConsKey * Expression) :=
  match l with
  | [] => []
  | (name, valType) :: l' =>
      map (fun v => (keyOf name, v)) (skeleton valType) ++ objectMembers l'
  end.

(** A list, set, tuple, map or object type. *)
Definition isCompound (t : ctyType) : bool :=
  IsListType t || IsSetType t || IsTupleType t || IsMapType t || IsObjectType t.

End Reader.

(** ** The properties in the words of the specification

    What the specification says of the engine, of the candidates and of
    the tokens, as definitions the theorems compare the code with. *)

Module Engine.

(** What the engine decides for an expression under its constraints. *)
Inductive Selection : Type :=
| Matched (t : ctyType)
| Unsupported
| IncompatibleLiteral (valType : ctyType).

(** The first declared literal type of a kind: the first type, in the
    order of the constraints, that satisfies [isKind]. *)
Definition firstOfKind (isKind : ctyType -> bool) (cs : ExprConstraints)
  : option ctyType :=
  List.find isKind (LiteralValueTypes cs).

(** The selection in the words of the specification: a one-part template
    and a template wrapper stand for their inner expression; a sequence
    construction takes the first list type, else the first set type, else
    the first tuple type; a keyed construction the first object type,
    else the first map type; a literal the first declared type that
    equals the type of its value. *)
Fixpoint select (e : Expression) (cs : ExprConstraints) {struct e} : Selection :=
  match e with
  | TemplateExpr [part] _ => select part cs
  | TemplateExpr _ _ => Unsupported
  | TemplateWrapExpr wrapped _ => select wrapped cs
  | TupleConsExpr _ _ =>
      match firstOfKind IsListType cs, firstOfKind IsSetType cs,
            firstOfKind IsTupleType cs with
      | Some t, _, _ => Matched t
      | None, Some t, _ => Matched t
      | None, None, Some t => Matched t
      | None, None, None => Unsupported
      end
  | ObjectConsExpr _ _ =>
      match firstOfKind IsObjectType cs, firstOfKind IsMapType cs with
      | Some t, _ => Matched t
      | None, Some t => Matched t
      | None, None => Unsupported
      end
  | LiteralValueExpr val _ =>
      match firstOfKind (fun t => Equals t (ValueType val)) cs with
      | Some t => Matched t
      | None => IncompatibleLiteral (ValueType val)
      end
  | OtherExpr _ _ => Unsupported
  end.

(** The expression the engine ends up looking at. *)
Fixpoint unwrap (e : Expression) : Expression :=
  match e with
  | TemplateExpr [part] _ => unwrap part
  | TemplateWrapExpr wrapped _ => unwrap wrapped
  | _ => e
  end.

(** The value the hover text is rendered from. *)
Definition hoverValue (e : Expression) (t : ctyType) : Value :=
  match e with
  | LiteralValueExpr val _ => val
  | _ => NullVal t
  end.

End Engine.

Module Completion.

(** An edit placeholder: a literal whose value is not wholly known. *)
Definition isPlaceholder (e : Expression) : bool :=
  match e with
  | LiteralValueExpr val _ => negb (IsWhollyKnown val)
  | _ => false
  end.

(** The range collapsed onto its start. *)
Definition collapsed (r : Range) : Range :=
  mkRange (Filename r) (Start r) (Start r).

Definition boolCandidate (b : bool) (editRng : Range) : Candidate :=
  mkCandidate (formatBool b) "bool" (PlainText "bool") LiteralValueCandidateKind
    (mkTextEdit (formatBool b) ("${1:" +:+ formatBool b +:+ "}") editRng).

(** A text without a line feed. *)
Fixpoint singleLine (s : string) : bool :=
  match s with
  | EmptyString => true
  | String c s' => negb (Ascii.eqb c "010") && singleLine s'
  end.

End Completion.

Module Tokens.

(** An outcome that is not an error: a value or a panic. *)
Definition noFail {A} (r : result A) : Prop :=
  match r with Fail _ => False | _ => True end.

(** The tokens one block adds in a pass, and those of a list of blocks:
    the block loop of [tokensForBody]. *)
Definition blockTokens (schema : BodySchema) (isDependent : bool) (block : Block)
  : result (list SemanticToken) :=
  match SchemaBlocks schema !! BlockType block with
  | None => Ret []
  | Some blockSchema =>
      let! own :=
        match BlockBody block with
        | Some b => tokensForBody b (SchemaBody blockSchema) false
        | None => Ret []
        end in
      let! dep :=
        match DependentBodySchema blockSchema
                (dependencyKeysFromBlock block blockSchema) with
        | Some depSchema =>
            match BlockBody block with
            | Some b => tokensForBody b (Some depSchema) true
            | None => Panic
            end
        | None => Ret []
        end in
      Ret (blockHeadTokens block blockSchema isDependent ++ own ++ dep)
  end.

Fixpoint blocksTokens (schema : BodySchema) (isDependent : bool)
  (blocks : list Block) : result (list SemanticToken) :=
  match blocks with
  | [] => Ret []
  | block :: blocks' =>
      let! here := blockTokens schema isDependent block in
      let! rest := blocksTokens schema isDependent blocks' in
      Ret (here ++ rest)
  end.

(** A token of a value: of none of the three name types, and without
    modifier. *)
Definition isNameType (ty : SemanticTokenType) : bool :=
  match ty with
  | TokenAttrName | TokenBlockType | TokenBlockLabel => true
  | _ => false
  end.

Definition valueToken (t : SemanticToken) : Prop :=
  isNameType (TokType t) = false /\ Modifiers t = [].

(** An outcome of expression tokens: no error, and value tokens only. *)
Definition valueTokens (r : result (list SemanticToken)) : Prop :=
  match r with
  | Ret toks => Forall valueToken toks
  | Fail _ => False
  | Panic => True
  end.

Definition byStart (a b : SemanticToken) : Prop := StartByte a <= StartByte b.
Definition lessStart (a b : SemanticToken) : bool := StartByte a <? StartByte b.

(** The type and range of the tokens of the three name types. *)
Definition nameTokens (toks : list SemanticToken)
  : list (SemanticTokenType * Range) :=
  map (fun t => (TokType t, TokRange t))
      (List.filter (fun t => isNameType (TokType t)) toks).

Definition recognizedAttr (schema : BodySchema) (p : string * Attribute) : bool :=
  match attrSchemaFor schema (fst p) with Some _ => true | None => false end.

(** One attribute-name token for every attribute the schema of the pass
    recognizes; one block-type token for every block it recognizes, with
    one label token for every label whose index is within the label
    schemas; then the same for the body of the block in a pass under the
    body schema of the block, and again in a pass under its dependent
    body schema when one is found. *)
Fixpoint expectedNames (body : Body) (bodySchema : option BodySchema) {struct body}
  : list (SemanticTokenType * Range) :=
  match bodySchema with
  | None => []
  | Some schema =>
      map (fun p => (TokenAttrName, NameRange (snd p)))
          (List.filter (recognizedAttr schema) (Attributes body))
      ++ (fix blocksLoop (blocks : list Block) : list (SemanticTokenType * Range) :=
            match blocks with
            | [] => []
            | block :: blocks' =>
                match SchemaBlocks schema !! BlockType block with
                | None => blocksLoop blocks'
                | Some blockSchema =>
                    ((TokenBlockType, TypeRange block)
                     :: map (fun r => (TokenBlockLabel, r))
                            (firstn (length (SchemaLabels blockSchema))
                                    (LabelRanges block)))
                    ++ match BlockBody block with
                       | Some b => expectedNames b (SchemaBody blockSchema)
                       | None => []
                       end
                    ++ match DependentBodySchema blockSchema
                               (dependencyKeysFromBlock block blockSchema),
                             BlockBody block with
                       | Some depSchema, Some b => expectedNames b (Some depSchema)
                       | _, _ => []
                       end
                    ++ blocksLoop blocks'
                end
            end) (Blocks body)
  end.

(** Whatever a pass gives, a token of a value carries no modifier. *)
Definition plainValue (t : SemanticToken) : Prop :=
  isNameType (TokType t) = false -> Modifiers t = [].

(** The number of attributes of a document, at every depth. *)
Fixpoint countAttributes (body : Body) : nat :=
  (length (Attributes body)
   + (fix blocksLoop (blocks : list Block) : nat :=
        match blocks with
        | [] => 0
        | block :: blocks' =>
            match BlockBody block with
            | Some b => countAttributes b
            | None => 0
            end + blocksLoop blocks'
        end) (Blocks body))%nat.

Definition isAttrName (t : SemanticToken) : bool :=
  match TokType t with TokenAttrName => true | _ => false end.

(** A key whose value [AsString] takes: a wholly known value of type
    string is a string. *)
Definition soundKey (k : ObjectConsKey) : bool :=
  match KeyValue k with
  | NullVal TString | CompoundVal TString _ => false
  | _ => true
  end.

(** An expression without tuple construction whose object keys are
    sound, and a body of such attribute values whose blocks all have a
    body: on these no accessor panics. *)
Fixpoint steady (e : Expression) {struct e} : bool :=
  match e with
  | LiteralValueExpr _ _ | OtherExpr _ _ => true
  | TemplateExpr parts _ =>
      (fix all (l : list Expression) : bool :=
         match l with
         | [] => true
         | x :: l' => steady x && all l'
         end) parts
  | TemplateWrapExpr w _ => steady w
  | TupleConsExpr _ _ => false
  | ObjectConsExpr items _ =>
      (fix all (l : list (ObjectConsKey * Expression)) : bool :=
         match l with
         | [] => true
         | (k, v) :: l' => soundKey k && steady v && all l'
         end) items
  end.

Fixpoint steadyBody (body : Body) {struct body} : bool :=
  forallb (fun p => steady (AttrExpr (snd p))) (Attributes body)
  && (fix all (blocks : list Block) : bool :=
        match blocks with
        | [] => true
        | block :: blocks' =>
            match BlockBody block with
            | Some b => steadyBody b
            | None => false
            end && all blocks'
        end) (Blocks body).

End Tokens.

(** ** The block loop of hover

    What one block of the loop of [hoverAtPos] does to the query, [None]
    when the loop goes on to the next block, and the loop itself. *)

Module Hovering.

Section Loop.

Variable quote : string -> string.
Variable bigFloatString : Z -> positive -> string.
Variable detailForAttribute : AttributeSchema -> string.
Variable detailForBlock : BlockSchema -> string.
Variable docsURL : string -> string -> option (string * string).
Variable isPosOutsideBody : Block -> Pos -> bool.

Definition hoverBlock (filename : string) (schema : BodySchema) (pos : Pos)
  (block : Block) : option (result (option HoverData)) :=
  if ContainsPos (BlockRange block) pos then
    match SchemaBlocks schema !! BlockType block with
    | None =>
        Some (Fail (PositionalError filename pos
                      ("unknown block type " +:+ quote (BlockType block))))
    | Some bSchema =>
        if ContainsPos (TypeRange block) pos then
          Some (Ret (Some (mkHoverData
                             (hoverContentForBlock detailForBlock (BlockType block) bSchema)
                             (TypeRange block))))
        else
          match hoverLabels quote docsURL filename block bSchema pos 0
                            (LabelRanges block) with
          | Some r => Some r
          | None =>
              if isPosOutsideBody block pos then
                Some (Fail (PositionalError filename pos
                              ("position outside of "
                               +:+ quote (BlockType block) +:+ " body")))
              else
                match BlockBody block with
                | Some b =>
                    if ContainsPos (BodyRange b) pos then
                      Some (let! mergedSchema := mergeBlockBodySchemas block bSchema in
                            hoverAtPos quote bigFloatString detailForAttribute
                              detailForBlock docsURL isPosOutsideBody
                              b (Some mergedSchema) pos)
                    else None
                | None => None
                end
          end
    end
  else None.

Fixpoint hoverBlocks (filename : string) (schema : BodySchema) (pos : Pos)
  (blocks : list Block) : result (option HoverData) :=
  match blocks with
  | [] =>
      Fail (PositionalError filename pos
              "position outside of any attribute name, value or block")
  | block :: blocks' =>
      match hoverBlock filename schema pos block with
      | Some r => r
      | None => hoverBlocks filename schema pos blocks'
      end
  end.

(** The text of a known value of a primitive type, as hover prints it. *)
Definition literalText (val : Value) : option string :=
  match val with
  | StringVal s => Some s
  | BoolVal b => Some (formatBool b)
  | NumberVal n d => Some (bigFloatString n d)
  | _ => None
  end.

(** An attribute the attribute loop passes by: the position is outside
    of it, or inside of it but neither in its name nor in its value, its
    name being one the schema knows. *)
Definition attributePassed (schema : BodySchema) (pos : Pos)
  (p : string * Attribute) : Prop :=
  ContainsPos (AttrSrcRange (snd p)) pos = false
  \/ (attrSchemaFor schema (AttrName (snd p)) <> None
      /\ ContainsPos (NameRange (snd p)) pos = false
      /\ ContainsPos (ExprRange (AttrExpr (snd p))) pos = false).

End Loop.

(** An outcome of hover that answers for the position asked: whatever
    hover data it holds is over a range that holds the position. *)
Definition answersAt (pos : Pos) (r : result (option HoverData)) : Prop :=
  match r with
  | Ret (Some h) => ContainsPos (HoverRange h) pos = true
  | _ => True
  end.

End Hovering.

(** ** Members of typed constructions *)

Module Values.

(** The tokens of a member that is typed with a primitive type: those of
    a literal, and none for any other expression. *)
Definition literalTokens (t : ctyType) (e : Expression) : list SemanticToken :=
  match e with
  | LiteralValueExpr _ rng => tokensForLiteralValueExpr rng t
  | _ => []
  end.

(** A key the loop over the items of an object passes by: a value that
    is not a wholly known string, or a name the object type has not. *)
Definition skippedKey (attrTypes : list (string * ctyType)) (key : ObjectConsKey)
  : bool :=
  match KeyValue key with
  | StringVal s =>
      match lookupAttrType attrTypes s with
      | None => true
      | Some _ => false
      end
  | v => negb (IsWhollyKnown v && Equals (ValueType v) TString)
  end.

(** A known value of a primitive type. *)
Definition knownPrimitive (val : Value) : bool :=
  match val with
  | StringVal _ | BoolVal _ | NumberVal _ _ => true
  | _ => false
  end.

(** The number of candidates a literal type stands for: both booleans
    for the bool type, none for another primitive type, one for every
    other type. *)
Definition candidateCount (t : ctyType) : nat :=
  if isType TBool t then 2 else if IsPrimitiveType t then 0 else 1.


(** A type whose attribute names, at every depth, hold no line feed. *)
Fixpoint plainNames (t : ctyType) : bool :=
  match t with
  | TList e | TSet e | TMap e => plainNames e
  | TTuple es => forallb plainNames es
  | TObject attrs =>
      forallb (fun p => Completion.singleLine (fst p) && plainNames (snd p)) attrs
  | _ => true
  end.

End Values.

(** [attr = true] on one line, with the attribute [attr] declared a bool
    or not declared at all. *)
Definition filledBody : Body :=
  mkBody [("attr", filledAttr)] [] (mkRange "test.tf" (mkPos 1 1 0) (mkPos 1 9 8)).

Definition boolSchema : BodySchema :=
  mkBodySchema {[ "attr" := schemaOf TBool ]} ∅ None "" NoMarkup None.

Definition emptySchema : BodySchema := mkBodySchema ∅ ∅ None "" NoMarkup None.

(** [pair = [1, 2]] on one line, with the attribute [pair] declared a
    tuple of one number. *)
Definition pairAttr : Attribute :=
  mkAttribute "pair"
    (TupleConsExpr [LiteralValueExpr (NumberVal 1 1) (rangeAt 8 9);
                    LiteralValueExpr (NumberVal 2 1) (rangeAt 11 12)] (rangeAt 7 13))
    (rangeAt 0 13) (rangeAt 0 4).

Definition pairBody : Body := mkBody [("pair", pairAttr)] [] (rangeAt 0 13).

Definition pairSchema : BodySchema :=
  mkBodySchema {[ "pair" := schemaOf (TTuple [TNumber]) ]} ∅ None "" NoMarkup None.

Definition pairDecoder : Decoder :=
  mkDecoder {[ "test.tf" := SyntaxBody pairBody ]} (Some pairSchema).

(** * Properties *)

(** ** Induction on types *)

Lemma ctyType_nested_ind (P : ctyType -> Prop) :
  P TString -> P TNumber -> P TBool -> P DynamicPseudoType ->
  (forall e, P e -> P (TList e)) ->
  (forall e, P e -> P (TSet e)) ->
  (forall e, P e -> P (TMap e)) ->
  (forall es, Forall P es -> P (TTuple es)) ->
  (forall attrs, Forall (fun p => P (snd p)) attrs -> P (TObject attrs)) ->
  forall t, P t.
Proof.
  intros HString HNumber HBool HDynamic HList HSet HMap HTuple HObject.
  fix IH 1. intros [| | | |e|e|e|es|attrs].
  - exact HString.
  - exact HNumber.
  - exact HBool.
  - exact HDynamic.
  - apply HList, IH.
  - apply HSet, IH.
  - apply HMap, IH.
  - apply HTuple. revert es. fix IHes 1.
    intros [|x es]; constructor; [apply IH|apply IHes].
  - apply HObject. revert attrs. fix IHattrs 1.
    intros [|x attrs]; constructor; [apply IH|apply IHattrs].
Qed.

Lemma Equals_true_iff (a b : ctyType) : Equals a b = true <-> a = b.
Proof.
  revert b. induction a using ctyType_nested_ind; intros b;
    try (destruct b; simpl; split; intros E; congruence || discriminate).
  - destruct b; simpl; try (split; intros E; discriminate).
    rewrite IHa. split; congruence.
  - destruct b; simpl; try (split; intros E; discriminate).
    rewrite IHa. split; congruence.
  - destruct b; simpl; try (split; intros E; discriminate).
    rewrite IHa. split; congruence.
  - destruct b as [| | | | | | |ys|]; simpl; try (split; intros E; discriminate).
    revert ys. induction H as [|x xs Hx Hxs IH]; intros [|y ys]; simpl;
      try (split; intros E; congruence || discriminate).
    rewrite andb_true_iff, Hx, IH. split.
    + intros [-> E]. congruence.
    + intros E. injection E as -> ->. auto.
  - destruct b as [| | | | | | | |ys]; simpl; try (split; intros E; discriminate).
    revert ys. induction H as [|[n x] xs Hx Hxs IH]; intros [|[m y] ys]; simpl;
      try (split; intros E; congruence || discriminate).
    simpl in Hx.
    rewrite !andb_true_iff, Hx, IH, String.eqb_eq. split.
    + intros [[-> ->] E]. congruence.
    + intros E. injection E as -> -> ->. auto.
Qed.

(** ** Expression constraint engine: the selection *)

Module EngineProps.

Import Engine.

Lemma listType_firstOfKind cs :
  listTypeLiteralConstraint cs = firstOfKind IsListType cs.
Proof.
  unfold firstOfKind. induction cs as [|[t|] cs IH]; simpl; auto.
  destruct (IsListType t); auto.
Qed.

Lemma setType_firstOfKind cs :
  setTypeLiteralConstraint cs = firstOfKind IsSetType cs.
Proof.
  unfold firstOfKind. induction cs as [|[t|] cs IH]; simpl; auto.
  destruct (IsSetType t); auto.
Qed.

Lemma tupleType_firstOfKind cs :
  tupleTypeLiteralConstraint cs = firstOfKind IsTupleType cs.
Proof.
  unfold firstOfKind. induction cs as [|[t|] cs IH]; simpl; auto.
  destruct (IsTupleType t); auto.
Qed.

Lemma objectType_firstOfKind cs :
  objectTypeLiteralConstraint cs = firstOfKind IsObjectType cs.
Proof.
  unfold firstOfKind. induction cs as [|[t|] cs IH]; simpl; auto.
  destruct (IsObjectType t); auto.
Qed.

Lemma mapType_firstOfKind cs :
  mapTypeLiteralConstraint cs = firstOfKind IsMapType cs.
Proof.
  unfold firstOfKind. induction cs as [|[t|] cs IH]; simpl; auto.
  destruct (IsMapType t); auto.
Qed.

Lemma literalExpr_firstOfKind vt cs :
  literalExprForType vt cs = firstOfKind (fun t => Equals t vt) cs.
Proof.
  unfold firstOfKind. induction cs as [|[t|] cs IH]; simpl; auto.
  destruct (Equals t vt); auto.
Qed.

(** What [firstOfKind] returns is a declared literal type of the kind, and
    no declared type before it is of the kind. *)
Lemma firstOfKind_Some isKind cs t :
  firstOfKind isKind cs = Some t ->
  exists before after,
    LiteralValueTypes cs = before ++ t :: after
    /\ isKind t = true
    /\ Forall (fun u => isKind u = false) before.
Proof.
  unfold firstOfKind. generalize (LiteralValueTypes cs) as l.
  induction l as [|u l IH]; simpl; [discriminate|].
  destruct (isKind u) eqn:E.
  - intros [= ->]. exists [], l. repeat split; auto.
  - intros H. destruct (IH H) as (b & a & -> & Ht & Hb).
    exists (u :: b), a. repeat split; auto.
Qed.

Lemma firstOfKind_None isKind cs :
  firstOfKind isKind cs = None ->
  Forall (fun u => isKind u = false) (LiteralValueTypes cs).
Proof.
  unfold firstOfKind. generalize (LiteralValueTypes cs) as l.
  induction l as [|u l IH]; simpl; auto.
  destruct (isKind u) eqn:E; [discriminate|]. auto.
Qed.

Lemma firstOfKind_In isKind cs t :
  firstOfKind isKind cs = Some t -> In (LiteralTypeExpr t) cs.
Proof.
  unfold firstOfKind. induction cs as [|[u|] cs IH]; simpl; try discriminate; auto.
  destruct (isKind u); [intros [= ->]|]; auto.
Qed.

Lemma firstOfKind_sameType vt cs t :
  firstOfKind (fun u => Equals u vt) cs = Some t -> t = vt.
Proof.
  intros H. destruct (firstOfKind_Some _ _ _ H) as (_ & _ & _ & E & _).
  now apply Equals_true_iff.
Qed.

Lemma firstOfKind_declared vt cs :
  In (LiteralTypeExpr vt) cs ->
  firstOfKind (fun u => Equals u vt) cs = Some vt.
Proof.
  unfold firstOfKind. induction cs as [|[u|] cs IH]; simpl; [contradiction| |].
  - intros [[= ->]|H].
    + rewrite (proj2 (Equals_true_iff vt vt) eq_refl). reflexivity.
    + destruct (Equals u vt) eqn:E; [|auto].
      apply Equals_true_iff in E. now subst.
  - intros [H|H]; [discriminate|auto].
Qed.

(** C1. The engine classifies an expression as the specification says:
    a sequence construction matches the first list-typed constraint, then
    the first set-typed one, then the first tuple-typed one; a keyed
    construction the first object-typed, then the first map-typed one; a
    literal only a constraint whose declared type is equal to the type
    of its value, and none gives the incompatible-literal-type outcome.
    The hover path and the token path both make this selection. *)
Theorem engine_selection_hover_and_tokens
  (quote : string -> string) (bigFloatString : Z -> positive -> string)
  (e : Expression) (cs : ExprConstraints) :
  hoverContentForExpr quote bigFloatString e cs =
    match select e cs with
    | Matched t =>
        hoverContentForValueAndType quote bigFloatString (hoverValue (unwrap e) t) t
    | Unsupported => Fail (unsupportedExpression (unwrap e))
    | IncompatibleLiteral vt =>
        Fail (PlainError ("no schema for literal type " +:+ quote (FriendlyName vt)))
    end
  /\ tokensForConstrainedExpression e cs =
    match select e cs with
    | Matched t => tokenForTypedExpression (unwrap e) (Some t)
    | Unsupported | IncompatibleLiteral _ => Ret []
    end
  /\ (forall val rng t,
        select (LiteralValueExpr val rng) cs = Matched t ->
        t = ValueType val /\ In (LiteralTypeExpr t) cs)
  /\ (forall val rng,
        In (LiteralTypeExpr (ValueType val)) cs ->
        select (LiteralValueExpr val rng) cs = Matched (ValueType val))
  /\ (forall val rng,
        ~ In (LiteralTypeExpr (ValueType val)) cs ->
        select (LiteralValueExpr val rng) cs = IncompatibleLiteral (ValueType val)).
Proof.
  split; [|split; [|split; [|split]]].
  - revert e. fix IH 1. intros [val r|parts r|w r|es r|items r|k r]; simpl.
    + rewrite literalExpr_firstOfKind.
      destruct (firstOfKind _ cs); reflexivity.
    + destruct parts as [|part [|p2 parts]]; try reflexivity. apply IH.
    + apply IH.
    + rewrite listType_firstOfKind, setType_firstOfKind, tupleType_firstOfKind.
      destruct (firstOfKind IsListType cs); [reflexivity|].
      destruct (firstOfKind IsSetType cs); [reflexivity|].
      destruct (firstOfKind IsTupleType cs); reflexivity.
    + rewrite objectType_firstOfKind, mapType_firstOfKind.
      destruct (firstOfKind IsObjectType cs); [reflexivity|].
      destruct (firstOfKind IsMapType cs); reflexivity.
    + reflexivity.
  - revert e. fix IH 1. intros [val r|parts r|w r|es r|items r|k r]; simpl.
    + rewrite literalExpr_firstOfKind.
      destruct (firstOfKind _ cs) as [t|] eqn:E; [|reflexivity].
      apply firstOfKind_sameType in E. subst t. reflexivity.
    + destruct parts as [|part [|p2 parts]]; try reflexivity. apply IH.
    + apply IH.
    + rewrite listType_firstOfKind, setType_firstOfKind, tupleType_firstOfKind.
      destruct (firstOfKind IsListType cs); [reflexivity|].
      destruct (firstOfKind IsSetType cs); [reflexivity|].
      destruct (firstOfKind IsTupleType cs); reflexivity.
    + rewrite objectType_firstOfKind, mapType_firstOfKind.
      destruct (firstOfKind IsObjectType cs); [reflexivity|].
      destruct (firstOfKind IsMapType cs); reflexivity.
    + reflexivity.
  - intros val rng t. simpl.
    destruct (firstOfKind _ cs) as [u|] eqn:E; [|discriminate].
    intros [= ->]. split.
    + eapply firstOfKind_sameType, E.
    + eapply firstOfKind_In, E.
  - intros val rng H. simpl. now rewrite (firstOfKind_declared _ _ H).
  - intros val rng H. simpl.
    destruct (firstOfKind _ cs) as [u|] eqn:E; [|reflexivity].
    exfalso. apply H. rewrite <- (firstOfKind_sameType _ _ _ E).
    eapply firstOfKind_In, E.
Qed.

End EngineProps.

(** ** Completion candidates *)

Module CandidatesProps.

Import Completion.

Section Facts.

Variable quote : string -> string.
Variable formatFloat64 : Z -> positive -> string.

Lemma typeToCandidates_bool editRng :
  typeToCandidates quote formatFloat64 TBool editRng
  = Ret [boolCandidate false editRng; boolCandidate true editRng].
Proof. reflexivity. Qed.

Lemma typeToCandidates_total t editRng :
  exists l, typeToCandidates quote formatFloat64 t editRng = Ret l
            /\ Forall (fun c => EditRange (Edit c) = editRng) l.
Proof.
  unfold typeToCandidates.
  destruct (isType TBool t) eqn:E.
  - eexists. split; [reflexivity|]. repeat constructor.
  - destruct (IsPrimitiveType t); eexists; (split; [reflexivity|]);
      repeat constructor.
Qed.

Lemma constraintToCandidates_total c editRng :
  exists l, constraintToCandidates quote formatFloat64 c editRng = Ret l
            /\ Forall (fun c => EditRange (Edit c) = editRng) l.
Proof.
  destruct c as [t|]; simpl.
  - apply typeToCandidates_total.
  - exists []. split; auto.
Qed.

Lemma expressionCandidatesAtPos_total cs editRng :
  exists l, expressionCandidatesAtPos quote formatFloat64 cs editRng
            = Ret (mkCandidates l true)
            /\ Forall (fun c => EditRange (Edit c) = editRng) l.
Proof.
  unfold expressionCandidatesAtPos.
  cbn [CandList NewCandidates].
  assert (Hnil : Forall (fun c => EditRange (Edit c) = editRng) [])
    by constructor.
  revert Hnil. generalize (@nil Candidate).
  induction cs as [|c cs IH]; intros acc Hacc.
  - exists acc. split; auto.
  - destruct (constraintToCandidates_total c editRng) as (more & Em & Hm).
    cbn [bind]. rewrite Em. cbn [bind].
    apply IH. apply Forall_app. split; auto.
Qed.

End Facts.

(** C5. Candidates are produced only for a literal whose value is not
    wholly known: for a wholly known literal and for every other kind of
    expression the list is empty; and every candidate offered edits the
    range collapsed onto the start of the expression. *)
Theorem candidates_only_at_placeholder
  (quote : string -> string) (formatFloat64 : Z -> positive -> string)
  (attr : Attribute) (schema : AttributeSchema) (pos : Pos) :
  exists l,
    attrValueCandidatesAtPos quote formatFloat64 attr schema pos
    = Ret (mkCandidates l true)
    /\ (isPlaceholder (AttrExpr attr) = false -> l = [])
    /\ Forall (fun c => EditRange (Edit c) = collapsed (ExprRange (AttrExpr attr))) l
    /\ Forall (fun c => Start (EditRange (Edit c)) = End (EditRange (Edit c))) l.
Proof.
  unfold attrValueCandidatesAtPos, constraintsAtPos.
  destruct (AttrExpr attr) as [val r|parts r|w r|es r|items r|k r] eqn:E;
    try (exists []; cbn; repeat split; auto; fail).
  cbn [isPlaceholder ExprRange].
  destruct (IsWhollyKnown val); cbn [negb].
  - exists []. cbn. repeat split; auto.
  - destruct (Expr schema) as [|c cs] eqn:Ecs.
    + exists []. cbn. repeat split; auto; discriminate.
    + cbn [length Nat.ltb Nat.leb].
      destruct (expressionCandidatesAtPos_total quote formatFloat64 (c :: cs)
                  (mkRange (Filename r) (Start r) (Start r))) as (l & El & Hl).
      exists l. split; [exact El|]. split; [discriminate|]. split.
      * exact Hl.
      * eapply Forall_impl; [exact Hl|]. intros cand ->. reflexivity.
Qed.

Lemma candidates_only_at_placeholder_witness :
  exists l,
    attrValueCandidatesAtPos sampleQuote sampleFloat filledAttr (schemaOf TBool) samplePos
    = Ret (mkCandidates l true) /\ l = [].
Proof.
  destruct (candidates_only_at_placeholder sampleQuote sampleFloat filledAttr
              (schemaOf TBool) samplePos) as (l & E & H & _).
  exists l. split; [exact E|]. apply H. reflexivity.
Defined.

(** C6. For a boolean constraint at a value that is not wholly known
    there are exactly two candidates, [false] and [true], each with a
    replacement text on one line; a string or number constraint
    contributes no candidate. *)
Theorem bool_constraint_two_candidates
  (quote : string -> string) (formatFloat64 : Z -> positive -> string)
  (attr : Attribute) (schema : AttributeSchema) (pos : Pos)
  (val : Value) (rng : Range) :
  AttrExpr attr = LiteralValueExpr val rng ->
  IsWhollyKnown val = false ->
  Expr schema = LiteralTypeOnly TBool ->
  attrValueCandidatesAtPos quote formatFloat64 attr schema pos
  = Ret (mkCandidates [boolCandidate false (collapsed rng);
                       boolCandidate true (collapsed rng)] true)
  /\ NewText (Edit (boolCandidate false (collapsed rng))) = "false"
  /\ NewText (Edit (boolCandidate true (collapsed rng))) = "true"
  /\ singleLine (NewText (Edit (boolCandidate false (collapsed rng)))) = true
  /\ singleLine (NewText (Edit (boolCandidate true (collapsed rng)))) = true
  /\ constraintToCandidates quote formatFloat64 (LiteralTypeExpr TString) (collapsed rng)
     = Ret []
  /\ constraintToCandidates quote formatFloat64 (LiteralTypeExpr TNumber) (collapsed rng)
     = Ret [].
Proof.
  intros He Hv Hs.
  unfold attrValueCandidatesAtPos, constraintsAtPos.
  rewrite He, Hv, Hs. repeat split; reflexivity.
Qed.

Lemma bool_constraint_two_candidates_witness :
  attrValueCandidatesAtPos sampleQuote sampleFloat emptyAttr (schemaOf TBool) samplePos
  = Ret (mkCandidates [boolCandidate false (collapsed sampleRange);
                       boolCandidate true (collapsed sampleRange)] true).
Proof.
  apply (bool_constraint_two_candidates sampleQuote sampleFloat emptyAttr
           (schemaOf TBool) samplePos DynamicVal sampleRange);
    reflexivity.
Defined.

(** C10. When at least one constraint applies at a value that is not
    wholly known, the candidates returned are marked complete, also when
    no candidate is listed, as for a lone string or number constraint. *)
Theorem candidates_complete_at_placeholder
  (quote : string -> string) (formatFloat64 : Z -> positive -> string)
  (attr : Attribute) (schema : AttributeSchema) (pos : Pos)
  (val : Value) (rng : Range) :
  AttrExpr attr = LiteralValueExpr val rng ->
  IsWhollyKnown val = false ->
  Expr schema <> [] ->
  exists l,
    attrValueCandidatesAtPos quote formatFloat64 attr schema pos
    = expressionCandidatesAtPos quote formatFloat64 (Expr schema) (collapsed rng)
    /\ expressionCandidatesAtPos quote formatFloat64 (Expr schema) (collapsed rng)
       = Ret (mkCandidates l true)
    /\ (Expr schema = LiteralTypeOnly TString \/ Expr schema = LiteralTypeOnly TNumber
        -> l = []).
Proof.
  intros He Hv Hs.
  destruct (expressionCandidatesAtPos_total quote formatFloat64 (Expr schema)
              (collapsed rng)) as (l & El & _).
  exists l. split; [|split].
  - unfold attrValueCandidatesAtPos, constraintsAtPos. rewrite He, Hv. cbn [negb].
    destruct (Expr schema); [contradiction|reflexivity].
  - exact El.
  - intros [E|E]; rewrite E in El; cbv in El; congruence.
Qed.

Lemma candidates_complete_at_placeholder_witness :
  attrValueCandidatesAtPos sampleQuote sampleFloat emptyAttr (schemaOf TString) samplePos
  = Ret (mkCandidates [] true).
Proof.
  destruct (candidates_complete_at_placeholder sampleQuote sampleFloat emptyAttr
              (schemaOf TString) samplePos DynamicVal sampleRange)
    as (l & E1 & E2 & H); [reflexivity|reflexivity|discriminate|].
  rewrite E1, E2. rewrite (H (or_introl eq_refl)). reflexivity.
Defined.

End CandidatesProps.

(** ** Hover *)

Module HoverProps.

Section Facts.

Variable quote : string -> string.
Variable bigFloatString : Z -> positive -> string.
Variable detailForAttribute : AttributeSchema -> string.
Variable detailForBlock : BlockSchema -> string.
Variable docsURL : string -> string -> option (string * string).
Variable isPosOutsideBody : Block -> Pos -> bool.

Lemma hoverAttributes_outside filename schema pos attrs :
  Forall (fun p => ContainsPos (AttrSrcRange (snd p)) pos = false) attrs ->
  hoverAttributes quote bigFloatString detailForAttribute filename schema pos attrs
  = None.
Proof.
  induction 1 as [|[name attr] attrs Hx _ IH]; simpl in *; auto.
  rewrite Hx. exact IH.
Qed.

Lemma hoverLabels_beyond filename block bSchema pos before r after label i :
  Forall (fun r => ContainsPos r pos = false) before ->
  ContainsPos r pos = true ->
  (length (SchemaLabels bSchema) <= i + length before)%nat ->
  nth_error (Labels block) (i + length before) = Some label ->
  hoverLabels quote docsURL filename block bSchema pos i (before ++ r :: after)
  = Some (Fail (PositionalError filename pos
                  ("unexpected label ("
                   +:+ formatInt (Z.of_nat (i + length before))
                   +:+ ") " +:+ quote label))).
Proof.
  intros Hb Hr. revert i.
  induction Hb as [|r0 before H0 _ IH]; intros i Hlen Hnth; simpl in *.
  - rewrite Nat.add_0_r in *. rewrite Hr.
    assert (E : (length (SchemaLabels bSchema) <? i + 1)%nat = true)
      by (apply Nat.ltb_lt; lia).
    rewrite E, Hnth. reflexivity.
  - rewrite H0.
    replace (i + S (length before))%nat with (S i + length before)%nat in * by lia.
    apply IH; auto.
Qed.

End Facts.

(** C9 as stated fails: hovering the third label of a block whose schema
    declares two labels returns a positional error and no hover data. *)
Lemma hover_label_beyond_schema_counterexample :
  hoverAtPos sampleQuote sampleBigFloat sampleAttrDetail sampleBlockDetail
    sampleDocsURL sampleOutsideBody threeLabelBody (Some twoLabelSchema) (posAt 29)
  = Fail (PositionalError "test.tf" (posAt 29)
            ("unexpected label (2) " +:+ String "034" ("y" +:+ String "034" ""))).
Proof. vm_compute. reflexivity. Qed.

(** C9, amended. Hovering a label whose index is not below the number of
    label schemas of the block's schema fails with the positional error
    "unexpected label", which carries the index and the text of the
    label; no hover data is returned. *)
Theorem hover_label_beyond_schema_is_error
  (quote : string -> string) (bigFloatString : Z -> positive -> string)
  (detailForAttribute : AttributeSchema -> string)
  (detailForBlock : BlockSchema -> string)
  (docsURL : string -> string -> option (string * string))
  (isPosOutsideBody : Block -> Pos -> bool)
  (body : Body) (schema : BodySchema) (pos : Pos)
  (blocksBefore blocksAfter : list Block) (block : Block) (bSchema : BlockSchema)
  (rangesBefore rangesAfter : list Range) (labelRange : Range) (label : string) :
  Forall (fun p => ContainsPos (AttrSrcRange (snd p)) pos = false) (Attributes body) ->
  Blocks body = blocksBefore ++ block :: blocksAfter ->
  Forall (fun b => ContainsPos (BlockRange b) pos = false) blocksBefore ->
  ContainsPos (BlockRange block) pos = true ->
  SchemaBlocks schema !! BlockType block = Some bSchema ->
  ContainsPos (TypeRange block) pos = false ->
  LabelRanges block = rangesBefore ++ labelRange :: rangesAfter ->
  Forall (fun r => ContainsPos r pos = false) rangesBefore ->
  ContainsPos labelRange pos = true ->
  (length (SchemaLabels bSchema) <= length rangesBefore)%nat ->
  nth_error (Labels block) (length rangesBefore) = Some label ->
  hoverAtPos quote bigFloatString detailForAttribute detailForBlock docsURL
    isPosOutsideBody body (Some schema) pos
  = Fail (PositionalError (Filename (BodyRange body)) pos
            ("unexpected label (" +:+ formatInt (Z.of_nat (length rangesBefore))
             +:+ ") " +:+ quote label)).
Proof.
  intros Hattrs Hblocks Hbefore Hin Hschema Htype Hranges Hrb Hlabel Hlen Hnth.
  destruct body as [attrs blocks rng]. simpl in Hattrs, Hblocks. subst blocks.
  cbn [hoverAtPos Attributes Blocks BodyRange].
  rewrite (hoverAttributes_outside quote bigFloatString detailForAttribute _ _ _ _ Hattrs).
  induction Hbefore as [|b0 before H0 _ IH]; cbn [app].
  - rewrite Hin, Hschema, Htype, Hranges.
    rewrite (hoverLabels_beyond quote docsURL _ _ _ _ _ _ _ label 0 Hrb Hlabel);
      auto.
  - rewrite H0. exact IH.
Qed.

Lemma hover_label_beyond_schema_is_error_witness :
  hoverAtPos sampleQuote sampleBigFloat sampleAttrDetail sampleBlockDetail
    sampleDocsURL sampleOutsideBody threeLabelBody (Some twoLabelSchema) (posAt 30)
  = Fail (PositionalError "test.tf" (posAt 30)
            ("unexpected label (" +:+ formatInt 2 +:+ ") " +:+ sampleQuote "y")).
Proof.
  apply (hover_label_beyond_schema_is_error sampleQuote sampleBigFloat
           sampleAttrDetail sampleBlockDetail sampleDocsURL sampleOutsideBody
           threeLabelBody twoLabelSchema (posAt 30) [] [] threeLabelBlock
           twoLabelBlockSchema [rangeAt 9 23; rangeAt 24 27] [] (rangeAt 28 31) "y");
    try reflexivity; repeat constructor.
Defined.

(** C8 as stated fails: with a loaded document and no schema installed,
    the semantic tokens query succeeds with an empty list. *)
Lemma no_schema_tokens_counterexample :
  files decoderWithoutSchema !! "test.tf" = Some (SyntaxBody emptyBody)
  /\ rootSchema decoderWithoutSchema = None
  /\ SemanticTokensInFile decoderWithoutSchema "test.tf" = Ret []
  /\ SemanticTokensInFile decoderWithoutSchema "test.tf" <> Fail NoSchemaError.
Proof. vm_compute. repeat split; discriminate. Qed.

(** C8, amended. On a loaded document that is a syntax body, and with no
    schema installed, hover fails with the no-schema error, and the
    semantic tokens query returns the empty list and no error. *)
Theorem no_schema_hover_fails_tokens_empty
  (quote : string -> string) (bigFloatString : Z -> positive -> string)
  (detailForAttribute : AttributeSchema -> string)
  (detailForBlock : BlockSchema -> string)
  (docsURL : string -> string -> option (string * string))
  (isPosOutsideBody : Block -> Pos -> bool)
  (d : Decoder) (filename : string) (body : Body) (pos : Pos) :
  files d !! filename = Some (SyntaxBody body) ->
  rootSchema d = None ->
  HoverAtPos quote bigFloatString detailForAttribute detailForBlock docsURL
    isPosOutsideBody d filename pos = Fail NoSchemaError
  /\ SemanticTokensInFile d filename = Ret [].
Proof.
  intros Hf Hs. unfold HoverAtPos, SemanticTokensInFile, fileByName.
  rewrite Hf, Hs. split; reflexivity.
Qed.

Lemma no_schema_hover_fails_tokens_empty_witness :
  HoverAtPos sampleQuote sampleBigFloat sampleAttrDetail sampleBlockDetail
    sampleDocsURL sampleOutsideBody decoderWithoutSchema "test.tf" InitialPos
  = Fail NoSchemaError
  /\ SemanticTokensInFile decoderWithoutSchema "test.tf" = Ret [].
Proof.
  apply (no_schema_hover_fails_tokens_empty sampleQuote sampleBigFloat
           sampleAttrDetail sampleBlockDetail sampleDocsURL sampleOutsideBody
           decoderWithoutSchema "test.tf" emptyBody InitialPos);
    reflexivity.
Defined.

End HoverProps.

(** ** Semantic tokens *)

Module TokensProps.

Import Tokens.

Lemma bind_Ret_inv {E A B} (m : outcome E A) (k : A -> outcome E B) (b : B) :
  Go.bind m k = Ret b -> exists a, m = Ret a /\ k a = Ret b.
Proof. destruct m; simpl; intros H; try discriminate. eauto. Qed.

Lemma noFail_bind {A B} (m : result A) (k : A -> result B) :
  noFail m -> (forall a, noFail (k a)) -> noFail (Go.bind m k).
Proof. destruct m; simpl; auto. Qed.

Lemma tokensForBody_unfold body schema isDependent :
  tokensForBody body (Some schema) isDependent =
  let! attrTokens := attributeTokens schema isDependent (Attributes body) in
  let! blockTokens := blocksTokens schema isDependent (Blocks body) in
  Ret (attrTokens ++ blockTokens).
Proof.
  destruct body as [attrs blocks rng]. cbn [tokensForBody Attributes Blocks].
  destruct (attributeTokens schema isDependent attrs) as [at_| |]; cbn [Go.bind]; auto.
  f_equal.
  induction blocks as [|block blocks IH]; [reflexivity|].
  cbn [blocksTokens]. unfold blockTokens at 1.
  destruct (SchemaBlocks schema !! BlockType block) as [bs|].
  - rewrite <- IH. clear IH.
    generalize (DependentBodySchema bs (dependencyKeysFromBlock block bs)).
    intros depSchema.
    destruct (BlockBody block) as [b|];
      [destruct (tokensForBody b (SchemaBody bs) false) as [own| |];
       cbn [Go.bind]; auto|];
      (destruct depSchema as [ds|];
       [try (destruct (tokensForBody b (Some ds) true) as [dep| |]);
        cbn [Go.bind]; auto|]);
      cbn [Go.bind];
      match goal with |- Go.bind ?m _ = _ => destruct m as [rest| |] end;
      cbn [Go.bind]; auto; rewrite <- ?app_assoc; reflexivity.
  - rewrite <- IH. cbn [Go.bind].
    match goal with |- ?m = _ => destruct m as [rest| |] end; reflexivity.
Qed.

Lemma Expression_nested_ind (P : Expression -> Prop) :
  (forall val rng, P (LiteralValueExpr val rng)) ->
  (forall parts rng, Forall P parts -> P (TemplateExpr parts rng)) ->
  (forall w rng, P w -> P (TemplateWrapExpr w rng)) ->
  (forall es rng, Forall P es -> P (TupleConsExpr es rng)) ->
  (forall items rng,
      Forall (fun it => P (snd it)) items -> P (ObjectConsExpr items rng)) ->
  (forall k rng, P (OtherExpr k rng)) ->
  forall e, P e.
Proof.
  intros HLiteral HTemplate HWrap HTuple HObject HOther.
  fix IH 1. intros [val rng|parts rng|w rng|es rng|items rng|k rng].
  - apply HLiteral.
  - apply HTemplate. revert parts. fix IHl 1.
    intros [|x l]; constructor; [apply IH|apply IHl].
  - apply HWrap, IH.
  - apply HTuple. revert es. fix IHl 1.
    intros [|x l]; constructor; [apply IH|apply IHl].
  - apply HObject. revert items. fix IHl 1.
    intros [|x l]; constructor; [apply IH|apply IHl].
  - apply HOther.
Qed.

Lemma valueTokens_bind {A} (m : result A) (Q : A -> Prop)
  (k : A -> result (list SemanticToken)) :
  match m with Ret a => Q a | Fail _ => False | Panic => True end ->
  (forall a, Q a -> valueTokens (k a)) ->
  valueTokens (Go.bind m k).
Proof. destruct m; simpl; auto. Qed.

Lemma tokensForLiteralValueExpr_value rng t :
  Forall valueToken (tokensForLiteralValueExpr rng t).
Proof. destruct t; simpl; repeat constructor. Qed.

Lemma tokenForTypedExpression_value e :
  forall vt, valueTokens (tokenForTypedExpression e vt).
Proof.
  induction e as [val rng|parts rng _|w rng _|es rng IH|items rng IH|k rng]
    using Expression_nested_ind; intros vt; cbn [tokenForTypedExpression];
    try (simpl; constructor).
  - destruct vt as [t|]; [|simpl; constructor].
    destruct (IsPrimitiveType t); simpl; [|constructor].
    apply tokensForLiteralValueExpr_value.
  - generalize 0%nat as i. induction IH as [|e es He _ IHes]; intros i; simpl.
    + constructor.
    + apply (valueTokens_bind _ (fun _ => True)).
      { unfold tupleElemType. destruct vt as [[]|]; simpl; auto.
        destruct (nth_error elems i); simpl; auto. }
      intros et _. apply (valueTokens_bind _ (Forall valueToken)).
      { specialize (He et). destruct (tokenForTypedExpression e et); auto. }
      intros a Ha. apply (valueTokens_bind _ (Forall valueToken)).
      { specialize (IHes (S i)).
        destruct (tupleItemTokens tokenForTypedExpression vt (S i) es); auto. }
      intros b Hb. simpl. apply Forall_app. auto.
  - unfold tokensForObjectConsExpr_body.
    destruct vt as [[| | | | | |elemType| |attrTypes]|]; try (simpl; constructor).
    + induction IH as [|[key ve] items He _ IHitems]; simpl; [constructor|].
      apply (valueTokens_bind _ (Forall valueToken)).
      { specialize (He (Some elemType)). simpl in He.
        destruct (tokenForTypedExpression ve (Some elemType)); auto. }
      intros a Ha. apply (valueTokens_bind _ (Forall valueToken)).
      { destruct (mapItemTokens tokenForTypedExpression elemType items); auto. }
      intros b Hb. simpl. constructor; [split; reflexivity|].
      apply Forall_app. auto.
    + induction IH as [|[key ve] items He _ IHitems]; simpl; [constructor|].
      destruct (IsWhollyKnown (KeyValue key) && Equals (ValueType (KeyValue key)) TString);
        [|exact IHitems].
      apply (valueTokens_bind _ (fun _ => True)).
      { destruct (AsString (KeyValue key)) eqn:E; auto.
        unfold AsString in E. destruct (KeyValue key); discriminate. }
      intros name _. destruct (lookupAttrType attrTypes name) as [valType|];
        [|exact IHitems].
      apply (valueTokens_bind _ (Forall valueToken)).
      { specialize (He (Some valType)). simpl in He.
        destruct (tokenForTypedExpression ve (Some valType)); auto. }
      intros a Ha. apply (valueTokens_bind _ (Forall valueToken)).
      { destruct (objectItemTokens tokenForTypedExpression attrTypes items); auto. }
      intros b Hb. simpl. constructor; [split; reflexivity|].
      apply Forall_app. auto.
Qed.

Lemma tokensForConstrainedExpression_value e cs :
  valueTokens (tokensForConstrainedExpression e cs).
Proof.
  revert e. fix IH 1.
  intros [val r|parts r|w r|es r|items r|k r]; cbn [tokensForConstrainedExpression].
  - destruct (literalExprForType (ValueType val) cs); [|simpl; constructor].
    apply tokenForTypedExpression_value.
  - destruct parts as [|part [|p2 parts]]; try (simpl; constructor). apply IH.
  - apply IH.
  - destruct (listTypeLiteralConstraint cs);
      [apply (tokenForTypedExpression_value (TupleConsExpr es r))|].
    destruct (setTypeLiteralConstraint cs);
      [apply (tokenForTypedExpression_value (TupleConsExpr es r))|].
    destruct (tupleTypeLiteralConstraint cs);
      [apply (tokenForTypedExpression_value (TupleConsExpr es r))|].
    simpl; constructor.
  - destruct (objectTypeLiteralConstraint cs);
      [apply (tokenForTypedExpression_value (ObjectConsExpr items r))|].
    destruct (mapTypeLiteralConstraint cs);
      [apply (tokenForTypedExpression_value (ObjectConsExpr items r))|].
    simpl; constructor.
  - simpl; constructor.
Qed.

Lemma Body_nested_ind (P : Body -> Prop) :
  (forall attrs blocks rng,
      Forall (fun b => match BlockBody b with Some bd => P bd | None => True end)
             blocks ->
      P (mkBody attrs blocks rng)) ->
  forall body, P body.
Proof.
  intros HBody. fix IH 1. intros [attrs blocks rng].
  apply HBody. revert blocks. fix IHl 1.
  intros [|[ty labels [bd|] tr lr ob cb] l]; constructor;
    [apply IH|apply IHl|exact I|apply IHl].
Qed.

(** *** Sorting *)

Lemma insertBy_perm x l : Permutation (insertBy lessStart x l) (x :: l).
Proof.
  induction l as [|h t IH]; simpl; auto.
  destruct (lessStart x h); auto.
  rewrite IH. apply perm_swap.
Qed.

Lemma sortSlice_perm l : Permutation (sortSlice lessStart l) l.
Proof.
  induction l as [|x l IH]; simpl; auto.
  rewrite insertBy_perm. auto.
Qed.

Lemma insertBy_sorted x l :
  StronglySorted byStart l -> StronglySorted byStart (insertBy lessStart x l).
Proof.
  induction 1 as [|h t Ht IH Hh]; simpl.
  - repeat constructor.
  - unfold lessStart at 1. destruct (Z.ltb_spec (StartByte x) (StartByte h)).
    + constructor; [constructor; auto|].
      constructor; [unfold byStart; lia|].
      eapply Forall_impl; [exact Hh|]. unfold byStart. intros; lia.
    + constructor; auto.
      rewrite insertBy_perm. constructor; auto.
  Qed.

Lemma sortSlice_sorted l : StronglySorted byStart (sortSlice lessStart l).
Proof.
  induction l as [|x l IH]; simpl; [constructor|].
  apply insertBy_sorted, IH.
Qed.

(** *** The name tokens a pass is to give *)

Lemma nameTokens_app a b : nameTokens (a ++ b) = nameTokens a ++ nameTokens b.
Proof. unfold nameTokens. rewrite List.filter_app, List.map_app. reflexivity. Qed.

Lemma nameTokens_value l : Forall valueToken l -> nameTokens l = [].
Proof.
  unfold nameTokens. induction 1 as [|t l [Ht _] _ IH]; simpl; auto.
  rewrite Ht. exact IH.
Qed.

Lemma nameTokens_perm a b :
  Permutation a b -> Permutation (nameTokens a) (nameTokens b).
Proof.
  intros H. unfold nameTokens. apply Permutation_map.
  induction H; simpl; auto.
  - destruct (isNameType (TokType x)); auto.
  - destruct (isNameType (TokType x)), (isNameType (TokType y)); auto.
    apply perm_swap.
  - etransitivity; eauto.
Qed.

Lemma attributeTokens_names schema isDependent attrs toks :
  attributeTokens schema isDependent attrs = Ret toks ->
  nameTokens toks
  = map (fun p => (TokenAttrName, NameRange (snd p)))
        (List.filter (recognizedAttr schema) attrs).
Proof.
  revert toks. induction attrs as [|[name attr] attrs IH]; intros toks; simpl.
  - intros [= <-]. reflexivity.
  - unfold recognizedAttr at 1. simpl.
    destruct (attrSchemaFor schema name) as [aSchema|]; [|apply IH].
    intros H. apply bind_Ret_inv in H as (et & Het & H).
    apply bind_Ret_inv in H as (rest & Hrest & H). injection H as <-.
    pose proof (tokensForConstrainedExpression_value (AttrExpr attr) (Expr aSchema)) as Hv.
    rewrite Het in Hv. simpl in Hv.
    change (nameTokens (?t :: ?l)) with (nameTokens ([t] ++ l)).
    rewrite !nameTokens_app, (nameTokens_value _ Hv), (IH _ Hrest). reflexivity.
Qed.

Lemma labelTokens_names blockSchema i ranges :
  nameTokens (labelTokens blockSchema i ranges)
  = map (fun r => (TokenBlockLabel, r))
        (firstn (length (SchemaLabels blockSchema) - i) ranges).
Proof.
  revert i. induction ranges as [|r ranges IH]; intros i; simpl.
  - rewrite firstn_nil. reflexivity.
  - destruct (nth_error (SchemaLabels blockSchema) i) as [ls|] eqn:E.
    + assert (i < length (SchemaLabels blockSchema))%nat
        by (apply nth_error_Some; congruence).
      replace (length (SchemaLabels blockSchema) - i)%nat
        with (S (length (SchemaLabels blockSchema) - S i))%nat by lia.
      simpl. change (nameTokens (?t :: ?l)) with (nameTokens ([t] ++ l)).
      rewrite nameTokens_app, IH. reflexivity.
    + apply nth_error_None in E.
      replace (length (SchemaLabels blockSchema) - i)%nat with 0%nat by lia.
      rewrite IH.
      replace (length (SchemaLabels blockSchema) - S i)%nat with 0%nat by lia.
      reflexivity.
Qed.

Lemma blockHeadTokens_names block blockSchema isDependent :
  nameTokens (blockHeadTokens block blockSchema isDependent)
  = (TokenBlockType, TypeRange block)
    :: map (fun r => (TokenBlockLabel, r))
           (firstn (length (SchemaLabels blockSchema)) (LabelRanges block)).
Proof.
  unfold blockHeadTokens.
  change (nameTokens (?t :: ?l)) with (nameTokens ([t] ++ l)).
  rewrite nameTokens_app, labelTokens_names, Nat.sub_0_r. reflexivity.
Qed.

Lemma tokensForBody_names body :
  forall bodySchema isDependent toks,
    tokensForBody body bodySchema isDependent = Ret toks ->
    nameTokens toks = expectedNames body bodySchema.
Proof.
  induction body as [attrs blocks rng IH] using Body_nested_ind.
  intros [schema|] isDependent toks; [|simpl; intros [= <-]; reflexivity].
  rewrite tokensForBody_unfold. cbn [Attributes Blocks expectedNames].
  intros H. apply bind_Ret_inv in H as (at_ & Hat & H).
  apply bind_Ret_inv in H as (bt & Hbt & H). injection H as <-.
  rewrite nameTokens_app, (attributeTokens_names _ _ _ _ Hat). f_equal.
  clear Hat at_. revert bt Hbt.
  induction IH as [|block blocks Hblock _ IHblocks]; intros bt; simpl.
  - intros [= <-]. reflexivity.
  - intros H. apply bind_Ret_inv in H as (here & Hhere & H).
    apply bind_Ret_inv in H as (rest & Hrest & H). injection H as <-.
    rewrite nameTokens_app, (IHblocks _ Hrest). clear IHblocks Hrest.
    unfold blockTokens in Hhere.
    destruct (SchemaBlocks schema !! BlockType block) as [bs|];
      [|injection Hhere as <-; reflexivity].
    apply bind_Ret_inv in Hhere as (own & Hown & H).
    apply bind_Ret_inv in H as (dep & Hdep & H). injection H as <-.
    change (nameTokens (_ :: labelTokens bs 0 (LabelRanges block) ++ own ++ dep))
      with (nameTokens (blockHeadTokens block bs isDependent ++ own ++ dep)).
    rewrite !nameTokens_app, blockHeadTokens_names.
    rewrite <- !app_assoc. simpl. do 2 f_equal.
    destruct (BlockBody block) as [b|].
    + rewrite (Hblock _ _ _ Hown). f_equal.
      destruct (DependentBodySchema bs (dependencyKeysFromBlock block bs)) as [ds|].
      * rewrite (Hblock _ _ _ Hdep). reflexivity.
      * injection Hdep as <-. reflexivity.
    + injection Hown as <-. simpl.
      destruct (DependentBodySchema bs (dependencyKeysFromBlock block bs)) as [ds|].
      * discriminate.
      * injection Hdep as <-. reflexivity.
Qed.

(** *** No error, and what the passes hold *)

Lemma valueTokens_noFail r : valueTokens r -> noFail r.
Proof. destruct r; simpl; auto. Qed.

Lemma attributeTokens_noFail schema isDependent attrs :
  noFail (attributeTokens schema isDependent attrs).
Proof.
  induction attrs as [|[name attr] attrs IH]; simpl; auto.
  destruct (attrSchemaFor schema name) as [aSchema|]; auto.
  apply noFail_bind.
  - apply valueTokens_noFail, tokensForConstrainedExpression_value.
  - intros et. apply noFail_bind; auto. intros; exact I.
Qed.

Lemma tokensForBody_noFail body :
  forall bodySchema isDependent, noFail (tokensForBody body bodySchema isDependent).
Proof.
  induction body as [attrs blocks rng IH] using Body_nested_ind.
  intros [schema|] isDependent; [|exact I].
  rewrite tokensForBody_unfold. cbn [Attributes Blocks].
  apply noFail_bind; [apply attributeTokens_noFail|]. intros at_.
  apply noFail_bind; [|intros; exact I].
  induction IH as [|block blocks Hblock _ IHblocks]; simpl; auto.
  apply noFail_bind; [|intros; apply noFail_bind; auto; intros; exact I].
  unfold blockTokens. destruct (SchemaBlocks schema !! BlockType block) as [bs|];
    [|exact I].
  destruct (BlockBody block) as [b|].
  - apply noFail_bind; [apply Hblock|]. intros own.
    apply noFail_bind; [|intros; exact I].
    destruct (DependentBodySchema bs (dependencyKeysFromBlock block bs));
      [apply Hblock|exact I].
  - simpl. apply noFail_bind; [|intros; exact I].
    destruct (DependentBodySchema bs (dependencyKeysFromBlock block bs)); exact I.
Qed.

Lemma attributeTokens_skip schema isDependent a1 name attr a2 :
  attrSchemaFor schema name = None ->
  attributeTokens schema isDependent (a1 ++ (name, attr) :: a2)
  = attributeTokens schema isDependent (a1 ++ a2).
Proof.
  intros H. induction a1 as [|[n a] a1 IH]; simpl.
  - rewrite H. reflexivity.
  - rewrite IH. reflexivity.
Qed.

Lemma blocksTokens_skip schema isDependent b1 block b2 :
  SchemaBlocks schema !! BlockType block = None ->
  blocksTokens schema isDependent (b1 ++ block :: b2)
  = blocksTokens schema isDependent (b1 ++ b2).
Proof.
  intros H. induction b1 as [|b b1 IH]; simpl.
  - unfold blockTokens. rewrite H. simpl.
    destruct (blocksTokens schema isDependent b2); reflexivity.
  - rewrite IH. reflexivity.
Qed.

Lemma labelTokens_excess blockSchema i ranges extra :
  (length (SchemaLabels blockSchema) <= i + length ranges)%nat ->
  labelTokens blockSchema i (ranges ++ extra) = labelTokens blockSchema i ranges.
Proof.
  revert i. induction ranges as [|r ranges IH]; intros i H; simpl in *.
  - revert i H. induction extra as [|r extra IHe]; intros i H; simpl; auto.
    assert (E : nth_error (SchemaLabels blockSchema) i = None)
      by (apply nth_error_None; lia).
    rewrite E. apply IHe. lia.
  - rewrite (IH (S i)) by lia. reflexivity.
Qed.

Lemma depLabelsFrom_excess schemas : forall i labels extra,
  (length schemas <= length labels)%nat ->
  depLabelsFrom i schemas (labels ++ extra) = depLabelsFrom i schemas labels.
Proof.
  induction schemas as [|ls schemas IH]; intros i labels extra H; [reflexivity|].
  destruct labels as [|v labels]; simpl in H; [lia|].
  simpl. rewrite (IH (i + 1) labels extra) by lia. reflexivity.
Qed.

Lemma blockTokens_excess schema isDependent ty labels extraLabels bd tr
  ranges extraRanges ob cb bs :
  SchemaBlocks schema !! ty = Some bs ->
  (length (SchemaLabels bs) <= length ranges)%nat ->
  (length (SchemaLabels bs) <= length labels)%nat ->
  blockTokens schema isDependent
    (mkBlock ty (labels ++ extraLabels) bd tr (ranges ++ extraRanges) ob cb)
  = blockTokens schema isDependent (mkBlock ty labels bd tr ranges ob cb).
Proof.
  intros Hs Hr Hl. unfold blockTokens, blockHeadTokens, dependencyKeysFromBlock.
  cbn [BlockType BlockBody TypeRange LabelRanges Labels]. rewrite Hs.
  rewrite labelTokens_excess by (simpl; lia).
  rewrite depLabelsFrom_excess by exact Hl. reflexivity.
Qed.

Lemma blocksTokens_congr schema isDependent b1 x y b2 :
  blockTokens schema isDependent x = blockTokens schema isDependent y ->
  blocksTokens schema isDependent (b1 ++ x :: b2)
  = blocksTokens schema isDependent (b1 ++ y :: b2).
Proof.
  intros H. induction b1 as [|b b1 IH]; simpl.
  - rewrite H. reflexivity.
  - rewrite IH. reflexivity.
Qed.

Lemma valueToken_plain l : Forall valueToken l -> Forall plainValue l.
Proof. intros H. eapply Forall_impl; [exact H|]. intros t [_ E] _. exact E. Qed.

Lemma attributeTokens_plain schema isDependent attrs toks :
  attributeTokens schema isDependent attrs = Ret toks -> Forall plainValue toks.
Proof.
  revert toks. induction attrs as [|[name attr] attrs IH]; intros toks; simpl.
  - intros [= <-]. constructor.
  - destruct (attrSchemaFor schema name) as [aSchema|]; [|apply IH].
    intros H. apply bind_Ret_inv in H as (et & Het & H).
    apply bind_Ret_inv in H as (rest & Hrest & H). injection H as <-.
    pose proof (tokensForConstrainedExpression_value (AttrExpr attr) (Expr aSchema)) as Hv.
    rewrite Het in Hv. simpl in Hv.
    constructor; [intros E; discriminate|].
    apply Forall_app. split; [apply valueToken_plain, Hv|apply IH, Hrest].
Qed.

Lemma labelTokens_plain blockSchema i ranges :
  Forall plainValue (labelTokens blockSchema i ranges).
Proof.
  revert i. induction ranges as [|r ranges IH]; intros i; simpl; [constructor|].
  destruct (nth_error (SchemaLabels blockSchema) i); auto.
  constructor; auto. intros E; discriminate.
Qed.

Lemma tokensForBody_plain body :
  forall bodySchema isDependent toks,
    tokensForBody body bodySchema isDependent = Ret toks -> Forall plainValue toks.
Proof.
  induction body as [attrs blocks rng IH] using Body_nested_ind.
  intros [schema|] isDependent toks; [|simpl; intros [= <-]; constructor].
  rewrite tokensForBody_unfold. cbn [Attributes Blocks].
  intros H. apply bind_Ret_inv in H as (at_ & Hat & H).
  apply bind_Ret_inv in H as (bt & Hbt & H). injection H as <-.
  apply Forall_app. split; [eapply attributeTokens_plain, Hat|].
  clear Hat at_. revert bt Hbt.
  induction IH as [|block blocks Hblock _ IHblocks]; intros bt; simpl.
  - intros [= <-]. constructor.
  - intros H. apply bind_Ret_inv in H as (here & Hhere & H).
    apply bind_Ret_inv in H as (rest & Hrest & H). injection H as <-.
    apply Forall_app. split; [|apply IHblocks, Hrest].
    unfold blockTokens in Hhere.
    destruct (SchemaBlocks schema !! BlockType block) as [bs|];
      [|injection Hhere as <-; constructor].
    apply bind_Ret_inv in Hhere as (own & Hown & H).
    apply bind_Ret_inv in H as (dep & Hdep & H). injection H as <-.
    constructor; [intros E; discriminate|].
    apply Forall_app. split; [apply labelTokens_plain|].
    apply Forall_app. destruct (BlockBody block) as [b|].
    + split; [eapply Hblock, Hown|].
      destruct (DependentBodySchema bs (dependencyKeysFromBlock block bs)).
      * eapply Hblock, Hdep.
      * injection Hdep as <-. constructor.
    + injection Hown as <-. split; [constructor|].
      destruct (DependentBodySchema bs (dependencyKeysFromBlock block bs)).
      * discriminate.
      * injection Hdep as <-. constructor.
Qed.

Lemma attributeTokens_In schema isDependent attrs toks name attr aSchema :
  attributeTokens schema isDependent attrs = Ret toks ->
  In (name, attr) attrs ->
  attrSchemaFor schema name = Some aSchema ->
  In (mkToken TokenAttrName (passModifiers isDependent (AttrIsDeprecated aSchema))
              (NameRange attr)) toks.
Proof.
  intros H Hin Hs. revert toks H.
  induction attrs as [|[n a] attrs IH]; intros toks; simpl in *; [contradiction|].
  destruct Hin as [[= -> ->]|Hin].
  - rewrite Hs. intros H. apply bind_Ret_inv in H as (et & _ & H).
    apply bind_Ret_inv in H as (rest & _ & H). injection H as <-. left. reflexivity.
  - destruct (attrSchemaFor schema n) as [s'|]; [|auto].
    intros H. apply bind_Ret_inv in H as (et & _ & H).
    apply bind_Ret_inv in H as (rest & Hrest & H). injection H as <-.
    right. apply in_or_app. right. auto.
Qed.

Lemma blocksTokens_In schema isDependent blocks bt block :
  blocksTokens schema isDependent blocks = Ret bt ->
  In block blocks ->
  exists here, blockTokens schema isDependent block = Ret here /\ incl here bt.
Proof.
  revert bt. induction blocks as [|b blocks IH]; intros bt H Hin; simpl in *;
    [contradiction|].
  apply bind_Ret_inv in H as (here & Hhere & H).
  apply bind_Ret_inv in H as (rest & Hrest & H). injection H as <-.
  destruct Hin as [->|Hin].
  - exists here. split; auto. apply incl_appl, incl_refl.
  - destruct (IH _ Hrest Hin) as (h & Hh & Hincl).
    exists h. split; auto. apply incl_appr, Hincl.
Qed.

(** *** Where the tokens are returned *)

Lemma tokenForTypedExpression_steady e :
  steady e = true -> forall vt, exists toks, tokenForTypedExpression e vt = Ret toks.
Proof.
  induction e as [val rng|parts rng _|w rng _|es rng _|items rng IH|k rng]
    using Expression_nested_ind; intros Hs vt; try discriminate Hs;
    cbn [tokenForTypedExpression]; eauto.
  - destruct vt as [t|]; [destruct (IsPrimitiveType t)|]; eauto.
  - unfold tokensForObjectConsExpr_body.
    destruct vt as [[| | | | | |elemType| |attrTypes]|]; eauto.
    + cbn [steady] in Hs.
      induction IH as [|[key ve] items He _ IHitems]; simpl; eauto.
      apply andb_true_iff in Hs as [Hs Hitems].
      apply andb_true_iff in Hs as [_ Hve]. cbn [snd] in He.
      destruct (He Hve (Some elemType)) as [a ->].
      destruct (IHitems Hitems) as [b ->]. simpl. eauto.
    + cbn [steady] in Hs.
      induction IH as [|[key ve] items He _ IHitems]; simpl; eauto.
      apply andb_true_iff in Hs as [Hs Hitems].
      apply andb_true_iff in Hs as [Hkey Hve]. cbn [snd] in He.
      destruct (IHitems Hitems) as [b Hb].
      destruct (IsWhollyKnown (KeyValue key) && Equals (ValueType (KeyValue key)) TString)
        eqn:Ek; [|eauto].
      assert (exists name, AsString (KeyValue key) = Ret name) as [name ->].
      { unfold soundKey in Hkey. apply andb_true_iff in Ek as [Ew Et].
        destruct (KeyValue key) as [t|t|str|bo|n d|t ms]; simpl in *;
          try discriminate; eauto; destruct t; discriminate. }
      cbn [Go.bind]. destruct (lookupAttrType attrTypes name) as [valType|]; eauto.
      destruct (He Hve (Some valType)) as [a ->]. rewrite Hb. simpl. eauto.
Qed.

Lemma tokensForConstrainedExpression_steady e cs :
  steady e = true -> exists toks, tokensForConstrainedExpression e cs = Ret toks.
Proof.
  revert e. fix IH 1.
  intros [val r|parts r|w r|es r|items r|k r] Hs; try discriminate Hs;
    cbn [tokensForConstrainedExpression].
  - destruct (literalExprForType (ValueType val) cs); eauto.
    apply (tokenForTypedExpression_steady (LiteralValueExpr val r)). reflexivity.
  - destruct parts as [|part [|p2 parts]]; eauto.
    apply IH. cbn [steady] in Hs. now apply andb_true_iff in Hs as [Hs _].
  - apply IH. exact Hs.
  - destruct (objectTypeLiteralConstraint cs) as [t|];
      [exact (tokenForTypedExpression_steady (ObjectConsExpr items r) Hs (Some t))|].
    destruct (mapTypeLiteralConstraint cs) as [t|];
      [exact (tokenForTypedExpression_steady (ObjectConsExpr items r) Hs (Some t))|].
    eauto.
  - eauto.
Qed.

Lemma attributeTokens_steady schema isDependent attrs :
  forallb (fun p => steady (AttrExpr (snd p))) attrs = true ->
  exists toks, attributeTokens schema isDependent attrs = Ret toks.
Proof.
  induction attrs as [|[name attr] attrs IH]; simpl; intros H; eauto.
  apply andb_true_iff in H as [Ha Hattrs].
  destruct (IH Hattrs) as [rest Hrest].
  destruct (attrSchemaFor schema name) as [aSchema|]; eauto.
  destruct (tokensForConstrainedExpression_steady (AttrExpr attr) (Expr aSchema) Ha)
    as [et ->].
  rewrite Hrest. simpl. eauto.
Qed.

Lemma tokensForBody_steady body :
  steadyBody body = true ->
  forall bodySchema isDependent,
    exists toks, tokensForBody body bodySchema isDependent = Ret toks.
Proof.
  induction body as [attrs blocks rng IH] using Body_nested_ind.
  intros Hs [schema|] isDependent; [|simpl; eauto].
  rewrite tokensForBody_unfold. cbn [Attributes Blocks].
  cbn [steadyBody Attributes Blocks] in Hs.
  apply andb_true_iff in Hs as [Hattrs Hblocks].
  destruct (attributeTokens_steady schema isDependent attrs Hattrs) as [at_ ->].
  cbn [Go.bind].
  assert (exists bt, blocksTokens schema isDependent blocks = Ret bt) as [bt ->];
    [|simpl; eauto].
  induction IH as [|block blocks Hblock _ IHblocks]; simpl; eauto.
  apply andb_true_iff in Hblocks as [Hb Hrest].
  destruct (IHblocks Hrest) as [rest ->].
  assert (exists here, blockTokens schema isDependent block = Ret here) as [here ->];
    [|simpl; eauto].
  unfold blockTokens. destruct (SchemaBlocks schema !! BlockType block) as [bs|]; eauto.
  destruct (BlockBody block) as [b|]; [|discriminate Hb].
  destruct (Hblock Hb (SchemaBody bs) false) as [own ->]. cbn [Go.bind].
  destruct (DependentBodySchema bs (dependencyKeysFromBlock block bs)) as [ds|].
  - destruct (Hblock Hb (Some ds) true) as [dep ->]. simpl. eauto.
  - simpl. eauto.
Qed.

(** The tokens of the test of dependent schemas, for its second block. *)
Example tokens_of_dependent_schema_test :
  SemanticTokensInFile (awsDecoder awsSchema) "test.tf"
  = Ret [mkToken TokenBlockType [] (rangeAt 0 8);
         mkToken TokenBlockLabel [TokenModifierDependent] (rangeAt 9 23);
         mkToken TokenBlockLabel [] (rangeAt 24 30);
         mkToken TokenAttrName [TokenModifierDependent] (rangeAt 35 48);
         mkToken TokenString [] (rangeAt 52 60)].
Proof. vm_compute. reflexivity. Qed.

(** C2 as stated fails: the document has one attribute, which the body
    schema of its block and the dependent body schema both declare, and
    the tokens hold two attribute-name tokens. *)
Lemma one_attribute_two_name_tokens_counterexample :
  countAttributes awsDoc = 1%nat
  /\ exists toks,
       SemanticTokensInFile (awsDecoder overlapSchema) "test.tf" = Ret toks
       /\ List.filter isAttrName toks
          = [mkToken TokenAttrName [TokenModifierDependent] (rangeAt 35 48);
             mkToken TokenAttrName [] (rangeAt 35 48)].
Proof.
  split; [reflexivity|]. eexists. split; [vm_compute; reflexivity|].
  vm_compute. reflexivity.
Qed.

(** C2, amended. The tokens returned are sorted ascending by the byte
    offset of their start. Every pass over a body (the root body under
    the root schema, the body of a recognized block under the body schema
    of the block and, when a dependent body schema is found, once more
    under that one) gives exactly one attribute-name token per attribute
    its schema recognizes, one block-type token per block it recognizes
    and one label token per label whose index is within the label
    schemas; an attribute or block that no pass recognizes and a label
    beyond the label schemas give none. The tokens are returned for every
    document without tuple construction whose blocks have a body. *)
Theorem semantic_tokens_sorted_one_name_per_pass
  (d : Decoder) (filename : string) (body : Body) (schema : BodySchema) :
  files d !! filename = Some (SyntaxBody body) ->
  rootSchema d = Some schema ->
  (forall toks,
      SemanticTokensInFile d filename = Ret toks ->
      StronglySorted byStart toks
      /\ Permutation (nameTokens toks) (expectedNames body (Some schema)))
  /\ (steadyBody body = true ->
      exists toks, SemanticTokensInFile d filename = Ret toks).
Proof.
  intros Hf Hs. unfold SemanticTokensInFile, fileByName. rewrite Hf, Hs.
  cbn [Go.bind bodyForFileAndPos]. split.
  - intros toks H.
    apply bind_Ret_inv in H as (raw & Hraw & H). injection H as <-. split.
    + apply sortSlice_sorted.
    + rewrite <- (tokensForBody_names _ _ _ _ Hraw).
      apply nameTokens_perm, sortSlice_perm.
  - intros Hb. destruct (tokensForBody_steady body Hb (Some schema) false) as [raw ->].
    simpl. eauto.
Qed.

Lemma semantic_tokens_sorted_one_name_per_pass_witness :
  exists toks,
    SemanticTokensInFile (awsDecoder overlapSchema) "test.tf" = Ret toks
    /\ StronglySorted byStart toks
    /\ Permutation (nameTokens toks) (expectedNames awsDoc (Some overlapSchema)).
Proof.
  destruct (semantic_tokens_sorted_one_name_per_pass (awsDecoder overlapSchema)
              "test.tf" awsDoc overlapSchema) as [Hsorted Hret];
    [vm_compute; reflexivity|reflexivity|].
  destruct Hret as [toks Htoks]; [reflexivity|].
  exists toks. split; [exact Htoks|]. apply Hsorted, Htoks.
Defined.

(** C4. The semantic tokens query fails only for a file that is not
    loaded or not a syntax body, never with a positional error; an
    attribute without schema entry and without fallback, a block of a
    type the schema does not declare, and the labels beyond the label
    schemas leave the tokens as they are without them. *)
Theorem semantic_tokens_skip_unknown :
  (forall d filename e,
      SemanticTokensInFile d filename = Fail e ->
      e = FileNotFoundError filename \/ e = UnknownFileFormatError filename)
  /\ (forall d filename f pos msg,
        SemanticTokensInFile d filename <> Fail (PositionalError f pos msg))
  /\ (forall schema isDependent a1 name attr a2 blocks rng,
        attrSchemaFor schema name = None ->
        tokensForBody (mkBody (a1 ++ (name, attr) :: a2) blocks rng)
                      (Some schema) isDependent
        = tokensForBody (mkBody (a1 ++ a2) blocks rng) (Some schema) isDependent)
  /\ (forall schema isDependent attrs b1 block b2 rng,
        SchemaBlocks schema !! BlockType block = None ->
        tokensForBody (mkBody attrs (b1 ++ block :: b2) rng) (Some schema) isDependent
        = tokensForBody (mkBody attrs (b1 ++ b2) rng) (Some schema) isDependent)
  /\ (forall schema isDependent attrs b1 b2 rng ty labels extraLabels bd tr
             ranges extraRanges ob cb blockSchema,
        SchemaBlocks schema !! ty = Some blockSchema ->
        (length (SchemaLabels blockSchema) <= length ranges)%nat ->
        (length (SchemaLabels blockSchema) <= length labels)%nat ->
        tokensForBody
          (mkBody attrs
             (b1 ++ mkBlock ty (labels ++ extraLabels) bd tr
                            (ranges ++ extraRanges) ob cb :: b2) rng)
          (Some schema) isDependent
        = tokensForBody
            (mkBody attrs (b1 ++ mkBlock ty labels bd tr ranges ob cb :: b2) rng)
            (Some schema) isDependent).
Proof.
  assert (Hfail : forall d filename e,
             SemanticTokensInFile d filename = Fail e ->
             e = FileNotFoundError filename \/ e = UnknownFileFormatError filename).
  { intros d filename e. unfold SemanticTokensInFile, fileByName.
    destruct (files d !! filename) as [[body|]|]; cbn [Go.bind bodyForFileAndPos];
      try (intros [= <-]; auto; fail).
    destruct (rootSchema d) as [schema|]; [|discriminate].
    pose proof (tokensForBody_noFail body (Some schema) false) as Hn.
    destruct (tokensForBody body (Some schema) false); simpl in *;
      try discriminate; contradiction. }
  split; [exact Hfail|]. split; [|split; [|split]].
  - intros d filename f pos msg H. destruct (Hfail _ _ _ H); discriminate.
  - intros. rewrite !tokensForBody_unfold. cbn [Attributes Blocks].
    rewrite attributeTokens_skip; auto.
  - intros. rewrite !tokensForBody_unfold. cbn [Attributes Blocks].
    rewrite blocksTokens_skip; auto.
  - intros. rewrite !tokensForBody_unfold. cbn [Attributes Blocks].
    erewrite blocksTokens_congr; [reflexivity|].
    eapply blockTokens_excess; eauto.
Qed.

Lemma semantic_tokens_skip_unknown_witness :
  tokensForBody (mkBody ([] ++ ("instance_type", awsAttr) :: []) [] (rangeAt 32 62))
                (Some twoLabelSchema) false
  = tokensForBody (mkBody ([] ++ []) [] (rangeAt 32 62)) (Some twoLabelSchema) false.
Proof.
  apply (proj1 (proj2 (proj2 semantic_tokens_skip_unknown))). reflexivity.
Defined.

(** C3 as stated fails: in the pass under the dependent body schema the
    token of the value of [instance_type] carries no modifier, and so it
    is in the tokens of the file. *)
Lemma dependent_pass_value_token_counterexample :
  DependentBodySchema awsBlockSchema (dependencyKeysFromBlock awsBlock awsBlockSchema)
  = Some instanceSchema
  /\ tokensForBody awsBody (Some instanceSchema) true
     = Ret [mkToken TokenAttrName [TokenModifierDependent] (rangeAt 35 48);
            mkToken TokenString [] (rangeAt 52 60)]
  /\ exists toks,
       SemanticTokensInFile (awsDecoder awsSchema) "test.tf" = Ret toks
       /\ In (mkToken TokenString [] (rangeAt 52 60)) toks.
Proof.
  split; [vm_compute; reflexivity|]. split; [vm_compute; reflexivity|].
  eexists. split; [vm_compute; reflexivity|]. simpl. tauto.
Qed.

(** C3, amended. For a block whose dependency keys select a dependent
    body schema, the body of the block is tokenized once under the body
    schema of the block and once under the dependent body schema, and the
    tokens of both passes are among the tokens of the enclosing pass. In
    the second pass the attribute-name token of every attribute of that
    body and the block-type token of every block of that body carry the
    dependent modifier, in the first pass the attribute-name tokens do
    not; in both passes the tokens of values carry no modifier. *)
Theorem dependent_block_two_passes
  (body : Body) (schema : BodySchema) (isDependent : bool)
  (block : Block) (bs : BlockSchema) (b : Body) (depSchema : BodySchema)
  (all : list SemanticToken) :
  tokensForBody body (Some schema) isDependent = Ret all ->
  In block (Blocks body) ->
  SchemaBlocks schema !! BlockType block = Some bs ->
  BlockBody block = Some b ->
  DependentBodySchema bs (dependencyKeysFromBlock block bs) = Some depSchema ->
  exists own dep,
    tokensForBody b (SchemaBody bs) false = Ret own
    /\ tokensForBody b (Some depSchema) true = Ret dep
    /\ incl (own ++ dep) all
    /\ (forall name attr aSchema,
          In (name, attr) (Attributes b) ->
          attrSchemaFor depSchema name = Some aSchema ->
          In (mkToken TokenAttrName
                      (TokenModifierDependent
                       :: if AttrIsDeprecated aSchema then [TokenModifierDeprecated]
                          else [])
                      (NameRange attr)) dep)
    /\ (forall blk blkSchema,
          In blk (Blocks b) ->
          SchemaBlocks depSchema !! BlockType blk = Some blkSchema ->
          In (mkToken TokenBlockType
                      (TokenModifierDependent
                       :: if BlockIsDeprecated blkSchema then [TokenModifierDeprecated]
                          else [])
                      (TypeRange blk)) dep)
    /\ (forall ownSchema name attr aSchema,
          SchemaBody bs = Some ownSchema ->
          In (name, attr) (Attributes b) ->
          attrSchemaFor ownSchema name = Some aSchema ->
          In (mkToken TokenAttrName
                      (if AttrIsDeprecated aSchema then [TokenModifierDeprecated] else [])
                      (NameRange attr)) own)
    /\ Forall plainValue (own ++ dep).
Proof.
  intros Hall Hin Hbs Hb Hdep.
  rewrite tokensForBody_unfold in Hall.
  apply bind_Ret_inv in Hall as (at_ & Hat & H).
  apply bind_Ret_inv in H as (bt & Hbt & H). injection H as <-.
  destruct (blocksTokens_In _ _ _ _ _ Hbt Hin) as (here & Hhere & Hincl).
  unfold blockTokens in Hhere. rewrite Hbs, Hb, Hdep in Hhere.
  apply bind_Ret_inv in Hhere as (own & Hown & H).
  apply bind_Ret_inv in H as (dep & Hdp & H). injection H as <-.
  exists own, dep. split; [exact Hown|]. split; [exact Hdp|].
  split; [|split; [|split; [|split]]].
  - intros t Ht. apply in_or_app. right. apply Hincl.
    right. apply in_or_app. right. exact Ht.
  - intros name attr aSchema Ha Hs.
    rewrite tokensForBody_unfold in Hdp.
    apply bind_Ret_inv in Hdp as (dat & Hdat & H).
    apply bind_Ret_inv in H as (dbt & _ & H). injection H as <-.
    apply in_or_app. left.
    exact (attributeTokens_In _ _ _ _ _ _ _ Hdat Ha Hs).
  - intros blk blkSchema Hblk Hs.
    rewrite tokensForBody_unfold in Hdp.
    apply bind_Ret_inv in Hdp as (dat & _ & H).
    apply bind_Ret_inv in H as (dbt & Hdbt & H). injection H as <-.
    apply in_or_app. right.
    destruct (blocksTokens_In _ _ _ _ _ Hdbt Hblk) as (h & Hh & Hi).
    apply Hi. unfold blockTokens in Hh. rewrite Hs in Hh.
    apply bind_Ret_inv in Hh as (o & _ & H).
    apply bind_Ret_inv in H as (dd & _ & H). injection H as <-.
    left. reflexivity.
  - intros ownSchema name attr aSchema Hos Ha Hs. rewrite Hos in Hown.
    rewrite tokensForBody_unfold in Hown.
    apply bind_Ret_inv in Hown as (oat & Hoat & H).
    apply bind_Ret_inv in H as (obt & _ & H). injection H as <-.
    apply in_or_app. left.
    exact (attributeTokens_In _ _ _ _ _ _ _ Hoat Ha Hs).
  - apply Forall_app. split; eapply tokensForBody_plain; eauto.
Qed.

Lemma dependent_block_two_passes_witness :
  exists own dep,
    tokensForBody awsBody (SchemaBody overlapBlockSchema) false = Ret own
    /\ tokensForBody awsBody (Some instanceSchema) true = Ret dep
    /\ In (mkToken TokenAttrName [TokenModifierDependent] (rangeAt 35 48)) dep
    /\ In (mkToken TokenAttrName [] (rangeAt 35 48)) own.
Proof.
  destruct (dependent_block_two_passes awsDoc overlapSchema false awsBlock
              overlapBlockSchema awsBody instanceSchema
              [mkToken TokenBlockType [] (rangeAt 0 8);
               mkToken TokenBlockLabel [TokenModifierDependent] (rangeAt 9 23);
               mkToken TokenBlockLabel [] (rangeAt 24 30);
               mkToken TokenAttrName [] (rangeAt 35 48);
               mkToken TokenString [] (rangeAt 52 60);
               mkToken TokenAttrName [TokenModifierDependent] (rangeAt 35 48);
               mkToken TokenString [] (rangeAt 52 60)])
    as (own & dep & Hown & Hdep & _ & Hd & _ & Ho & _);
    [vm_compute; reflexivity|left; reflexivity|vm_compute; reflexivity
    |reflexivity|vm_compute; reflexivity|].
  exists own, dep. split; [exact Hown|]. split; [exact Hdep|]. split.
  - apply (Hd "instance_type" awsAttr (schemaOf TString));
      [left; reflexivity|vm_compute; reflexivity].
  - apply (Ho instanceSchema "instance_type" awsAttr (schemaOf TString));
      [reflexivity|left; reflexivity|vm_compute; reflexivity].
Defined.

End TokensProps.

(** ** Reading the generated text back *)

Module ReaderProps.

Import Reader.

Lemma append_cons (x : ascii) (a b : string) :
  String x a +:+ b = String x (a +:+ b).
Proof. reflexivity. Qed.

Lemma append_nil_l (b : string) : "" +:+ b = b.
Proof. reflexivity. Qed.

Lemma append_assoc (a b c : string) : (a +:+ b) +:+ c = a +:+ (b +:+ c).
Proof.
  induction a as [|x a IH]; [reflexivity|].
  rewrite !append_cons. f_equal. exact IH.
Qed.

Lemma append_empty (a : string) : a +:+ "" = a.
Proof.
  induction a as [|x a IH]; [reflexivity|].
  rewrite append_cons. f_equal. exact IH.
Qed.

(** Texts are put in the form [c1 (c2 (... +:+ rest))]. *)
Ltac string_norm :=
  repeat (rewrite append_assoc || rewrite append_cons || rewrite append_nil_l).

Lemma prepend_nil r : prepend [] r = r.
Proof. destruct r; reflexivity. Qed.

Lemma prepend_prepend a b r : prepend a (prepend b r) = prepend (a ++ b) r.
Proof. unfold prepend. simpl. now rewrite app_assoc. Qed.

Lemma lexRun_cons st c s :
  lexRun st (String c s) = prepend (fst (step st c)) (lexRun (snd (step st c)) s).
Proof. simpl. destruct (step st c). reflexivity. Qed.

Lemma stepIdle_letter c :
  isLetter c = true -> stepIdle c = ([], InIdent (String c "")).
Proof.
  destruct c as [[] [] [] [] [] [] [] []]; intros H;
    try discriminate H; reflexivity.
Qed.

Lemma lexRun_identChars s : forall acc rest,
  allChars isIdentChar s = true ->
  lexRun (InIdent acc) (s +:+ rest) = lexRun (InIdent (acc +:+ s)) rest.
Proof.
  induction s as [|c s IH]; intros acc rest H; simpl in H.
  - now rewrite append_empty.
  - apply andb_true_iff in H as [Hc Hs].
    rewrite append_cons, lexRun_cons. cbn [step]. rewrite Hc. cbn [fst snd].
    rewrite prepend_nil, (IH _ _ Hs). unfold snoc.
    now rewrite append_assoc.
Qed.

Lemma lexRun_ident name rest :
  isIdent name = true ->
  lexRun Idle (name +:+ rest) = lexRun (InIdent name) rest.
Proof.
  intros H. apply andb_true_iff in H as [_ H].
  destruct name as [|c s]; [discriminate|].
  apply andb_true_iff in H as [Hc Hs].
  rewrite append_cons, lexRun_cons. cbn [step].
  rewrite (stepIdle_letter _ Hc). cbn [fst snd].
  rewrite prepend_nil. apply (lexRun_identChars s (String c "") rest Hs).
Qed.

Lemma pre_flush t : pre t ++ flush (endState t) = tokensOf t.
Proof. destruct t; simpl; rewrite ?app_nil_r; reflexivity. Qed.

Lemma lexRun_end_space t rest :
  lexRun (endState t) (String " " rest) = prepend (flush (endState t)) (lexRun Idle rest).
Proof. destruct t; reflexivity. Qed.

Lemma lexRun_end_newline t rest :
  lexRun (endState t) (String "010" rest)
  = prepend (flush (endState t) ++ [TokNewline]) (lexRun Idle rest).
Proof. destruct t; reflexivity. Qed.

(** One character of a text whose reader state is known. *)
Ltac lex_step :=
  rewrite lexRun_cons;
  match goal with
  | |- context [step ?st ?c] =>
      let r := eval cbv in (step st c) in change (step st c) with r
  end;
  cbn [fst snd]; rewrite ?prepend_nil.

Ltac close_tokens e :=
  cbn [pre tokensOf endState]; rewrite <- (pre_flush e);
  cbn [app]; rewrite <- ?app_assoc; cbn [app]; reflexivity.

Lemma newTextForType_object attrs :
  newTextForType (TObject attrs) = "{" +:+ LF +:+ objectMembersText attrs +:+ "}".
Proof. reflexivity. Qed.

Lemma tokensOf_object attrs :
  tokensOf (TObject attrs)
  = TokOBrace :: TokNewline :: objectMemberTokens attrs ++ [TokCBrace].
Proof. reflexivity. Qed.

Lemma valued_object_cons name valType attrs :
  valued (TObject ((name, valType) :: attrs))
  = isIdent name && valued valType && valued (TObject attrs).
Proof. reflexivity. Qed.

Lemma lex_text t :
  readable t = true ->
  forall rest,
    lexRun Idle (newTextForType t +:+ rest) = prepend (pre t) (lexRun (endState t) rest).
Proof.
  induction t as [| | | |e IH|e IH|e IH|es IH|attrs IH] using ctyType_nested_ind;
    intros Hr rest.
  - cbn [newTextForType]. string_norm. repeat lex_step. reflexivity.
  - cbn [newTextForType]. string_norm. lex_step. reflexivity.
  - cbn [newTextForType]. string_norm. repeat lex_step. reflexivity.
  - cbn [newTextForType]. string_norm. now rewrite prepend_nil.
  - cbn [newTextForType]. string_norm. repeat lex_step.
    rewrite (IH Hr), lexRun_end_space. lex_step.
    rewrite !prepend_prepend. f_equal.
    close_tokens e.
  - cbn [newTextForType]. string_norm. repeat lex_step.
    rewrite (IH Hr), lexRun_end_space. lex_step.
    rewrite !prepend_prepend. f_equal.
    close_tokens e.
  - assert (He : readable e = true).
    { unfold readable. cbn in Hr. rewrite Hr. apply orb_true_r. }
    cbn [newTextForType]. unfold LF. string_norm. repeat lex_step.
    rewrite (IH He), lexRun_end_newline. lex_step.
    rewrite !prepend_prepend. f_equal.
    close_tokens e.
  - destruct es as [|e [|e2 es]]; [| |discriminate Hr].
    + cbn [newTextForType]. unfold LF. string_norm. repeat lex_step. reflexivity.
    + apply Forall_inv in IH.
      cbn [newTextForType]. string_norm. repeat lex_step.
      rewrite (IH Hr), lexRun_end_space. lex_step.
      rewrite !prepend_prepend. f_equal.
      close_tokens e.
  - rewrite newTextForType_object. unfold LF. string_norm. repeat lex_step.
    change (pre (TObject attrs)) with (tokensOf (TObject attrs)).
    rewrite tokensOf_object. cbn [endState].
    assert (Hm : forall rest',
               lexRun Idle (objectMembersText attrs +:+ rest')
               = prepend (objectMemberTokens attrs) (lexRun Idle rest')).
    { change (readable (TObject attrs)) with (valued (TObject attrs)) in Hr.
      clear rest. induction IH as [|[name valType] attrs Hx _ IHattrs];
        intros rest'.
      - cbn [objectMembersText objectMemberTokens]. string_norm.
        now rewrite prepend_nil.
      - rewrite valued_object_cons in Hr.
        apply andb_true_iff in Hr as [Hr Hattrs].
        apply andb_true_iff in Hr as [Hname Hval].
        assert (Hrv : readable valType = true)
          by (unfold readable; rewrite Hval; apply orb_true_r).
        cbn [objectMembersText objectMemberTokens]. unfold LF. string_norm.
        repeat lex_step. rewrite (lexRun_ident _ _ Hname). repeat lex_step.
        cbn [snd] in Hx. rewrite (Hx Hrv), lexRun_end_newline.
        rewrite (IHattrs Hattrs). rewrite !prepend_prepend. f_equal.
        close_tokens valType. }
    rewrite Hm. lex_step. rewrite !prepend_prepend. f_equal.
Qed.

Lemma lex_newText t :
  readable t = true -> lex (newTextForType t) = tokensOf t.
Proof.
  intros Hr. unfold lex.
  rewrite <- (append_empty (newTextForType t)), (lex_text t Hr "").
  cbn [lexRun prepend fst snd]. rewrite app_nil_r. apply pre_flush.
Qed.

Lemma skeleton_object attrs :
  skeleton (TObject attrs) = [ObjectConsExpr (objectMembers attrs) noRange].
Proof. reflexivity. Qed.

Lemma skeleton_valued t : valued t = true -> exists e, skeleton t = [e].
Proof. destruct t; simpl; intros H; try discriminate; eauto. Qed.

Lemma skeleton_readable t :
  readable t = true -> skeleton t = [] \/ exists e, skeleton t = [e].
Proof. destruct t; simpl; intros H; eauto. Qed.

Lemma run_deliver e f below rest :
  valueDue f ->
  match deliver e f with
  | Some g => run (g :: below) rest
  | None => None
  end = run (receive [e] f :: below) rest.
Proof.
  intros Hf. destruct f as [[e0|]|its [|]|its [|k|k|]]; try contradiction;
    reflexivity.
Qed.

Lemma run_close_tuple items st f below rest :
  valueDue f ->
  run (FTuple items st :: f :: below) (TokCBrack :: rest)
  = run (receive [TupleConsExpr items noRange] f :: below) rest.
Proof.
  intros Hf. destruct f as [[e|]|its [|]|its [|k|k|]]; try contradiction;
    reflexivity.
Qed.

Lemma run_close_object items f below rest :
  valueDue f ->
  run (FObject items KeyDue :: f :: below) (TokCBrace :: rest)
  = run (receive [ObjectConsExpr items noRange] f :: below) rest.
Proof.
  intros Hf. destruct f as [[e|]|its [|]|its [|k|k|]]; try contradiction;
    reflexivity.
Qed.

Lemma run_scalar tok e f below rest :
  valueDue f -> scalar tok = Some e ->
  run (f :: below) (tok :: rest) = run (receive [e] f :: below) rest.
Proof.
  intros Hf He.
  destruct tok; try discriminate He; injection He as <-;
    destruct f as [[e0|]|its [|]|its [|k|k|]]; try contradiction; reflexivity.
Qed.

Lemma startsFor_text t rest :
  readable t = true -> startsFor (tokensOf t ++ TokCBrack :: rest) = false.
Proof. destruct t as [| | | | | | |[|e [|e2 es]]|]; intros H; reflexivity. Qed.

Lemma startsFor_members attrs rest :
  valued (TObject attrs) = true ->
  startsFor (TokNewline :: objectMemberTokens attrs ++ TokCBrace :: rest) = false.
Proof.
  destruct attrs as [|[name valType] attrs]; [reflexivity|].
  rewrite valued_object_cons. intros H.
  apply andb_true_iff in H as [H _]. apply andb_true_iff in H as [H _].
  apply andb_true_iff in H as [H _]. cbn [startsFor objectMemberTokens app].
  now apply negb_true_iff in H.
Qed.

Lemma run_text t :
  readable t = true ->
  forall f below rest,
    valueDue f ->
    run (f :: below) (tokensOf t ++ rest) = run (receive (skeleton t) f :: below) rest.
Proof.
  induction t as [| | | |e IH|e IH|e IH|es IH|attrs IH] using ctyType_nested_ind;
    intros Hr f below rest Hf.
  - apply run_scalar; auto.
  - apply run_scalar; auto.
  - apply run_scalar; auto.
  - reflexivity.
  - cbn [tokensOf app]. rewrite <- app_assoc. cbn [app run].
    rewrite (startsFor_text e rest Hr), (IH Hr) by exact I.
    destruct (skeleton_readable e Hr) as [E|[x E]]; rewrite E;
      cbn [receive deliver app]; rewrite run_close_tuple by exact Hf;
      cbn [skeleton]; rewrite E; reflexivity.
  - cbn [tokensOf app]. rewrite <- app_assoc. cbn [app run].
    rewrite (startsFor_text e rest Hr), (IH Hr) by exact I.
    destruct (skeleton_readable e Hr) as [E|[x E]]; rewrite E;
      cbn [receive deliver app]; rewrite run_close_tuple by exact Hf;
      cbn [skeleton]; rewrite E; reflexivity.
  - assert (He : readable e = true).
    { unfold readable. cbn in Hr. rewrite Hr. apply orb_true_r. }
    assert (Hv : valued e = true) by exact Hr.
    cbn [tokensOf app]. rewrite <- app_assoc. cbn [app run keyName startsFor].
    rewrite (IH He) by exact I.
    destruct (skeleton_valued e Hv) as [x E]. rewrite E.
    cbn [receive deliver app run]. rewrite run_deliver by exact Hf.
    cbn [skeleton]. rewrite E. reflexivity.
  - destruct es as [|e [|e2 es]]; [| |discriminate Hr].
    + cbn [tokensOf app run startsFor]. rewrite run_deliver by exact Hf.
      reflexivity.
    + apply Forall_inv in IH.
      cbn [tokensOf app]. rewrite <- app_assoc. cbn [app run].
      rewrite (startsFor_text e rest Hr), (IH Hr) by exact I.
      destruct (skeleton_readable e Hr) as [E|[x E]]; rewrite E;
        cbn [receive deliver app]; rewrite run_close_tuple by exact Hf;
        cbn [skeleton]; rewrite E; reflexivity.
  - change (readable (TObject attrs)) with (valued (TObject attrs)) in Hr.
    rewrite tokensOf_object, skeleton_object. cbn [app]. rewrite <- app_assoc.
    cbn [app]. cbn [run]. rewrite (startsFor_members attrs rest Hr). cbn [run].
    assert (Hm : forall items toks,
               run (FObject items KeyDue :: f :: below)
                   (objectMemberTokens attrs ++ toks)
               = run (FObject (items ++ objectMembers attrs) KeyDue :: f :: below)
                     toks).
    { induction IH as [|[name valType] attrs Hx _ IHattrs]; intros items toks.
      - cbn [objectMemberTokens objectMembers app]. now rewrite app_nil_r.
      - rewrite valued_object_cons in Hr.
        apply andb_true_iff in Hr as [Hr Hattrs].
        apply andb_true_iff in Hr as [Hname Hval].
        assert (Hrv : readable valType = true)
          by (unfold readable; rewrite Hval; apply orb_true_r).
        cbn [objectMemberTokens objectMembers app]. rewrite <- app_assoc.
        cbn [app run keyName]. cbn [snd] in Hx.
        rewrite (Hx Hrv) by exact I.
        destruct (skeleton_valued valType Hval) as [x E]. rewrite E.
        cbn [receive deliver run map app].
        rewrite (IHattrs Hattrs), <- app_assoc. reflexivity. }
    rewrite Hm. cbn [app]. apply run_close_object, Hf.
Qed.

Lemma ParseExpression_newText t e :
  valued t = true -> skeleton t = [e] ->
  ParseExpression (newTextForType t) = Some e.
Proof.
  intros Hv He. unfold ParseExpression.
  assert (Hr : readable t = true)
    by (unfold readable; rewrite Hv; apply orb_true_r).
  rewrite (lex_newText t Hr), <- (app_nil_r (tokensOf t)).
  rewrite (run_text t Hr) by exact I. rewrite He. reflexivity.
Qed.

Lemma skeleton_resolves quote bigFloatString t e :
  isCompound t = true -> skeleton t = [e] ->
  Engine.select e [LiteralTypeExpr t] = Engine.Matched t
  /\ exists content,
       hoverContentForExpr quote bigFloatString e [LiteralTypeExpr t] = Ret content.
Proof.
  intros Hc He.
  destruct t as [| | | |el|el|el|els|attrs]; try discriminate Hc;
    cbn [skeleton] in He; injection He as <-; (split; [reflexivity|]).
  - eexists. reflexivity.
  - eexists. reflexivity.
  - eexists. reflexivity.
  - eexists. reflexivity.
  - destruct attrs; eexists; reflexivity.
Qed.

(** The structural candidate of a map of the dynamic pseudo-type and the
    text it inserts. *)
Example map_of_dynamic_candidate :
  typeToCandidates sampleQuote sampleFloat (TMap DynamicPseudoType) sampleRange
  = Ret [mkCandidate
           ("{ " +:+ String "034" "key" +:+ String "034" " = dynamic }")
           "map of dynamic" NoMarkup LiteralValueCandidateKind
           (mkTextEdit
              ("{" +:+ LF +:+ "  " +:+ String "034" "key" +:+ String "034" " = "
                   +:+ LF +:+ "}")
              ("{" +:+ LF +:+ "  " +:+ String "034" "${1:key}" +:+ String "034" " = ${2}"
                   +:+ LF +:+ "}")
              sampleRange)].
Proof. vm_compute. reflexivity. Qed.

(** C7 as stated fails: the text generated for a map of the dynamic
    pseudo-type has a key without a value and is not read back as an
    expression. *)
Lemma map_of_dynamic_counterexample :
  isCompound (TMap DynamicPseudoType) = true
  /\ newTextForType (TMap DynamicPseudoType)
     = "{" +:+ LF +:+ "  " +:+ String "034" "key" +:+ String "034" " = " +:+ LF +:+ "}"
  /\ ParseExpression (newTextForType (TMap DynamicPseudoType)) = None.
Proof. vm_compute. repeat split. Qed.

(** The members of a tuple of two are written side by side, without a
    separator, and the text is not read back either. *)
Example tuple_of_two_not_read_back :
  newTextForType (TTuple [TString; TNumber])
  = "[" +:+ LF +:+ String "034" (String "034" "1]")
  /\ ParseExpression (newTextForType (TTuple [TString; TNumber])) = None.
Proof. vm_compute. split; reflexivity. Qed.

(** C7, amended. For every compound type whose text leaves no value empty
    and sets no two members side by side (the dynamic pseudo-type occurs
    at most as the element of a list or set or as the only member of a
    tuple, no tuple has two members or more, and the attribute names of
    objects are identifiers other than [for]), the insertion text of its
    candidate is read back as an expression, a sequence construction for
    a list, set or tuple and a keyed construction for a map or object,
    and the engine matches it with the constraint of that type: the
    selection is that type and the hover text is rendered without
    error. *)
Theorem skeleton_reads_back_and_resolves
  (quote : string -> string) (bigFloatString : Z -> positive -> string)
  (formatFloat64 : Z -> positive -> string) (editRng : Range) (t : ctyType) :
  isCompound t = true ->
  valued t = true ->
  exists cand e,
    typeToCandidates quote formatFloat64 t editRng = Ret [cand]
    /\ NewText (Edit cand) = newTextForType t
    /\ ParseExpression (NewText (Edit cand)) = Some e
    /\ skeleton t = [e]
    /\ Engine.select e [LiteralTypeExpr t] = Engine.Matched t
    /\ exists content,
         hoverContentForExpr quote bigFloatString e [LiteralTypeExpr t] = Ret content.
Proof.
  intros Hc Hv. destruct (skeleton_valued t Hv) as [e He].
  eexists. exists e. split.
  - unfold typeToCandidates.
    destruct t; try discriminate Hc; reflexivity.
  - cbn [NewText Edit]. split; [reflexivity|].
    split; [apply ParseExpression_newText; assumption|].
    split; [exact He|]. apply skeleton_resolves; assumption.
Qed.

Lemma skeleton_reads_back_and_resolves_witness :
  exists e,
    ParseExpression (newTextForType (TObject [("name", TString); ("tags", TMap TBool)]))
    = Some e
    /\ Engine.select e [LiteralTypeExpr (TObject [("name", TString); ("tags", TMap TBool)])]
       = Engine.Matched (TObject [("name", TString); ("tags", TMap TBool)]).
Proof.
  destruct (skeleton_reads_back_and_resolves sampleQuote sampleBigFloat sampleFloat
              sampleRange (TObject [("name", TString); ("tags", TMap TBool)]))
    as (cand & e & Hc & Ht & Hp & _ & Hs & _); [reflexivity|reflexivity|].
  exists e. rewrite Ht in Hp. split; [exact Hp|exact Hs].
Defined.

End ReaderProps.

(** ** Hover at a position *)

Module HoverFacts.

Import Hovering.

Section Facts.

Variable quote : string -> string.
Variable bigFloatString : Z -> positive -> string.
Variable detailForAttribute : AttributeSchema -> string.
Variable detailForBlock : BlockSchema -> string.
Variable docsURL : string -> string -> option (string * string).
Variable isPosOutsideBody : Block -> Pos -> bool.

Local Abbreviation hover :=
  (hoverAtPos quote bigFloatString detailForAttribute detailForBlock docsURL
     isPosOutsideBody).
Local Abbreviation attrLoop := (hoverAttributes quote bigFloatString detailForAttribute).
Local Abbreviation blockLoop :=
  (hoverBlocks quote bigFloatString detailForAttribute detailForBlock docsURL
     isPosOutsideBody).
Local Abbreviation oneBlock :=
  (hoverBlock quote bigFloatString detailForAttribute detailForBlock docsURL
     isPosOutsideBody).

Lemma hoverAtPos_unfold body schema pos :
  hover body (Some schema) pos =
  match attrLoop (Filename (BodyRange body)) schema pos (Attributes body) with
  | Some r => r
  | None => blockLoop (Filename (BodyRange body)) schema pos (Blocks body)
  end.
Proof.
  destruct body as [attrs blocks rng]. cbn [hoverAtPos Attributes Blocks BodyRange].
  destruct (attrLoop (Filename rng) schema pos attrs); [reflexivity|].
  induction blocks as [|block blocks IH]; [reflexivity|].
  cbn [hoverBlocks]. unfold hoverBlock at 1. rewrite <- IH. clear IH.
  destruct (ContainsPos (BlockRange block) pos); [|reflexivity].
  destruct (SchemaBlocks schema !! BlockType block) as [bs|]; [|reflexivity].
  destruct (ContainsPos (TypeRange block) pos); [reflexivity|].
  destruct (hoverLabels quote docsURL (Filename rng) block bs pos 0 (LabelRanges block));
    [reflexivity|].
  destruct (isPosOutsideBody block pos); [reflexivity|].
  destruct (BlockBody block) as [b|]; [|reflexivity].
  destruct (ContainsPos (BodyRange b) pos); reflexivity.
Qed.

Lemma hoverAttributes_passed filename schema pos before rest :
  Forall (attributePassed schema pos) before ->
  attrLoop filename schema pos (before ++ rest) = attrLoop filename schema pos rest.
Proof.
  induction 1 as [|[name attr] before Hx _ IH]; [reflexivity|].
  cbn [app hoverAttributes].
  destruct Hx as [Hx|(Hs & Hn & He)]; cbn [snd] in *.
  - rewrite Hx. exact IH.
  - destruct (ContainsPos (AttrSrcRange attr) pos); [|exact IH].
    destruct (attrSchemaFor schema (AttrName attr)); [|contradiction].
    rewrite Hn, He. exact IH.
Qed.

Lemma hoverAttributes_all_passed filename schema pos attrs :
  Forall (attributePassed schema pos) attrs ->
  attrLoop filename schema pos attrs = None.
Proof.
  intros H. rewrite <- (app_nil_r attrs).
  now rewrite hoverAttributes_passed.
Qed.

Lemma hoverBlocks_outside filename schema pos before rest :
  Forall (fun b => ContainsPos (BlockRange b) pos = false) before ->
  blockLoop filename schema pos (before ++ rest) = blockLoop filename schema pos rest.
Proof.
  induction 1 as [|b before Hb _ IH]; [reflexivity|].
  cbn [app hoverBlocks]. unfold hoverBlock. rewrite Hb. exact IH.
Qed.

Lemma hoverContentForValueAndType_plain val t e :
  hoverContentForValueAndType quote bigFloatString val t = Fail e ->
  exists msg, e = PlainError msg.
Proof.
  unfold hoverContentForValueAndType.
  destruct t as [| | | |el|el|el|els|[|a attrs]]; cbn;
    try discriminate; try (intros [= <-]; eauto; fail);
    destruct val; cbn; discriminate.
Qed.

Lemma hoverContentForExpr_plain e cs err :
  hoverContentForExpr quote bigFloatString e cs = Fail err ->
  exists msg, err = PlainError msg.
Proof.
  revert e err. fix IH 1.
  intros [val r|parts r|w r|es r|items r|k r] err; cbn [hoverContentForExpr].
  - destruct (literalExprForType (ValueType val) cs).
    + apply hoverContentForValueAndType_plain.
    + intros [= <-]. eexists; reflexivity.
  - destruct parts as [|part [|p2 parts]]; try (intros [= <-]; eexists; reflexivity).
    apply IH.
  - apply IH.
  - destruct (listTypeLiteralConstraint cs);
      [apply hoverContentForValueAndType_plain|].
    destruct (setTypeLiteralConstraint cs);
      [apply hoverContentForValueAndType_plain|].
    destruct (tupleTypeLiteralConstraint cs);
      [apply hoverContentForValueAndType_plain|].
    intros [= <-]. eexists; reflexivity.
  - destruct (objectTypeLiteralConstraint cs);
      [apply hoverContentForValueAndType_plain|].
    destruct (mapTypeLiteralConstraint cs);
      [apply hoverContentForValueAndType_plain|].
    intros [= <-]. eexists; reflexivity.
  - intros [= <-]. eexists; reflexivity.
Qed.

Lemma hoverAttributes_answers filename schema pos attrs r :
  attrLoop filename schema pos attrs = Some r -> answersAt pos r.
Proof.
  induction attrs as [|[name attr] attrs IH]; [discriminate|].
  cbn [hoverAttributes].
  destruct (ContainsPos (AttrSrcRange attr) pos) eqn:Ha; [|exact IH].
  destruct (attrSchemaFor schema (AttrName attr)) as [aSchema|].
  - destruct (ContainsPos (NameRange attr) pos).
    + intros [= <-]. exact Ha.
    + destruct (ContainsPos (ExprRange (AttrExpr attr)) pos) eqn:He; [|exact IH].
      intros [= <-].
      destruct (hoverContentForExpr quote bigFloatString (AttrExpr attr) (Expr aSchema))
        as [c|[]|]; cbn; auto.
  - intros [= <-]. exact I.
Qed.

Lemma hoverLabels_answers filename block bSchema pos ranges : forall i r,
  hoverLabels quote docsURL filename block bSchema pos i ranges = Some r ->
  answersAt pos r.
Proof.
  induction ranges as [|labelRange ranges IH]; intros i r; cbn [hoverLabels];
    [discriminate|].
  destruct (ContainsPos labelRange pos) eqn:Hl; [|apply IH].
  destruct (length (SchemaLabels bSchema) <? i + 1)%nat.
  - intros [= <-]. destruct (nth_error (Labels block) i); exact I.
  - intros [= <-].
    destruct (hoverContentForLabel quote docsURL i block bSchema); cbn; auto.
Qed.

Lemma hoverAtPos_answers body : forall schema pos,
  answersAt pos (hover body (Some schema) pos).
Proof.
  induction body as [attrs blocks rng IH] using TokensProps.Body_nested_ind.
  intros schema pos. rewrite hoverAtPos_unfold. cbn [Attributes Blocks BodyRange].
  destruct (attrLoop (Filename rng) schema pos attrs) as [r|] eqn:Ha.
  - eapply hoverAttributes_answers, Ha.
  - clear Ha. induction IH as [|block blocks Hb _ IHb]; cbn [hoverBlocks]; [exact I|].
    unfold hoverBlock.
    destruct (ContainsPos (BlockRange block) pos); [|exact IHb].
    destruct (SchemaBlocks schema !! BlockType block) as [bs|]; [|exact I].
    destruct (ContainsPos (TypeRange block) pos) eqn:Ht; [exact Ht|].
    destruct (hoverLabels quote docsURL (Filename rng) block bs pos 0 (LabelRanges block))
      as [r|] eqn:Hl; [eapply hoverLabels_answers, Hl|].
    destruct (isPosOutsideBody block pos); [exact I|].
    destruct (BlockBody block) as [b|]; [|exact IHb].
    destruct (ContainsPos (BodyRange b) pos); [|exact IHb].
    destruct (mergeBlockBodySchemas block bs) as [m| |]; cbn [Go.bind];
      [apply Hb|exact I|exact I].
Qed.

Lemma hoverLabels_within filename block bSchema pos before r after : forall i,
  Forall (fun r => ContainsPos r pos = false) before ->
  ContainsPos r pos = true ->
  (i + length before < length (SchemaLabels bSchema))%nat ->
  hoverLabels quote docsURL filename block bSchema pos i (before ++ r :: after)
  = Some (let! content := hoverContentForLabel quote docsURL (i + length before)
                            block bSchema in
          Ret (Some (mkHoverData content r))).
Proof.
  intros i Hb Hr. revert i.
  induction Hb as [|r0 before H0 _ IH]; intros i Hlen; cbn [app hoverLabels length] in *.
  - rewrite Nat.add_0_r in *. rewrite Hr.
    assert (E : (length (SchemaLabels bSchema) <? i + 1)%nat = false)
      by (apply Nat.ltb_ge; lia).
    rewrite E. reflexivity.
  - rewrite H0.
    replace (i + S (length before))%nat with (S i + length before)%nat in * by lia.
    apply IH; auto.
Qed.

Lemma hoverContentForLabel_markdown i block bSchema :
  (i < length (Labels block))%nat ->
  (i < length (SchemaLabels bSchema))%nat ->
  exists text, hoverContentForLabel quote docsURL i block bSchema = Ret (Markdown text).
Proof.
  intros Hl Hs. unfold hoverContentForLabel.
  destruct (nth_error (Labels block) i) as [value|] eqn:El;
    [|apply nth_error_None in El; lia].
  destruct (nth_error (SchemaLabels bSchema) i) as [labelSchema|] eqn:Es;
    [|apply nth_error_None in Es; lia].
  destruct (if IsDepKey labelSchema
            then DependentBodySchema bSchema (dependencyKeysFromBlock block bSchema)
            else None); eexists; reflexivity.
Qed.

Lemma hoverContentForExpr_unwrap e cs :
  hoverContentForExpr quote bigFloatString e cs
  = hoverContentForExpr quote bigFloatString (Engine.unwrap e) cs.
Proof.
  revert e. fix IH 1.
  intros [val r|parts r|w r|es r|items r|k r]; cbn [hoverContentForExpr Engine.unwrap];
    try reflexivity.
  - destruct parts as [|part [|p2 parts]]; try reflexivity. apply IH.
  - apply IH.
Qed.

Lemma literalExprForType_declared vt cs :
  In (LiteralTypeExpr vt) cs -> literalExprForType vt cs = Some vt.
Proof.
  intros H. rewrite EngineProps.literalExpr_firstOfKind.
  now apply EngineProps.firstOfKind_declared.
Qed.

(** X1. Whatever position is asked, hover data returned for a body under
    a schema, and so by the hover query of a file, is over a range that
    holds the position: the range of the attribute, of its value, of the
    block type or of the label found there, at any depth of nesting. *)
Theorem hover_range_holds_position :
  (forall body schema pos h,
      hover body (Some schema) pos = Ret (Some h) ->
      ContainsPos (HoverRange h) pos = true)
  /\ (forall d filename pos h,
        HoverAtPos quote bigFloatString detailForAttribute detailForBlock docsURL
          isPosOutsideBody d filename pos = Ret (Some h) ->
        ContainsPos (HoverRange h) pos = true).
Proof.
  split.
  - intros body schema pos h H.
    pose proof (hoverAtPos_answers body schema pos) as A.
    rewrite H in A. exact A.
  - intros d filename pos h. unfold HoverAtPos.
    destruct (fileByName d filename) as [f| |]; cbn [Go.bind]; try discriminate.
    destruct (bodyForFileAndPos filename f pos) as [body| |]; cbn [Go.bind];
      try discriminate.
    destruct (rootSchema d) as [schema|]; [|discriminate].
    intros H. pose proof (hoverAtPos_answers body schema pos) as A.
    rewrite H in A. exact A.
Qed.

(** X2. At a position in the name of an attribute that has a schema (its
    own entry or the fallback for any attribute), every attribute ranged
    over before it being passed by, hover returns the content for the
    attribute over the range of the whole attribute. *)
Theorem hover_attribute_name body schema pos before name attr rest aSchema :
  Attributes body = before ++ (name, attr) :: rest ->
  Forall (attributePassed schema pos) before ->
  ContainsPos (AttrSrcRange attr) pos = true ->
  attrSchemaFor schema (AttrName attr) = Some aSchema ->
  ContainsPos (NameRange attr) pos = true ->
  hover body (Some schema) pos
  = Ret (Some (mkHoverData (hoverContentForAttribute detailForAttribute name aSchema)
                           (AttrSrcRange attr))).
Proof.
  intros Hattrs Hbefore Ha Hs Hn.
  rewrite hoverAtPos_unfold, Hattrs, hoverAttributes_passed by assumption.
  cbn [hoverAttributes]. rewrite Ha, Hs, Hn. reflexivity.
Qed.

(** X3. At a position in an attribute that has no entry in the schema,
    the schema having no fallback for any attribute, hover fails with a
    positional error at the position asked that names the attribute. *)
Theorem hover_unknown_attribute body schema pos before name attr rest :
  Attributes body = before ++ (name, attr) :: rest ->
  Forall (attributePassed schema pos) before ->
  ContainsPos (AttrSrcRange attr) pos = true ->
  SchemaAttributes schema !! AttrName attr = None ->
  AnyAttribute schema = None ->
  hover body (Some schema) pos
  = Fail (PositionalError (Filename (BodyRange body)) pos
            ("unknown attribute " +:+ quote (AttrName attr))).
Proof.
  intros Hattrs Hbefore Ha Hs Hany.
  rewrite hoverAtPos_unfold, Hattrs, hoverAttributes_passed by assumption.
  cbn [hoverAttributes]. unfold attrSchemaFor. rewrite Ha, Hs, Hany. reflexivity.
Qed.

(** X4. At a position in the value of an attribute with a schema, and not
    in its name, hover returns the content for the expression over the
    range of the expression; when there is no content for the expression
    the error is a plain one, and hover fails with a positional error at
    the position asked that carries its message. *)
Theorem hover_attribute_value body schema pos before name attr rest aSchema :
  Attributes body = before ++ (name, attr) :: rest ->
  Forall (attributePassed schema pos) before ->
  ContainsPos (AttrSrcRange attr) pos = true ->
  attrSchemaFor schema (AttrName attr) = Some aSchema ->
  ContainsPos (NameRange attr) pos = false ->
  ContainsPos (ExprRange (AttrExpr attr)) pos = true ->
  match hoverContentForExpr quote bigFloatString (AttrExpr attr) (Expr aSchema) with
  | Ret content =>
      hover body (Some schema) pos
      = Ret (Some (mkHoverData content (ExprRange (AttrExpr attr))))
  | Fail e =>
      exists msg,
        e = PlainError msg
        /\ hover body (Some schema) pos
           = Fail (PositionalError (Filename (BodyRange body)) pos msg)
  | Panic => hover body (Some schema) pos = Panic
  end.
Proof.
  intros Hattrs Hbefore Ha Hs Hn He.
  rewrite hoverAtPos_unfold, Hattrs, hoverAttributes_passed by assumption.
  cbn [hoverAttributes]. rewrite Ha, Hs, Hn, He.
  destruct (hoverContentForExpr quote bigFloatString (AttrExpr attr) (Expr aSchema))
    as [c|e|] eqn:Hc; try reflexivity.
  destruct (hoverContentForExpr_plain _ _ _ Hc) as [msg ->]. eauto.
Qed.

(** X5. At a position in a block of a type the schema does not declare,
    no attribute answering and every block before it being elsewhere,
    hover fails with a positional error at the position asked that names
    the block type. *)
Theorem hover_unknown_block_type body schema pos before block rest :
  Forall (attributePassed schema pos) (Attributes body) ->
  Blocks body = before ++ block :: rest ->
  Forall (fun b => ContainsPos (BlockRange b) pos = false) before ->
  ContainsPos (BlockRange block) pos = true ->
  SchemaBlocks schema !! BlockType block = None ->
  hover body (Some schema) pos
  = Fail (PositionalError (Filename (BodyRange body)) pos
            ("unknown block type " +:+ quote (BlockType block))).
Proof.
  intros Hattrs Hblocks Hbefore Hb Hs.
  rewrite hoverAtPos_unfold, hoverAttributes_all_passed, Hblocks,
    hoverBlocks_outside by assumption.
  cbn [hoverBlocks]. unfold hoverBlock. rewrite Hb, Hs. reflexivity.
Qed.

(** X6. At a position in the type keyword of a block the schema declares,
    hover returns the content for the block over the range of the
    keyword. *)
Theorem hover_block_type body schema pos before block rest bSchema :
  Forall (attributePassed schema pos) (Attributes body) ->
  Blocks body = before ++ block :: rest ->
  Forall (fun b => ContainsPos (BlockRange b) pos = false) before ->
  ContainsPos (BlockRange block) pos = true ->
  SchemaBlocks schema !! BlockType block = Some bSchema ->
  ContainsPos (TypeRange block) pos = true ->
  hover body (Some schema) pos
  = Ret (Some (mkHoverData (hoverContentForBlock detailForBlock (BlockType block) bSchema)
                           (TypeRange block))).
Proof.
  intros Hattrs Hblocks Hbefore Hb Hs Ht.
  rewrite hoverAtPos_unfold, hoverAttributes_all_passed, Hblocks,
    hoverBlocks_outside by assumption.
  cbn [hoverBlocks]. unfold hoverBlock. rewrite Hb, Hs, Ht. reflexivity.
Qed.

(** X7. At a position that no attribute answers and no block holds, as
    everywhere in a body without attributes and blocks, hover fails with
    a positional error at the position asked. *)
Theorem hover_outside_everything body schema pos :
  Forall (attributePassed schema pos) (Attributes body) ->
  Forall (fun b => ContainsPos (BlockRange b) pos = false) (Blocks body) ->
  hover body (Some schema) pos
  = Fail (PositionalError (Filename (BodyRange body)) pos
            "position outside of any attribute name, value or block").
Proof.
  intros Hattrs Hblocks.
  rewrite hoverAtPos_unfold, hoverAttributes_all_passed by assumption.
  rewrite <- (app_nil_r (Blocks body)), hoverBlocks_outside by assumption.
  reflexivity.
Qed.

(** X8. At a position in a label of a declared block, the index of the
    label being within the labels of the block schema and of the block,
    hover returns markdown content for the label over the range of that
    label. *)
Theorem hover_block_label body schema pos before block rest bSchema
  lbefore labelRange lafter :
  Forall (attributePassed schema pos) (Attributes body) ->
  Blocks body = before ++ block :: rest ->
  Forall (fun b => ContainsPos (BlockRange b) pos = false) before ->
  ContainsPos (BlockRange block) pos = true ->
  SchemaBlocks schema !! BlockType block = Some bSchema ->
  ContainsPos (TypeRange block) pos = false ->
  LabelRanges block = lbefore ++ labelRange :: lafter ->
  Forall (fun r => ContainsPos r pos = false) lbefore ->
  ContainsPos labelRange pos = true ->
  (length lbefore < length (SchemaLabels bSchema))%nat ->
  (length lbefore < length (Labels block))%nat ->
  exists text,
    hoverContentForLabel quote docsURL (length lbefore) block bSchema
    = Ret (Markdown text)
    /\ hover body (Some schema) pos
       = Ret (Some (mkHoverData (Markdown text) labelRange)).
Proof.
  intros Hattrs Hblocks Hbefore Hb Hs Ht Hranges Hlb Hl Hlen1 Hlen2.
  destruct (hoverContentForLabel_markdown _ block bSchema Hlen2 Hlen1) as [text Htext].
  exists text. split; [exact Htext|].
  rewrite hoverAtPos_unfold, hoverAttributes_all_passed, Hblocks,
    hoverBlocks_outside by assumption.
  cbn [hoverBlocks]. unfold hoverBlock. rewrite Hb, Hs, Ht, Hranges.
  rewrite (hoverLabels_within _ _ _ _ _ _ _ 0%nat Hlb Hl) by (cbn; lia).
  cbn [Nat.add]. rewrite Htext. reflexivity.
Qed.

(** X9. The hover content of a literal with a known value of a primitive
    type that is among the declared literal types, also inside a one-part
    template or a template wrapper, is the text of the value between
    backquotes followed by the name of the type in italics. *)
Theorem hover_literal_content e cs val rng text :
  Engine.unwrap e = LiteralValueExpr val rng ->
  In (LiteralTypeExpr (ValueType val)) cs ->
  literalText bigFloatString val = Some text ->
  hoverContentForExpr quote bigFloatString e cs
  = Ret (Markdown (("`" +:+ text +:+ "`") +:+ " _"
                   +:+ FriendlyName (ValueType val) +:+ "_")).
Proof.
  intros Hu Hin Htext. rewrite hoverContentForExpr_unwrap, Hu.
  cbn [hoverContentForExpr]. rewrite (literalExprForType_declared _ _ Hin).
  destruct val; try discriminate; injection Htext as <-; reflexivity.
Qed.


(** X11. Hover over a literal of the dynamic pseudo-type, such as the
    value that stands for a missing expression, never gives content: the
    type is reported as unsupported when it is among the declared literal
    types, and as without schema when it is not. *)
Theorem hover_dynamic_literal_fails e cs val rng :
  Engine.unwrap e = LiteralValueExpr val rng ->
  ValueType val = DynamicPseudoType ->
  hoverContentForExpr quote bigFloatString e cs
  = Fail (PlainError
            ((match literalExprForType DynamicPseudoType cs with
              | Some _ => "unsupported type: "
              | None => "no schema for literal type "
              end) +:+ quote "dynamic")).
Proof.
  intros Hu Ht. rewrite hoverContentForExpr_unwrap, Hu.
  cbn [hoverContentForExpr]. rewrite Ht.
  destruct (literalExprForType DynamicPseudoType cs) as [t|] eqn:E; [|reflexivity].
  rewrite EngineProps.literalExpr_firstOfKind in E.
  apply EngineProps.firstOfKind_sameType in E. subst t. reflexivity.
Qed.

(** X12. Hover over a sequence construction gives the name of a declared
    list, set or tuple type in italics when there is one among the
    literal types, and the unsupported-expression error when there is
    none; over a keyed construction it gives markdown content when an
    object or map type is among them, and the same error when not. The
    members of the construction play no part, and there is no panic. *)
Theorem hover_construction_by_declared_kind cs :
  (forall es rng,
      if existsb (fun t => IsListType t || IsSetType t || IsTupleType t)
                 (LiteralValueTypes cs)
      then exists t,
          In t (LiteralValueTypes cs)
          /\ IsListType t || IsSetType t || IsTupleType t = true
          /\ hoverContentForExpr quote bigFloatString (TupleConsExpr es rng) cs
             = Ret (Markdown ("_" +:+ FriendlyName t +:+ "_"))
      else hoverContentForExpr quote bigFloatString (TupleConsExpr es rng) cs
           = Fail (unsupportedExpression (TupleConsExpr es rng)))
  /\ (forall items rng,
        if existsb (fun t => IsObjectType t || IsMapType t) (LiteralValueTypes cs)
        then exists t text,
            In t (LiteralValueTypes cs)
            /\ IsObjectType t || IsMapType t = true
            /\ hoverContentForExpr quote bigFloatString (ObjectConsExpr items rng) cs
               = Ret (Markdown text)
        else hoverContentForExpr quote bigFloatString (ObjectConsExpr items rng) cs
             = Fail (unsupportedExpression (ObjectConsExpr items rng))).
Proof.
  assert (Hfound : forall isKind t,
             Engine.firstOfKind isKind cs = Some t ->
             In t (LiteralValueTypes cs) /\ isKind t = true)
    by (intros isKind t H; exact (List.find_some _ _ H)).
  assert (Hnone : forall isKind t,
             Engine.firstOfKind isKind cs = None ->
             In t (LiteralValueTypes cs) -> isKind t = false)
    by (intros isKind t H Hin; exact (List.find_none _ _ H _ Hin)).
  split.
  - intros es rng. cbn [hoverContentForExpr].
    rewrite EngineProps.listType_firstOfKind, EngineProps.setType_firstOfKind,
      EngineProps.tupleType_firstOfKind.
    destruct (existsb _ (LiteralValueTypes cs)) eqn:Ex.
    + destruct (Engine.firstOfKind IsListType cs) as [t|] eqn:El.
      { destruct (Hfound _ _ El) as [Hin Hk]. exists t. rewrite Hk.
        repeat split; auto. destruct t; try discriminate; reflexivity. }
      destruct (Engine.firstOfKind IsSetType cs) as [t|] eqn:Es.
      { destruct (Hfound _ _ Es) as [Hin Hk]. exists t. rewrite Hk, orb_true_r.
        repeat split; auto. destruct t; try discriminate; reflexivity. }
      destruct (Engine.firstOfKind IsTupleType cs) as [t|] eqn:Et.
      { destruct (Hfound _ _ Et) as [Hin Hk]. exists t. rewrite Hk, orb_true_r.
        repeat split; auto. destruct t; try discriminate; reflexivity. }
      apply existsb_exists in Ex as (t & Hin & Hk).
      rewrite (Hnone _ _ El Hin), (Hnone _ _ Es Hin), (Hnone _ _ Et Hin) in Hk.
      discriminate.
    + assert (Hno : forall isKind t,
                 (forall u, isKind u = true ->
                            IsListType u || IsSetType u || IsTupleType u = true) ->
                 Engine.firstOfKind isKind cs = Some t -> False).
      { intros isKind t Himp E. destruct (Hfound _ _ E) as [Hin Hk].
        assert (existsb (fun t => IsListType t || IsSetType t || IsTupleType t)
                        (LiteralValueTypes cs) = true)
          by (apply existsb_exists; exists t; auto).
        congruence. }
      destruct (Engine.firstOfKind IsListType cs) as [t|] eqn:El.
      { exfalso. apply (Hno _ _ (fun u H => eq_trans (f_equal (fun b => b || _ || _) H)
                                                      eq_refl) El). }
      destruct (Engine.firstOfKind IsSetType cs) as [t|] eqn:Es.
      { exfalso. eapply (Hno IsSetType t); [|exact Es].
        intros u ->. now rewrite orb_true_r. }
      destruct (Engine.firstOfKind IsTupleType cs) as [t|] eqn:Et.
      { exfalso. eapply (Hno IsTupleType t); [|exact Et].
        intros u ->. now rewrite orb_true_r. }
      reflexivity.
  - intros items rng. cbn [hoverContentForExpr].
    rewrite EngineProps.objectType_firstOfKind, EngineProps.mapType_firstOfKind.
    destruct (existsb _ (LiteralValueTypes cs)) eqn:Ex.
    + destruct (Engine.firstOfKind IsObjectType cs) as [t|] eqn:Eo.
      { destruct (Hfound _ _ Eo) as [Hin Hk].
        destruct t as [| | | | | | | |attrs]; try discriminate.
        destruct attrs as [|a attrs]; eexists _, _; repeat split; eauto. }
      destruct (Engine.firstOfKind IsMapType cs) as [t|] eqn:Em.
      { destruct (Hfound _ _ Em) as [Hin Hk].
        destruct t; try discriminate. eexists _, _; repeat split; eauto. }
      apply existsb_exists in Ex as (t & Hin & Hk).
      rewrite (Hnone _ _ Eo Hin), (Hnone _ _ Em Hin) in Hk. discriminate.
    + destruct (Engine.firstOfKind IsObjectType cs) as [t|] eqn:Eo.
      { exfalso. destruct (Hfound _ _ Eo) as [Hin Hk].
        assert (existsb (fun t => IsObjectType t || IsMapType t)
                        (LiteralValueTypes cs) = true)
          by (apply existsb_exists; exists t; rewrite Hk; auto).
        congruence. }
      destruct (Engine.firstOfKind IsMapType cs) as [t|] eqn:Em.
      { exfalso. destruct (Hfound _ _ Em) as [Hin Hk].
        assert (existsb (fun t => IsObjectType t || IsMapType t)
                        (LiteralValueTypes cs) = true)
          by (apply existsb_exists; exists t; rewrite Hk, orb_true_r; auto).
        congruence. }
      reflexivity.
Qed.

(** X13. Under constraints that hold no literal type, as under none at
    all, no expression has tokens and none has hover content. *)
Theorem no_literal_types_no_tokens_no_hover e cs :
  LiteralValueTypes cs = [] ->
  tokensForConstrainedExpression e cs = Ret []
  /\ exists msg, hoverContentForExpr quote bigFloatString e cs = Fail (PlainError msg).
Proof.
  intros H.
  assert (Hsel : forall isKind, Engine.firstOfKind isKind cs = None)
    by (intros isKind; unfold Engine.firstOfKind; now rewrite H).
  split.
  - clear quote bigFloatString detailForAttribute detailForBlock docsURL isPosOutsideBody.
    revert e. fix IH 1.
    intros [val r|parts r|w r|es r|items r|k r]; cbn [tokensForConstrainedExpression].
    + rewrite EngineProps.literalExpr_firstOfKind, Hsel. reflexivity.
    + destruct parts as [|part [|p2 parts]]; try reflexivity. apply IH.
    + apply IH.
    + rewrite EngineProps.listType_firstOfKind, EngineProps.setType_firstOfKind,
        EngineProps.tupleType_firstOfKind, !Hsel. reflexivity.
    + rewrite EngineProps.objectType_firstOfKind, EngineProps.mapType_firstOfKind,
        !Hsel. reflexivity.
    + reflexivity.
  - revert e. fix IH 1.
    intros [val r|parts r|w r|es r|items r|k r]; cbn [hoverContentForExpr].
    + rewrite EngineProps.literalExpr_firstOfKind, Hsel. eexists; reflexivity.
    + destruct parts as [|part [|p2 parts]]; try (eexists; reflexivity). apply IH.
    + apply IH.
    + rewrite EngineProps.listType_firstOfKind, EngineProps.setType_firstOfKind,
        EngineProps.tupleType_firstOfKind, !Hsel. eexists; reflexivity.
    + rewrite EngineProps.objectType_firstOfKind, EngineProps.mapType_firstOfKind,
        !Hsel. eexists; reflexivity.
    + eexists; reflexivity.
Qed.

End Facts.

Local Abbreviation sampleHover :=
  (hoverAtPos sampleQuote sampleBigFloat sampleAttrDetail sampleBlockDetail
     sampleDocsURL sampleOutsideBody).

Lemma hover_range_holds_position_witness :
  sampleHover filledBody (Some boolSchema) (posAt 1)
  = Ret (Some (mkHoverData (hoverContentForAttribute sampleAttrDetail "attr"
                              (schemaOf TBool))
                           (AttrSrcRange filledAttr)))
  /\ ContainsPos (AttrSrcRange filledAttr) (posAt 1) = true.
Proof.
  assert (H : sampleHover filledBody (Some boolSchema) (posAt 1)
              = Ret (Some (mkHoverData (hoverContentForAttribute sampleAttrDetail "attr"
                                          (schemaOf TBool))
                                       (AttrSrcRange filledAttr))))
    by (vm_compute; reflexivity).
  split; [exact H|].
  exact (proj1 (hover_range_holds_position sampleQuote sampleBigFloat sampleAttrDetail
                  sampleBlockDetail sampleDocsURL sampleOutsideBody)
           filledBody boolSchema (posAt 1) _ H).
Defined.

Lemma hover_attribute_name_witness :
  sampleHover filledBody (Some boolSchema) (posAt 1)
  = Ret (Some (mkHoverData (hoverContentForAttribute sampleAttrDetail "attr"
                              (schemaOf TBool))
                           (AttrSrcRange filledAttr))).
Proof.
  apply (hover_attribute_name sampleQuote sampleBigFloat sampleAttrDetail
           sampleBlockDetail sampleDocsURL sampleOutsideBody
           filledBody boolSchema (posAt 1) [] "attr" filledAttr [] (schemaOf TBool));
    [reflexivity|constructor|reflexivity|vm_compute; reflexivity|reflexivity].
Defined.

Lemma hover_unknown_attribute_witness :
  sampleHover filledBody (Some emptySchema) (posAt 1)
  = Fail (PositionalError "test.tf" (posAt 1)
            ("unknown attribute " +:+ sampleQuote "attr")).
Proof.
  apply (hover_unknown_attribute sampleQuote sampleBigFloat sampleAttrDetail
           sampleBlockDetail sampleDocsURL sampleOutsideBody
           filledBody emptySchema (posAt 1) [] "attr" filledAttr []);
    [reflexivity|constructor|reflexivity|vm_compute; reflexivity|reflexivity].
Defined.

Lemma hover_attribute_value_witness :
  sampleHover filledBody (Some boolSchema) (posAt 5)
  = Ret (Some (mkHoverData (Markdown "`true` _bool_") sampleRange)).
Proof.
  apply (hover_attribute_value sampleQuote sampleBigFloat sampleAttrDetail
           sampleBlockDetail sampleDocsURL sampleOutsideBody
           filledBody boolSchema (posAt 5) [] "attr" filledAttr [] (schemaOf TBool));
    [reflexivity|constructor|reflexivity|vm_compute; reflexivity|reflexivity
    |reflexivity].
Defined.

Lemma hover_unknown_block_type_witness :
  sampleHover threeLabelBody (Some emptySchema) (posAt 2)
  = Fail (PositionalError "test.tf" (posAt 2)
            ("unknown block type " +:+ sampleQuote "resource")).
Proof.
  apply (hover_unknown_block_type sampleQuote sampleBigFloat sampleAttrDetail
           sampleBlockDetail sampleDocsURL sampleOutsideBody
           threeLabelBody emptySchema (posAt 2) [] threeLabelBlock []);
    [constructor|reflexivity|constructor|reflexivity|vm_compute; reflexivity].
Defined.

Lemma hover_block_type_witness :
  sampleHover threeLabelBody (Some twoLabelSchema) (posAt 2)
  = Ret (Some (mkHoverData (hoverContentForBlock sampleBlockDetail "resource"
                              twoLabelBlockSchema)
                           (rangeAt 0 8))).
Proof.
  apply (hover_block_type sampleQuote sampleBigFloat sampleAttrDetail
           sampleBlockDetail sampleDocsURL sampleOutsideBody
           threeLabelBody twoLabelSchema (posAt 2) [] threeLabelBlock []
           twoLabelBlockSchema);
    [constructor|reflexivity|constructor|reflexivity|vm_compute; reflexivity
    |reflexivity].
Defined.

Lemma hover_outside_everything_witness :
  sampleHover emptyBody (Some emptySchema) (posAt 0)
  = Fail (PositionalError "test.tf" (posAt 0)
            "position outside of any attribute name, value or block").
Proof.
  apply (hover_outside_everything sampleQuote sampleBigFloat sampleAttrDetail
           sampleBlockDetail sampleDocsURL sampleOutsideBody
           emptyBody emptySchema (posAt 0)); constructor.
Defined.

Lemma hover_block_label_witness :
  exists text,
    sampleHover threeLabelBody (Some twoLabelSchema) (posAt 10)
    = Ret (Some (mkHoverData (Markdown text) (rangeAt 9 23))).
Proof.
  destruct (hover_block_label sampleQuote sampleBigFloat sampleAttrDetail
              sampleBlockDetail sampleDocsURL sampleOutsideBody
              threeLabelBody twoLabelSchema (posAt 10) [] threeLabelBlock []
              twoLabelBlockSchema [] (rangeAt 9 23) [rangeAt 24 27; rangeAt 28 31])
    as (text & _ & H);
    [constructor|reflexivity|constructor|reflexivity|vm_compute; reflexivity
    |reflexivity|reflexivity|constructor|reflexivity|cbn; lia|cbn; lia|].
  exists text. exact H.
Defined.

Lemma hover_literal_content_witness :
  hoverContentForExpr sampleQuote sampleBigFloat (AttrExpr awsAttr)
    (LiteralTypeOnly TString)
  = Ret (Markdown "`t2.micro` _string_").
Proof.
  apply (hover_literal_content sampleQuote sampleBigFloat (AttrExpr awsAttr)
           (LiteralTypeOnly TString) (StringVal "t2.micro") (rangeAt 52 60) "t2.micro");
    [reflexivity|left; reflexivity|reflexivity].
Defined.


Lemma hover_dynamic_literal_fails_witness :
  hoverContentForExpr sampleQuote sampleBigFloat (AttrExpr emptyAttr)
    (LiteralTypeOnly TBool)
  = Fail (PlainError ("no schema for literal type " +:+ sampleQuote "dynamic")).
Proof.
  apply (hover_dynamic_literal_fails sampleQuote sampleBigFloat (AttrExpr emptyAttr)
           (LiteralTypeOnly TBool) DynamicVal sampleRange); reflexivity.
Defined.

Lemma no_literal_types_no_tokens_no_hover_witness :
  tokensForConstrainedExpression (AttrExpr filledAttr) [NilExprConstraint] = Ret []
  /\ exists msg,
       hoverContentForExpr sampleQuote sampleBigFloat (AttrExpr filledAttr)
         [NilExprConstraint]
       = Fail (PlainError msg).
Proof.
  apply (no_literal_types_no_tokens_no_hover sampleQuote sampleBigFloat
           (AttrExpr filledAttr) [NilExprConstraint]).
  reflexivity.
Defined.

End HoverFacts.

(** ** Tokens of typed expressions *)

Module TokenFacts.

Import Values.

Lemma tupleItemTokens_untyped exprType es :
  (forall i, tupleElemType exprType i = Ret None) ->
  Forall (fun e => tokenForTypedExpression e None = Ret []) es ->
  forall i, tupleItemTokens tokenForTypedExpression exprType i es = Ret [].
Proof.
  intros Hty H. induction H as [|e es He _ IH]; intros i; cbn [tupleItemTokens];
    [reflexivity|].
  rewrite Hty. cbn [Go.bind]. rewrite He. cbn [Go.bind]. rewrite IH. reflexivity.
Qed.

Lemma tokenForTypedExpression_untyped e : tokenForTypedExpression e None = Ret [].
Proof.
  induction e as [val rng|parts rng _|w rng _|es rng IH|items rng _|k rng]
    using TokensProps.Expression_nested_ind; cbn [tokenForTypedExpression];
    try reflexivity.
  apply tupleItemTokens_untyped; [reflexivity|exact IH].
Qed.

Lemma tokenForTypedExpression_primitive t e :
  IsPrimitiveType t = true ->
  tokenForTypedExpression e (Some t) = Ret (literalTokens t e).
Proof.
  intros Hp. destruct e as [val rng|parts rng|w rng|es rng|items rng|k rng];
    cbn [tokenForTypedExpression literalTokens]; try reflexivity.
  - now rewrite Hp.
  - apply tupleItemTokens_untyped.
    + intros i. destruct t; try discriminate; reflexivity.
    + clear. induction es; constructor; auto using tokenForTypedExpression_untyped.
  - destruct t; try discriminate; reflexivity.
Qed.

Lemma tupleItemTokens_short elems : forall exprs i,
  (i <= length elems)%nat ->
  (length elems < i + length exprs)%nat ->
  tupleItemTokens tokenForTypedExpression (Some (TTuple elems)) i exprs = Panic.
Proof.
  induction exprs as [|e exprs IH]; intros i Hi Hlen; cbn [length] in Hlen; [lia|].
  cbn [tupleItemTokens tupleElemType].
  destruct (nth_error elems i) as [t|] eqn:En; [|reflexivity].
  cbn [Go.bind].
  pose proof (TokensProps.tokenForTypedExpression_value e (Some t)) as Hv.
  destruct (tokenForTypedExpression e (Some t)) as [et|err|]; cbn [Go.bind];
    [|contradiction|reflexivity].
  assert (i < length elems)%nat by (apply nth_error_Some; congruence).
  rewrite IH by lia. reflexivity.
Qed.

Lemma attributeTokens_panic schema isDependent attrs name attr aSchema :
  In (name, attr) attrs ->
  attrSchemaFor schema name = Some aSchema ->
  tokensForConstrainedExpression (AttrExpr attr) (Expr aSchema) = Panic ->
  attributeTokens schema isDependent attrs = Panic.
Proof.
  intros Hin Hs Hp. induction attrs as [|[n a] attrs IH]; [contradiction|].
  cbn [attributeTokens]. destruct Hin as [[= -> ->]|Hin].
  - rewrite Hs, Hp. reflexivity.
  - destruct (attrSchemaFor schema n) as [s|]; [|auto].
    pose proof (TokensProps.tokensForConstrainedExpression_value (AttrExpr a) (Expr s))
      as Hv.
    destruct (tokensForConstrainedExpression (AttrExpr a) (Expr s)); cbn [Go.bind];
      [|contradiction|reflexivity].
    rewrite (IH Hin). reflexivity.
Qed.

Lemma tokensForConstrainedExpression_unwrap e cs :
  tokensForConstrainedExpression e cs
  = tokensForConstrainedExpression (Engine.unwrap e) cs.
Proof.
  revert e. fix IH 1.
  intros [val r|parts r|w r|es r|items r|k r];
    cbn [tokensForConstrainedExpression Engine.unwrap]; try reflexivity.
  - destruct parts as [|part [|p2 parts]]; try reflexivity. apply IH.
  - apply IH.
Qed.

(** X14. A sequence construction with more members than the tuple type
    it is tokenized against makes the computation of its tokens panic:
    the type of the first member beyond the tuple type is asked for. *)
Theorem tuple_longer_than_type_panics exprs elems rng :
  (length elems < length exprs)%nat ->
  tokensForTupleConsExpr exprs (Some (TTuple elems)) = Panic
  /\ tokensForConstrainedExpression (TupleConsExpr exprs rng)
       (LiteralTypeOnly (TTuple elems)) = Panic.
Proof.
  intros Hlen.
  assert (H : tokensForTupleConsExpr exprs (Some (TTuple elems)) = Panic)
    by (apply tupleItemTokens_short; lia).
  split; [exact H|]. exact H.
Qed.

(** X15. A literal whose type is among the declared literal types, also
    inside a one-part template or a template wrapper, has one token of
    the type of its value over the range of the literal when that type
    is primitive, and no token when it is not; whether the value is
    known plays no part. *)
Theorem literal_token_of_declared_type e cs val rng :
  Engine.unwrap e = LiteralValueExpr val rng ->
  In (LiteralTypeExpr (ValueType val)) cs ->
  tokensForConstrainedExpression e cs
  = Ret match ValueType val with
        | TString => [mkToken TokenString [] rng]
        | TNumber => [mkToken TokenNumber [] rng]
        | TBool => [mkToken TokenBool [] rng]
        | _ => []
        end.
Proof.
  intros Hu Hin. rewrite tokensForConstrainedExpression_unwrap, Hu.
  cbn [tokensForConstrainedExpression].
  rewrite EngineProps.literalExpr_firstOfKind,
    (EngineProps.firstOfKind_declared _ _ Hin).
  cbn [tokenForTypedExpression]. destruct (ValueType val); reflexivity.
Qed.

(** X16. Tokenized against a map type with a primitive element type, a
    keyed construction gives for every item, in order, a map-key token
    over the range of its key, followed by the token of its value when
    the value is a literal; a value of any other kind, a quoted string
    among them, gives no token. *)
Theorem map_of_primitive_tokens items elemType :
  IsPrimitiveType elemType = true ->
  tokensForObjectConsExpr items (Some (TMap elemType))
  = Ret (flat_map (fun it => mkToken TokenMapKey [] (KeyRange (fst it))
                             :: literalTokens elemType (snd it)) items).
Proof.
  intros Hp. unfold tokensForObjectConsExpr, tokensForObjectConsExpr_body.
  induction items as [|[key valueExpr] items IH]; cbn [mapItemTokens flat_map];
    [reflexivity|].
  rewrite (tokenForTypedExpression_primitive _ _ Hp). cbn [Go.bind].
  rewrite IH. reflexivity.
Qed.

(** X17. Tokenized against a list or set type with a primitive element
    type, a sequence construction gives the tokens of its literal
    members, in order, and no token for a member of any other kind. *)
Theorem list_of_primitive_tokens exprs t elemType :
  t = TList elemType \/ t = TSet elemType ->
  IsPrimitiveType elemType = true ->
  tokensForTupleConsExpr exprs (Some t)
  = Ret (flat_map (literalTokens elemType) exprs).
Proof.
  intros Ht Hp. unfold tokensForTupleConsExpr. generalize 0%nat as i.
  induction exprs as [|e exprs IH]; intros i; cbn [tupleItemTokens flat_map];
    [reflexivity|].
  assert (Hty : tupleElemType (Some t) i = Ret (Some elemType))
    by (destruct Ht as [->| ->]; reflexivity).
  rewrite Hty. cbn [Go.bind].
  rewrite (tokenForTypedExpression_primitive _ _ Hp). cbn [Go.bind].
  rewrite IH. reflexivity.
Qed.

(** X18. Tokenized against an object type, an item of a keyed
    construction whose key is not a wholly known string, or is a name
    the object type has not, is passed by: the tokens are those of the
    construction without the item. *)
Theorem object_item_with_unknown_key_skipped attrTypes before key valueExpr after :
  skippedKey attrTypes key = true ->
  tokensForObjectConsExpr (before ++ (key, valueExpr) :: after)
    (Some (TObject attrTypes))
  = tokensForObjectConsExpr (before ++ after) (Some (TObject attrTypes)).
Proof.
  intros Hk. unfold tokensForObjectConsExpr, tokensForObjectConsExpr_body.
  induction before as [|[k v] before IH]; cbn [app objectItemTokens].
  - unfold skippedKey in Hk.
    destruct (KeyValue key) as [t|t|s|b|n d|t ms] eqn:Ek;
      try (apply negb_true_iff in Hk; rewrite Hk; reflexivity).
    cbn [IsWhollyKnown ValueType Equals andb AsString Go.bind].
    destruct (lookupAttrType attrTypes s); [discriminate|reflexivity].
  - rewrite IH. reflexivity.
Qed.

(** X19. The token query has no recovery from a panic: when the tokens
    of the value of one attribute of the root body that the schema
    recognizes panic, as for a sequence longer than its tuple type, the
    tokens of the body and the tokens of the file panic. *)
Theorem tokens_panic_reaches_the_query d filename body schema name attr aSchema :
  files d !! filename = Some (SyntaxBody body) ->
  rootSchema d = Some schema ->
  In (name, attr) (Attributes body) ->
  attrSchemaFor schema name = Some aSchema ->
  tokensForConstrainedExpression (AttrExpr attr) (Expr aSchema) = Panic ->
  (forall isDependent, tokensForBody body (Some schema) isDependent = Panic)
  /\ SemanticTokensInFile d filename = Panic.
Proof.
  intros Hf Hr Hin Hs Hp.
  assert (H : forall isDependent,
             tokensForBody body (Some schema) isDependent = Panic).
  { intros isDependent. rewrite TokensProps.tokensForBody_unfold.
    now rewrite (attributeTokens_panic _ _ _ _ _ _ Hin Hs Hp). }
  split; [exact H|].
  unfold SemanticTokensInFile, fileByName. rewrite Hf. cbn [Go.bind bodyForFileAndPos].
  rewrite Hr, H. reflexivity.
Qed.

Lemma tuple_longer_than_type_panics_witness :
  tokensForConstrainedExpression
    (TupleConsExpr [LiteralValueExpr (NumberVal 1 1) (rangeAt 1 2);
                    LiteralValueExpr (NumberVal 2 1) (rangeAt 4 5)] (rangeAt 0 6))
    (LiteralTypeOnly (TTuple [TNumber]))
  = Panic.
Proof.
  apply (tuple_longer_than_type_panics
           [LiteralValueExpr (NumberVal 1 1) (rangeAt 1 2);
            LiteralValueExpr (NumberVal 2 1) (rangeAt 4 5)] [TNumber] (rangeAt 0 6)).
  cbn. lia.
Defined.

Lemma literal_token_of_declared_type_witness :
  tokensForConstrainedExpression (AttrExpr awsAttr) (LiteralTypeOnly TString)
  = Ret [mkToken TokenString [] (rangeAt 52 60)].
Proof.
  apply (literal_token_of_declared_type (AttrExpr awsAttr) (LiteralTypeOnly TString)
           (StringVal "t2.micro") (rangeAt 52 60));
    [reflexivity|left; reflexivity].
Defined.

Lemma map_of_primitive_tokens_witness :
  tokensForObjectConsExpr
    [(mkKey (StringVal "bla") (rangeAt 3 6), AttrExpr awsAttr);
     (mkKey (StringVal "nada") (rangeAt 20 24),
      LiteralValueExpr (StringVal "yada") (rangeAt 27 31))]
    (Some (TMap TString))
  = Ret [mkToken TokenMapKey [] (rangeAt 3 6);
         mkToken TokenMapKey [] (rangeAt 20 24);
         mkToken TokenString [] (rangeAt 27 31)].
Proof.
  apply (map_of_primitive_tokens
           [(mkKey (StringVal "bla") (rangeAt 3 6), AttrExpr awsAttr);
            (mkKey (StringVal "nada") (rangeAt 20 24),
             LiteralValueExpr (StringVal "yada") (rangeAt 27 31))] TString).
  reflexivity.
Defined.

Lemma list_of_primitive_tokens_witness :
  tokensForTupleConsExpr
    [LiteralValueExpr (NumberVal 1 1) (rangeAt 1 2); AttrExpr awsAttr]
    (Some (TList TNumber))
  = Ret [mkToken TokenNumber [] (rangeAt 1 2)].
Proof.
  apply (list_of_primitive_tokens
           [LiteralValueExpr (NumberVal 1 1) (rangeAt 1 2); AttrExpr awsAttr]
           (TList TNumber) TNumber);
    [left; reflexivity|reflexivity].
Defined.

Lemma object_item_with_unknown_key_skipped_witness :
  tokensForObjectConsExpr
    ([(mkKey (StringVal "knownkey") (rangeAt 3 11),
       LiteralValueExpr (NumberVal 42 1) (rangeAt 14 16))]
     ++ (mkKey (StringVal "unknownkey") (rangeAt 20 30), AttrExpr awsAttr) :: [])
    (Some (TObject [("knownkey", TNumber)]))
  = tokensForObjectConsExpr
      ([(mkKey (StringVal "knownkey") (rangeAt 3 11),
         LiteralValueExpr (NumberVal 42 1) (rangeAt 14 16))] ++ [])
      (Some (TObject [("knownkey", TNumber)])).
Proof.
  apply (object_item_with_unknown_key_skipped [("knownkey", TNumber)]
           [(mkKey (StringVal "knownkey") (rangeAt 3 11),
             LiteralValueExpr (NumberVal 42 1) (rangeAt 14 16))]
           (mkKey (StringVal "unknownkey") (rangeAt 20 30)) (AttrExpr awsAttr) []).
  reflexivity.
Defined.

Lemma tokens_panic_reaches_the_query_witness :
  SemanticTokensInFile pairDecoder "test.tf" = Panic.
Proof.
  apply (tokens_panic_reaches_the_query pairDecoder "test.tf" pairBody pairSchema
           "pair" pairAttr (schemaOf (TTuple [TNumber])));
    [vm_compute; reflexivity|reflexivity|left; reflexivity|vm_compute; reflexivity
    |vm_compute; reflexivity].
Defined.

End TokenFacts.

(** ** Candidates of literal types and values *)

Module CandidateFacts.

Import Completion Values.

Section Facts.

Variable quote : string -> string.
Variable formatFloat64 : Z -> positive -> string.

Local Abbreviation candidatesLoop editRng :=
  (fix loop (cs : list ExprConstraint) (acc : list Candidate)
     : result (list Candidate) :=
     match cs with
     | [] => Ret acc
     | c :: cs' =>
         let! more := constraintToCandidates quote formatFloat64 c editRng in
         loop cs' (acc ++ more)
     end).

Lemma constraintToCandidates_count c editRng :
  exists l,
    constraintToCandidates quote formatFloat64 c editRng = Ret l
    /\ length l = list_sum (map candidateCount (LiteralValueTypes [c]))
    /\ Forall (fun cand => CandKind cand = LiteralValueCandidateKind) l.
Proof.
  destruct c as [t|]; cbn [constraintToCandidates LiteralValueTypes flat_map app map
                           list_sum]; [|exists []; repeat split; constructor].
  unfold typeToCandidates, candidateCount.
  destruct (isType TBool t).
  - eexists. split; [reflexivity|]. split; [reflexivity|]. repeat constructor.
  - destruct (IsPrimitiveType t); eexists; (split; [reflexivity|]);
      split; try reflexivity; repeat constructor.
Qed.

Lemma candidatesLoop_acc editRng cs :
  exists l,
    (forall acc, candidatesLoop editRng cs acc = Ret (acc ++ l))
    /\ length l = list_sum (map candidateCount (LiteralValueTypes cs))
    /\ Forall (fun cand => CandKind cand = LiteralValueCandidateKind) l.
Proof.
  induction cs as [|c cs (l & Hl & Hlen & Hkind)].
  - exists []. split; [intros acc; now rewrite app_nil_r|]. split; [reflexivity|constructor].
  - destruct (constraintToCandidates_count c editRng) as (more & Em & Hm & Hk).
    exists (more ++ l). split; [|split].
    + intros acc. rewrite Em. cbn [Go.bind]. rewrite Hl. now rewrite app_assoc.
    + change (c :: cs) with ([c] ++ cs).
      unfold LiteralValueTypes in *. rewrite flat_map_app, List.map_app.
      rewrite list_sum_app, length_app. congruence.
    + apply Forall_app. auto.
Qed.

Lemma candidatesLoop_app editRng cs1 cs2 : forall acc,
  candidatesLoop editRng (cs1 ++ cs2) acc
  = let! a := candidatesLoop editRng cs1 acc in candidatesLoop editRng cs2 a.
Proof.
  induction cs1 as [|c cs1 IH]; intros acc; [reflexivity|].
  cbn [app].
  destruct (constraintToCandidates quote formatFloat64 c editRng) as [more| |];
    cbn [Go.bind]; [apply IH|reflexivity|reflexivity].
Qed.

Lemma singleLine_append a b : singleLine (a +:+ b) = singleLine a && singleLine b.
Proof.
  induction a as [|x a IH]; [reflexivity|].
  rewrite ReaderProps.append_cons. cbn [singleLine]. rewrite IH.
  now rewrite andb_assoc.
Qed.




Lemma labelForType_lines t :
  plainNames t = true -> singleLine (labelForType t) = true.
Proof.
  induction t as [| | | |e IH|e IH|e IH|es IH|attrs IH] using ctyType_nested_ind;
    try reflexivity; cbn [plainNames]; intros Hp.
  - cbn [labelForType]. rewrite !singleLine_append, (IH Hp). reflexivity.
  - cbn [labelForType]. rewrite !singleLine_append, (IH Hp). reflexivity.
  - cbn [labelForType]. rewrite !singleLine_append, (IH Hp). reflexivity.
  - destruct es as [|e0 [|e1 es]]; [reflexivity| |].
    + cbn [forallb] in Hp. apply andb_prop in Hp as [H0 _].
      inversion IH as [|? ? I0 _]; subst.
      cbn [labelForType]. rewrite !singleLine_append, (I0 H0). reflexivity.
    + cbn [forallb] in Hp. apply andb_prop in Hp as [H0 Hp].
      apply andb_prop in Hp as [H1 _].
      inversion IH as [|? ? I0 IH']; subst. inversion IH' as [|? ? I1 _]; subst.
      destruct es; cbn [labelForType];
        rewrite !singleLine_append, (I0 H0), (I1 H1); reflexivity.
  - destruct attrs as [|[n0 t0] [|[n1 t1] attrs]]; [reflexivity| |].
    + cbn [forallb fst snd] in Hp. apply andb_prop in Hp as [H0 _].
      apply andb_prop in H0 as [N0 H0].
      inversion IH as [|? ? I0 _]; subst. cbn [snd] in I0.
      cbn [labelForType]. rewrite !singleLine_append, N0, (I0 H0). reflexivity.
    + cbn [forallb fst snd] in Hp. apply andb_prop in Hp as [H0 Hp].
      apply andb_prop in Hp as [H1 _].
      apply andb_prop in H0 as [N0 H0]. apply andb_prop in H1 as [N1 H1].
      inversion IH as [|? ? I0 IH']; subst. inversion IH' as [|? ? I1 _]; subst.
      cbn [snd] in I0, I1.
      destruct attrs; cbn [labelForType];
        rewrite !singleLine_append, N0, N1, (I0 H0), (I1 H1); reflexivity.
Qed.


(** X20. The candidates of a sequence of constraints are those of its
    constraints one after the other, in the order of the constraints:
    the candidates of two sequences put together are the candidates of
    the first followed by those of the second. *)
Theorem candidates_in_constraint_order cs1 cs2 editRng :
  exists l1 l2,
    expressionCandidatesAtPos quote formatFloat64 cs1 editRng
    = Ret (mkCandidates l1 true)
    /\ expressionCandidatesAtPos quote formatFloat64 cs2 editRng
       = Ret (mkCandidates l2 true)
    /\ expressionCandidatesAtPos quote formatFloat64 (cs1 ++ cs2) editRng
       = Ret (mkCandidates (l1 ++ l2) true).
Proof.
  destruct (candidatesLoop_acc editRng cs1) as (l1 & H1 & _).
  destruct (candidatesLoop_acc editRng cs2) as (l2 & H2 & _).
  exists l1, l2. unfold expressionCandidatesAtPos. cbn [CandList NewCandidates].
  rewrite candidatesLoop_app, H1. cbn [Go.bind]. rewrite !H2. cbn [Go.bind app].
  auto.
Qed.

(** X21. The candidates listed for constraints are two for every bool
    type among their literal types, none for a string or number type and
    one for every other type, the dynamic pseudo-type included; all are
    candidates of the literal-value kind. *)
Theorem candidates_per_literal_type cs editRng :
  exists l,
    expressionCandidatesAtPos quote formatFloat64 cs editRng
    = Ret (mkCandidates l true)
    /\ length l = list_sum (map candidateCount (LiteralValueTypes cs))
    /\ Forall (fun cand => CandKind cand = LiteralValueCandidateKind) l.
Proof.
  destruct (candidatesLoop_acc editRng cs) as (l & Hl & Hlen & Hkind).
  exists l. unfold expressionCandidatesAtPos. cbn [CandList NewCandidates].
  rewrite Hl. cbn [Go.bind app]. auto.
Qed.

(** X22. Of a list of values, each a known value of a primitive type or
    a value of another type, the candidates are one for every known
    primitive value, in order, a value of another type giving none. The
    candidate carries the name of the type of the value as detail and as
    description, and its snippet is its new text as the default of the
    first placeholder. *)
Theorem candidates_of_values vals editRng :
  Forall (fun v => knownPrimitive v = true \/ IsPrimitiveType (ValueType v) = false)
         vals ->
  exists l,
    valuesToCandidates quote formatFloat64 vals editRng = Ret l
    /\ Forall2 (fun v cand =>
                  CandDetail cand = FriendlyName (ValueType v)
                  /\ CandDescription cand = PlainText (FriendlyName (ValueType v))
                  /\ CandKind cand = LiteralValueCandidateKind
                  /\ Snippet (Edit cand) = "${1:" +:+ NewText (Edit cand) +:+ "}"
                  /\ EditRange (Edit cand) = editRng)
               (List.filter knownPrimitive vals) l.
Proof.
  induction 1 as [|v vals Hv _ (l & Hl & Hall)].
  - exists []. split; [reflexivity|constructor].
  - cbn [valuesToCandidates List.filter]. rewrite Hl.
    assert (Hskip : forall t, IsPrimitiveType t = false ->
                      match t with TString | TNumber | TBool => False | _ => True end)
      by (intros []; cbn; intros; try discriminate; exact I).
    destruct v as [t|t|s|b|n d|t ms]; cbn [knownPrimitive ValueType] in *.
    1, 2, 6: destruct Hv as [Hv|Hv]; [discriminate|]; apply Hskip in Hv;
      destruct t; try contradiction; exists l; (split; [reflexivity|exact Hall]).
    all: eexists; (split; [reflexivity|]); constructor; auto;
      repeat split; reflexivity.
Qed.



(** X25. The label of a type is on one line, whatever the type, as long
    as the names of its attributes are; the label of a candidate of a
    map or object type is on one line where its new text is not. *)
Theorem label_on_one_line t editRng :
  plainNames t = true ->
  singleLine (labelForType t) = true
  /\ exists l,
       typeToCandidates quote formatFloat64 t editRng = Ret l
       /\ Forall (fun cand => singleLine (Label cand) = true) l.
Proof.
  intros Hp. split; [exact (labelForType_lines t Hp)|].
  unfold typeToCandidates. destruct (isType TBool t).
  - eexists. split; [reflexivity|]. repeat constructor.
  - destruct (IsPrimitiveType t); eexists; (split; [reflexivity|]);
      repeat constructor. exact (labelForType_lines t Hp).
Qed.


End Facts.

Lemma label_on_one_line_witness :
  singleLine (labelForType (TObject [("knownkey", TMap TNumber)])) = true
  /\ singleLine (newTextForType (TObject [("knownkey", TMap TNumber)])) = false.
Proof.
  split; [|reflexivity].
  apply (label_on_one_line sampleQuote sampleFloat
           (TObject [("knownkey", TMap TNumber)]) sampleRange).
  reflexivity.
Defined.

Lemma candidates_of_values_witness :
  exists l,
    valuesToCandidates sampleQuote sampleFloat
      [ctyFalse; CompoundVal (TList TBool) []; StringVal "a"] sampleRange = Ret l
    /\ length l = 2%nat.
Proof.
  destruct (candidates_of_values sampleQuote sampleFloat
              [ctyFalse; CompoundVal (TList TBool) []; StringVal "a"] sampleRange)
    as (l & Hl & Hall).
  - constructor; [left; reflexivity|]. constructor; [right; reflexivity|].
    constructor; [left; reflexivity|]. constructor.
  - exists l. split; [exact Hl|].
    apply Forall2_length in Hall. symmetry. exact Hall.
Defined.

End CandidateFacts.

(** ** Literal types of constraints *)

Module SchemaFacts.

(** X27. The literal value types of constraints are the types of their
    literal-type constraints, in order: a type is among them exactly
    when its literal-type constraint is among the constraints, those of
    literal-type constraints made of a list of types are that list, and
    those of the constraint for one literal type only are that type
    alone. *)
Theorem literal_value_types_of_constraints :
  (forall t ec, In t (LiteralValueTypes ec) <-> In (LiteralTypeExpr t) ec)
  /\ (forall ts, LiteralValueTypes (map LiteralTypeExpr ts) = ts)
  /\ (forall a b,
        LiteralValueTypes (a ++ b) = LiteralValueTypes a ++ LiteralValueTypes b)
  /\ (forall t, LiteralValueTypes (LiteralTypeOnly t) = [t])
  /\ (forall ec, (length (LiteralValueTypes ec) <= length ec)%nat).
Proof.
  split; [|split; [|split; [|split]]].
  - intros t ec. unfold LiteralValueTypes. rewrite in_flat_map. split.
    + intros ([u|] & Hin & Hu); cbn in Hu; [|contradiction].
      destruct Hu as [->|[]]. exact Hin.
    + intros Hin. exists (LiteralTypeExpr t). split; [exact Hin|now left].
  - induction ts as [|t ts IH]; [reflexivity|]. cbn. f_equal. exact IH.
  - intros a b. apply flat_map_app.
  - reflexivity.
  - unfold LiteralValueTypes.
    induction ec as [|[t|] ec IH]; cbn [flat_map app length] in *; lia.
Qed.

End SchemaFacts.
